(** * vak.core.learncurve.train_dur_csv_paths

    A shallow embedding of [src/vak/core/learncurve/train_dur_csv_paths.py]
    (functions [from_dir] and [from_df]) together with the pieces of the
    Python runtime they rely on: [re.findall], [int], [pathlib.Path],
    [shutil.copy], [collections.defaultdict] and [sorted].

    File names are ASCII strings; a path is the list of its components. *)

From stdpp Require Import gmap strings list fin_maps sorting pretty.
From Stdlib Require Import Ascii ZArith Lia.

Open Scope string_scope.
Open Scope Z_scope.

(** ** Exceptions and results *)

Definition path := list string.

Inductive exn :=
  (* train_dur_csv_paths.py, lines 97-101 *)
  | ValueError_not_single_duration (train_subset_path : path) (found : list string)
  (* raised by int() at line 102 *)
  | ValueError_invalid_literal (s : string)
  (* lines 107-112 *)
  | ValueError_durations_mismatch (specified found : list Z)
  (* lines 118-121 *)
  | ValueError_replicates_mismatch
  (* raised by Path.mkdir, shutil.copy, np.save, DataFrame.to_csv *)
  | FileExistsError (p : path)
  | FileNotFoundError (p : path)
  | IsADirectoryError (p : path)
  | SameFileError (p : path)
  (* raised by pd.read_csv, vak.split.dataframe, WindowDataset.spect_vectors_from_df *)
  | CollaboratorError (msg : string).


Inductive result (A : Type) :=
  | Ok (a : A)
  | Err (e : exn).
Arguments Ok {A} a.
Arguments Err {A} e.

(** What a call to a collaborator gives back: a value, or an exception of
    the collaborator's own. *)
Inductive outcome (A : Type) :=
  | Returned (a : A)
  | Raised (msg : string).
Arguments Returned {A} a.
Arguments Raised {A} msg.

Definition of_outcome {A} (o : outcome A) : result A :=
  match o with
  | Returned a => Ok a
  | Raised msg => Err (CollaboratorError msg)
  end.

(** ** Strings: digits, [int], regular expressions, glob patterns *)

Module Py.

Definition is_digit (c : ascii) : bool :=
  ((48 <=? N_of_ascii c)%N && (N_of_ascii c <=? 57)%N)%bool.

Definition digit_value (c : ascii) : Z := Z.of_N (N_of_ascii c) - 48.

Fixpoint digits_value (acc : Z) (s : string) : option Z :=
  match s with
  | EmptyString => Some acc
  | String c s' =>
      if is_digit c then digits_value (10 * acc + digit_value c) s' else None
  end.

(** [int(s)] for a [str] argument.  On the strings that reach line 102 (a
    capture of [TRAIN_DUR_PAT], made of digits and at most one dot) this is
    exactly Python's behaviour: a non-empty run of digits is read in base 10
    and anything else raises [ValueError]. *)
Definition int (s : string) : result Z :=
  match s with
  | EmptyString => Err (ValueError_invalid_literal s)
  | _ => match digits_value 0 s with
         | Some z => Ok z
         | None => Err (ValueError_invalid_literal s)
         end
  end.

Fixpoint strip_prefix (p s : string) : option string :=
  match p with
  | EmptyString => Some s
  | String a p' =>
      match s with
      | String b s' => if Ascii.eqb a b then strip_prefix p' s' else None
      | EmptyString => None
      end
  end.

Fixpoint take_string (n : nat) (s : string) : string :=
  match n, s with
  | S n', String c s' => String c (take_string n' s')
  | _, _ => EmptyString
  end.

(** The fragment of [re] syntax used by the module. *)
Inductive regex :=
  | Lit (s : string)          (* literal text *)
  | Digit                     (* \d *)
  | Plus (r : regex)          (* r+, greedy *)
  | Seq (r1 r2 : regex)       (* r1r2 *)
  | Alt (r1 r2 : regex)       (* r1|r2, left alternative first *)
  | Group (r : regex).        (* (r), capturing *)

Definition orelse {X} (a b : option X) : option X :=
  match a with Some x => Some x | None => b end.

(** Backtracking matcher anchored at the start of [s]: [k] receives the
    unconsumed suffix and the captures made so far; alternatives are tried in
    the order Python tries them (left branch of [|] first, one more
    iteration of [+] before stopping). *)
Fixpoint match_re {X} (r : regex) (s : string) (caps : list string)
    (k : string -> list string -> option X) {struct r} : option X :=
  match r with
  | Lit l =>
      match strip_prefix l s with Some s' => k s' caps | None => None end
  | Digit =>
      match s with
      | String c s' => if is_digit c then k s' caps else None
      | EmptyString => None
      end
  | Seq r1 r2 =>
      match_re r1 s caps (fun s1 caps1 => match_re r2 s1 caps1 k)
  | Alt r1 r2 =>
      orelse (match_re r1 s caps k) (match_re r2 s caps k)
  | Group r1 =>
      match_re r1 s caps (fun s1 caps1 =>
        k s1 (caps1 ++ [take_string (String.length s - String.length s1) s])%list)
  | Plus r1 =>
      (fix loop (n : nat) (s0 : string) (caps0 : list string) {struct n} : option X :=
         match_re r1 s0 caps0 (fun s1 caps1 =>
           match n with
           | S n' =>
               if (String.length s1 <? String.length s0)%nat
               then orelse (loop n' s1 caps1) (k s1 caps1)
               else k s1 caps1
           | O => k s1 caps1
           end))
        (String.length s) s caps
  end.

(** [re.match]: the number of characters consumed and the captures. *)
Definition match_at (r : regex) (s : string) : option (nat * list string) :=
  match_re r s [] (fun rest caps =>
    Some ((String.length s - String.length rest)%nat, caps)).

(** [re.findall(r, s)] for a pattern with one capturing group that cannot
    match the empty string: scan left to right, collect group 1 of every
    match, resume right after the match.  [skip] counts the characters of
    the current match still to be stepped over. *)
Fixpoint findall_from (r : regex) (skip : nat) (s : string) : list string :=
  match s with
  | EmptyString => []
  | String _ s' =>
      match skip with
      | S k => findall_from r k s'
      | O =>
          match match_at r s with
          | Some (n, caps) => List.hd "" caps :: findall_from r (Nat.pred n) s'
          | None => findall_from r 0 s'
          end
      end
  end.

Definition findall (r : regex) (s : string) : list string := findall_from r 0 s.

(** First occurrence of [needle]: the text that follows it. *)
Fixpoint after_first (needle s : string) : option string :=
  match strip_prefix needle s with
  | Some rest => Some rest
  | None =>
      match s with
      | String _ s' => after_first needle s'
      | EmptyString => None
      end
  end.

Fixpoint ends_with (suffix s : string) : bool :=
  if String.eqb suffix s then true
  else match s with
       | String _ s' => ends_with suffix s'
       | EmptyString => false
       end.

(** [range(a, b)] on integers. *)
Definition range (a b : Z) : list Z :=
  List.map (fun i => a + Z.of_nat i) (seq 0 (Z.to_nat (b - a))).

(** [len(l)] *)
Definition len {A} (l : list A) : Z := Z.of_nat (length l).

(** Lexicographic comparison of sequences, as Python compares [str],
    [list] and [tuple]: the first differing position decides, and a proper
    prefix is smaller. *)
Fixpoint lex_leb {A} (eqb leb : A -> A -> bool) (x y : list A) : bool :=
  match x, y with
  | [], _ => true
  | _ :: _, [] => false
  | a :: x', b :: y' => if eqb a b then lex_leb eqb leb x' y' else leb a b
  end.

Definition codes (s : string) : list N :=
  List.map N_of_ascii (String.list_ascii_of_string s).

(** [s <= t] on [str]: by code points. *)
Definition str_leb (s t : string) : bool := lex_leb N.eqb N.leb (codes s) (codes t).

(** [p <= q] on [pathlib.PurePosixPath]: by the sequence of components. *)
Definition path_leb (p q : path) : bool := lex_leb String.eqb str_leb p q.

Definition path_le (p q : path) : Prop := Is_true (path_leb p q).

(** [sorted(l)]; the order is total and antisymmetric, so the result does
    not depend on the sorting algorithm. *)
Definition sorted_paths (l : list path) : list path := merge_sort path_le l.
Definition sorted_ints (l : list Z) : list Z := merge_sort Z.le l.

End Py.

(** pattern used by path.glob to find all training data subset csvs within
    previous_run_path: [CSV_GLOB = '**/*prep*csv'].  The directory part [**]
    is handled by [Fs.glob]; this is the test on the last component,
    [*prep*csv]. *)
Definition CSV_GLOB (name : string) : bool :=
  match Py.after_first "prep" name with
  | Some rest => Py.ends_with "csv" rest
  | None => false
  end.

(** pattern used by re to get training subset duration:
    [TRAIN_DUR_PAT = r'train_dur_(\d+\.\d+|\d+)s'] *)
Definition TRAIN_DUR_PAT : Py.regex :=
  Py.Seq (Py.Lit "train_dur_")
    (Py.Seq
       (Py.Group
          (Py.Alt
             (Py.Seq (Py.Plus Py.Digit) (Py.Seq (Py.Lit ".") (Py.Plus Py.Digit)))
             (Py.Plus Py.Digit)))
       (Py.Lit "s")).


(** ** Dataset tables *)

(** One row of a dataset table: the pandas index, the [split] column and
    the remaining columns (paths to audio, spectrogram and annotation
    files, duration, ...), which this module never inspects. *)
Record row := {
  row_index : Z;
  row_split : string;
  row_columns : list string
}.

Definition df := list row.

(** [df[df['split'] == s]] *)
Definition select_split (s : string) (t : df) : df :=
  List.filter (fun r => String.eqb (row_split r) s) t.

(** [pd.concat((a, b, c))] *)
Definition concat (ts : list df) : df := List.concat ts.

(** A numpy integer vector. *)
Definition vec := list Z.

(** ** The file system *)

Module Fs.

(** What a file holds: a table written by [DataFrame.to_csv], an array
    written by [np.save], or anything else. *)
Inductive content :=
  | Csv (t : df)
  | Npy (v : vec)
  | Blob (s : string).

Record filesystem := {
  dirs : gset path;
  files : gmap path content
}.

(** [Path.name], [Path.parent], [Path.joinpath] *)
Definition name (p : path) : string := List.last p "".
Definition parent (p : path) : path := removelast p.
Definition joinpath (p : path) (s : string) : path := (p ++ [s])%list.

Fixpoint rfind (c : ascii) (s : string) : option nat :=
  match s with
  | EmptyString => None
  | String a s' =>
      match rfind c s' with
      | Some i => Some (S i)
      | None => if Ascii.eqb a c then Some 0%nat else None
      end
  end.

(** [Path.stem]: the name without its last suffix. *)
Definition stem (p : path) : string :=
  let n := name p in
  match rfind "." n with
  | Some i =>
      if ((0 <? i)%nat && (i <? String.length n - 1)%nat)%bool
      then Py.take_string i n else n
  | None => n
  end.

Definition is_dir (fs : filesystem) (p : path) : bool := bool_decide (p ∈ dirs fs).
Definition is_file (fs : filesystem) (p : path) : bool :=
  match files fs !! p with Some _ => true | None => false end.
Definition exists_ (fs : filesystem) (p : path) : bool := (is_dir fs p || is_file fs p)%bool.

(** Every entry lies in a directory of the tree. *)
Definition wf (fs : filesystem) : Prop :=
  set_Forall (fun p => parent p ∈ dirs fs) (dirs fs) /\
  map_Forall (fun p _ => parent p ∈ dirs fs) (files fs).

(** [Path.mkdir()] with its defaults [parents=False, exist_ok=False]. *)
Definition mkdir (p : path) (fs : filesystem) : result unit * filesystem :=
  if exists_ fs p then (Err (FileExistsError p), fs)
  else if negb (is_dir fs (parent p)) then (Err (FileNotFoundError p), fs)
  else (Ok tt, {| dirs := {[p]} ∪ dirs fs; files := files fs |}).

(** [open(p, 'wb').write(c)]: creates or truncates the file [p]. *)
Definition write_file (p : path) (c : content) (fs : filesystem)
  : result unit * filesystem :=
  if is_dir fs p then (Err (IsADirectoryError p), fs)
  else if negb (is_dir fs (parent p)) then (Err (FileNotFoundError p), fs)
  else (Ok tt, {| dirs := dirs fs; files := <[p := c]> (files fs) |}).

(** [open(p, 'rb').read()] *)
Definition read_file (p : path) (fs : filesystem) : result content :=
  match files fs !! p with
  | Some c => Ok c
  | None => if is_dir fs p then Err (IsADirectoryError p) else Err (FileNotFoundError p)
  end.

(** [shutil.copy(src, dst)]: a directory [dst] receives the file under the
    source's name; an existing file is overwritten; returns the path
    written. *)
Definition copy (src dst : path) (fs : filesystem) : result path * filesystem :=
  let dst := if is_dir fs dst then joinpath dst (name src) else dst in
  if (exists_ fs src && bool_decide (src = dst))%bool
  then (Err (SameFileError src), fs)
  else match read_file src fs with
       | Err e => (Err e, fs)
       | Ok c =>
           match write_file dst c fs with
           | (Ok _, fs') => (Ok dst, fs')
           | (Err e, fs') => (Err e, fs')
           end
       end.

Fixpoint is_proper_prefix (p q : path) : bool :=
  match p, q with
  | [], _ :: _ => true
  | a :: p', b :: q' => (String.eqb a b && is_proper_prefix p' q')%bool
  | _, [] => false
  end.

(** The entries of the tree, in the order the operating system lists them. *)
Definition entries (fs : filesystem) : list path :=
  elements (dirs fs ∪ dom (files fs)).

(** [root.glob('**/' + pat)]: every entry strictly below [root] whose last
    component matches [pat]. *)
Definition glob (root : path) (pat : string -> bool) (fs : filesystem) : list path :=
  List.filter (fun p => (is_proper_prefix root p && pat (name p))%bool) (entries fs).

End Fs.

(** ** [collections.defaultdict(list)], keyed by duration *)

Module DefaultDict.

(** Items in insertion order, as a Python [dict] keeps them. *)
Definition t := list (Z * list path).

Definition empty : t := [].

Fixpoint lookup (k : Z) (m : t) : option (list path) :=
  match m with
  | [] => None
  | (k', v) :: m' => if Z.eqb k k' then Some v else lookup k m'
  end.

(** [m[k] = v] *)
Fixpoint setitem (k : Z) (v : list path) (m : t) : t :=
  match m with
  | [] => [(k, v)]
  | (k', v') :: m' =>
      if Z.eqb k k' then (k, v) :: m' else (k', v') :: setitem k v m'
  end.

(** [m[k]]: a missing key is first bound to [default_factory()], the empty
    list. *)
Definition getitem (k : Z) (m : t) : list path * t :=
  match lookup k m with
  | Some v => (v, m)
  | None => ([], setitem k [] m)
  end.

(** [m[k].append(p)] *)
Definition append (k : Z) (p : path) (m : t) : t :=
  let '(v, m') := getitem k m in setitem k (v ++ [p])%list m'.

Definition keys (m : t) : list Z := m.*1.
Definition values (m : t) : list (list path) := m.*2.

End DefaultDict.

(** ** External collaborators and the world they act on *)

(** The functions this module calls but does not define.  [vak.split] and
    [WindowDataset] open the files named in the table, so they read the
    file system; the splitter also draws from a random state. *)
Class Collaborators := {
  rng_state : Type;
  labelset_t : Type;
  labelmap_t : Type;
  timebin_dur_t : Type;
  (** [pd.read_csv], on the content of the file read *)
  read_csv : Fs.content -> outcome df;
  (** [vak.split.dataframe(train_df, train_dur=..., labelset=...)] *)
  split_dataframe :
    Fs.filesystem -> rng_state -> df -> Z -> labelset_t -> outcome df * rng_state;
  (** [WindowDataset.spect_vectors_from_df(subset_df, window_size, spect_key,
      timebins_key, crop_dur=..., timebin_dur=..., labelmap=...)] *)
  spect_vectors_from_df :
    Fs.filesystem -> df -> Z -> string -> string -> Z -> timebin_dur_t -> labelmap_t ->
    outcome (vec * vec * vec)
}.

(** What the run leaves behind besides files: log lines and the arguments
    handed to the collaborators. *)
Inductive event :=
  | Logged
  | SplitCalled (train_df : df) (train_dur : Z)
  | SpectVectorsCalled (subset_df : df) (crop_dur : Z).

Section Learncurve.

Context `{C : Collaborators}.

Record world := {
  w_fs : Fs.filesystem;
  w_rng : rng_state;
  w_trace : list event
}.

(** Computations that read and write the world and may raise; the world
    reached when an exception is raised is kept. *)
Definition M (A : Type) : Type := world -> result A * world.

Definition ret {A} (a : A) : M A := fun w => (Ok a, w).

Definition raise {A} (e : exn) : M A := fun w => (Err e, w).

Definition bind {A B} (m : M A) (k : A -> M B) : M B :=
  fun w =>
    match m w with
    | (Ok a, w') => k a w'
    | (Err e, w') => (Err e, w')
    end.

Notation "x <~ m ;; k" := (bind m (fun x => k))
  (at level 100, m at next level, right associativity).
Notation "m ;;; k" := (bind m (fun _ => k))
  (at level 100, k at level 200, right associativity).

Definition of_result {A} (r : result A) : M A := fun w => (r, w).

Definition lift_fs {A} (op : Fs.filesystem -> result A * Fs.filesystem) : M A :=
  fun w =>
    let '(r, fs') := op (w_fs w) in
    (r, {| w_fs := fs'; w_rng := w_rng w; w_trace := w_trace w |}).

Definition emit (ev : event) : M unit :=
  fun w =>
    (Ok tt, {| w_fs := w_fs w; w_rng := w_rng w; w_trace := (w_trace w ++ [ev])%list |}).

(** [for x in xs: body], the variables assigned in the body being threaded
    through [acc]. *)
Fixpoint for_ {A S} (xs : list A) (body : A -> S -> M S) (acc : S) : M S :=
  match xs with
  | [] => ret acc
  | x :: xs' => acc' <~ body x acc ;; for_ xs' body acc'
  end.

(** [vak.logging.log_or_print]: writes to the log or to standard output. *)
Definition log_or_print : M unit := emit Logged.

Definition mkdir (p : path) : M unit := lift_fs (Fs.mkdir p).

Definition shutil_copy (src dst : path) : M path := lift_fs (Fs.copy src dst).

(** [np.save(p, vec)] *)
Definition np_save (p : path) (v : vec) : M unit := lift_fs (Fs.write_file p (Fs.Npy v)).

(** [subset_df.to_csv(p)] *)
Definition to_csv (t : df) (p : path) : M unit := lift_fs (Fs.write_file p (Fs.Csv t)).

(** [pd.read_csv(p)] *)
Definition pd_read_csv (p : path) : M df :=
  fun w =>
    match Fs.read_file p (w_fs w) with
    | Ok c => (of_outcome (read_csv c), w)
    | Err e => (Err e, w)
    end.

Definition call_split (train_df : df) (train_dur : Z) (labelset : labelset_t) : M df :=
  fun w =>
    let '(r, g) := split_dataframe (w_fs w) (w_rng w) train_df train_dur labelset in
    (of_outcome r, {| w_fs := w_fs w; w_rng := g;
           w_trace := (w_trace w ++ [SplitCalled train_df train_dur])%list |}).

Definition call_spect_vectors (subset_df : df) (window_size : Z)
    (spect_key timebins_key : string) (crop_dur : Z)
    (timebin_dur : timebin_dur_t) (labelmap : labelmap_t) : M (vec * vec * vec) :=
  fun w =>
    (of_outcome
       (spect_vectors_from_df (w_fs w) subset_df window_size spect_key timebins_key
          crop_dur timebin_dur labelmap),
     {| w_fs := w_fs w; w_rng := w_rng w;
        w_trace := (w_trace w ++ [SpectVectorsCalled subset_df crop_dur])%list |}).

(** [results_path.joinpath(f'train_dur_{train_dur}s')] *)
Definition train_dur_dir (results_path : path) (train_dur : Z) : path :=
  Fs.joinpath results_path ("train_dur_" +:+ pretty train_dur +:+ "s").

(** [results_path_this_train_dur.joinpath(f'replicate_{replicate_num}')] *)
Definition replicate_dir (results_path_this_train_dur : path) (replicate_num : Z) : path :=
  Fs.joinpath results_path_this_train_dur ("replicate_" +:+ pretty replicate_num).

Definition vec_names : list string :=
  ["spect_id_vector"; "spect_inds_vector"; "x_inds"].

(** The loop of lines 156-159 and 263-266: save the three vectors. *)
Definition save_vectors (results_path_this_replicate : path) (vecs : vec * vec * vec)
  : M unit :=
  let '(spect_id_vector, spect_inds_vector, x_inds) := vecs in
  for_ (zip vec_names [spect_id_vector; spect_inds_vector; x_inds])
    (fun '(vec_name, v) _ =>
       np_save (Fs.joinpath results_path_this_replicate (vec_name +:+ ".npy")) v)
    tt.

(** *** [from_dir] *)

(** Lines 95-103, the body of the first loop: the duration in a file name. *)
Definition parse_train_dur (train_subset_path : path) : result Z :=
  let train_dur := Py.findall TRAIN_DUR_PAT (Fs.name train_subset_path) in
  if negb (length train_dur =? 1)%nat
  then Err (ValueError_not_single_duration train_subset_path train_dur)
  else Py.int (List.hd "" train_dur).

(** Lines 93-103: group the table files by the duration in their name.
    The loop touches nothing but its dictionary. *)
Fixpoint group_by_train_dur (csv_paths : list path)
    (train_dur_csv_paths : DefaultDict.t) : result DefaultDict.t :=
  match csv_paths with
  | [] => Ok train_dur_csv_paths
  | train_subset_path :: rest =>
      match parse_train_dur train_subset_path with
      | Err e => Err e
      | Ok train_dur =>
          group_by_train_dur rest
            (DefaultDict.append train_dur train_subset_path train_dur_csv_paths)
      end
  end.

(** Lines 105-121: the durations found and the number of files of each. *)
Definition check_shape (train_dur_csv_paths : DefaultDict.t)
    (train_set_durs : list Z) (num_replicates : Z) : result unit :=
  let found_train_set_durs := Py.sorted_ints (DefaultDict.keys train_dur_csv_paths) in
  if negb (bool_decide (found_train_set_durs = Py.sorted_ints train_set_durs))
  then Err (ValueError_durations_mismatch (Py.sorted_ints train_set_durs)
              found_train_set_durs)
  else if negb (forallb (fun csv_paths => Py.len csv_paths =? num_replicates)
                  (DefaultDict.values train_dur_csv_paths))
  then Err ValueError_replicates_mismatch
  else Ok tt.

(** Lines 139-167: fill the directory of one replicate. *)
Definition import_into (results_path_this_replicate : path) (train_dur : Z)
    (timebin_dur : timebin_dur_t) (window_size : Z) (spect_key timebins_key : string)
    (labelmap : labelmap_t)
    (csv_path : path) (new_csv_paths : list path) : M (list path) :=
  copied <~ shutil_copy csv_path
              (Fs.joinpath results_path_this_replicate (Fs.name csv_path)) ;;
  let new_csv_paths := (new_csv_paths ++ [copied])%list in
  subset_df <~ pd_read_csv csv_path ;;
  vecs <~ call_spect_vectors subset_df window_size spect_key timebins_key
            train_dur timebin_dur labelmap ;;
  save_vectors results_path_this_replicate vecs ;;;
  for_ vec_names
    (fun vec_name _ =>
       let src_vec_path := Fs.joinpath (Fs.parent csv_path) (vec_name +:+ ".npy") in
       shutil_copy src_vec_path
         (Fs.joinpath results_path_this_replicate (Fs.name src_vec_path)) ;;;
       ret tt)
    tt ;;;
  ret new_csv_paths.

(** Lines 136-167: one replicate of one duration. *)
Definition import_replicate (results_path_this_train_dur : path) (train_dur : Z)
    (timebin_dur : timebin_dur_t) (window_size : Z) (spect_key timebins_key : string)
    (labelmap : labelmap_t)
    (item : Z * path) (new_csv_paths : list path) : M (list path) :=
  let '(replicate_num, csv_path) := item in
  let results_path_this_replicate :=
    replicate_dir results_path_this_train_dur replicate_num in
  mkdir results_path_this_replicate ;;;
  import_into results_path_this_replicate train_dur timebin_dur window_size
    spect_key timebins_key labelmap csv_path new_csv_paths.

(** Lines 131-169: copy every subset into the new results directory. *)
Definition copy_subsets (results_path : path)
    (timebin_dur : timebin_dur_t) (window_size : Z) (spect_key timebins_key : string)
    (labelmap : labelmap_t) (train_dur_csv_paths : DefaultDict.t) : M DefaultDict.t :=
  for_ (DefaultDict.keys train_dur_csv_paths)
    (fun train_dur train_dur_csv_paths =>
       let results_path_this_train_dur := train_dur_dir results_path train_dur in
       mkdir results_path_this_train_dur ;;;
       let '(csv_paths, train_dur_csv_paths) :=
         DefaultDict.getitem train_dur train_dur_csv_paths in
       new_csv_paths <~
         for_ (zip (Py.range 1 (Py.len csv_paths + 1)) csv_paths)
           (import_replicate results_path_this_train_dur train_dur timebin_dur
              window_size spect_key timebins_key labelmap)
           [] ;;
       ret (DefaultDict.setitem train_dur new_csv_paths train_dur_csv_paths))
    train_dur_csv_paths.

(** [from_dir] once [previous_run_path.glob(CSV_GLOB)] has produced
    [listing] (line 91 onwards). *)
Definition from_dir_listed (listing : list path)
    (train_set_durs : list Z) (timebin_dur : timebin_dur_t) (num_replicates : Z)
    (results_path : path) (window_size : Z) (spect_key timebins_key : string)
    (labelmap : labelmap_t) : M DefaultDict.t :=
  let csv_paths := Py.sorted_paths listing in
  train_dur_csv_paths <~ of_result (group_by_train_dur csv_paths DefaultDict.empty) ;;
  of_result (check_shape train_dur_csv_paths train_set_durs num_replicates) ;;;
  log_or_print ;;;
  copy_subsets results_path timebin_dur window_size spect_key timebins_key labelmap
    train_dur_csv_paths.

Definition from_dir (previous_run_path : path)
    (train_set_durs : list Z) (timebin_dur : timebin_dur_t) (num_replicates : Z)
    (results_path : path) (window_size : Z) (spect_key timebins_key : string)
    (labelmap : labelmap_t) : M DefaultDict.t :=
  fun w =>
    from_dir_listed (Fs.glob previous_run_path CSV_GLOB (w_fs w))
      train_set_durs timebin_dur num_replicates results_path window_size
      spect_key timebins_key labelmap w.

(** *** [from_df] *)

(** [f'{csv_path.stem}_train_dur_{train_dur}s_replicate_{replicate_num}.csv'] *)
Definition subset_csv_name (csv_path : path) (train_dur replicate_num : Z) : string :=
  Fs.stem csv_path +:+ "_train_dur_" +:+ pretty train_dur +:+ "s_replicate_"
    +:+ pretty replicate_num +:+ ".csv".

(** Lines 248-278: fill the directory of one replicate. *)
Definition build_into (dataset_df : df) (csv_path : path)
    (results_path_this_replicate : path) (train_dur : Z)
    (timebin_dur : timebin_dur_t) (labelset : labelset_t) (window_size : Z)
    (spect_key timebins_key : string) (labelmap : labelmap_t)
    (replicate_num : Z) (train_dur_csv_paths : DefaultDict.t) : M DefaultDict.t :=
  let train_df := select_split "train" dataset_df in
  subset_df <~ call_split train_df train_dur labelset ;;
  let subset_df := select_split "train" subset_df in
  vecs <~ call_spect_vectors subset_df window_size spect_key timebins_key
            train_dur timebin_dur labelmap ;;
  save_vectors results_path_this_replicate vecs ;;;
  let subset_df :=
    concat [subset_df; select_split "val" dataset_df; select_split "test" dataset_df] in
  let subset_csv_path :=
    Fs.joinpath results_path_this_replicate
      (subset_csv_name csv_path train_dur replicate_num) in
  to_csv subset_df subset_csv_path ;;;
  ret (DefaultDict.append train_dur subset_csv_path train_dur_csv_paths).

(** Lines 245-278: one replicate of one duration. *)
Definition build_replicate (dataset_df : df) (csv_path : path)
    (results_path_this_train_dur : path) (train_dur : Z)
    (timebin_dur : timebin_dur_t) (labelset : labelset_t) (window_size : Z)
    (spect_key timebins_key : string) (labelmap : labelmap_t)
    (replicate_num : Z) (train_dur_csv_paths : DefaultDict.t) : M DefaultDict.t :=
  let results_path_this_replicate :=
    replicate_dir results_path_this_train_dur replicate_num in
  mkdir results_path_this_replicate ;;;
  build_into dataset_df csv_path results_path_this_replicate train_dur timebin_dur
    labelset window_size spect_key timebins_key labelmap replicate_num
    train_dur_csv_paths.

Definition from_df (dataset_df : df) (csv_path : path)
    (train_set_durs : list Z) (timebin_dur : timebin_dur_t) (num_replicates : Z)
    (results_path : path) (labelset : labelset_t) (window_size : Z)
    (spect_key timebins_key : string) (labelmap : labelmap_t) : M DefaultDict.t :=
  for_ train_set_durs
    (fun train_dur train_dur_csv_paths =>
       log_or_print ;;;
       let results_path_this_train_dur := train_dur_dir results_path train_dur in
       mkdir results_path_this_train_dur ;;;
       for_ (Py.range 1 (num_replicates + 1))
         (build_replicate dataset_df csv_path results_path_this_train_dur train_dur
            timebin_dur labelset window_size spect_key timebins_key labelmap)
         train_dur_csv_paths)
    DefaultDict.empty.

End Learncurve.

(** ** A small concrete world, used to run the model *)

Module Example.

(** Collaborators simple enough to evaluate: the splitter keeps the first
    [train_dur] rows tagged [train] and retags the others [None]; the
    window-index builder returns the indices of the rows it was given. *)
Definition retag (s : string) (r : row) : row :=
  {| row_index := row_index r; row_split := s; row_columns := row_columns r |}.

Definition toy : Collaborators := {|
  rng_state := nat;
  labelset_t := unit;
  labelmap_t := unit;
  timebin_dur_t := unit;
  read_csv := fun c =>
    match c with
    | Fs.Csv t => Returned t
    | _ => Raised "ParserError"
    end;
  split_dataframe := fun _ g t d _ =>
    (Returned
       (firstn (Z.to_nat d) t ++ List.map (retag "None") (skipn (Z.to_nat d) t))%list,
     S g);
  spect_vectors_from_df := fun _ t window_size _ _ crop_dur _ _ =>
    Returned (List.map row_index t, [window_size], [crop_dur])
|}.

Definition mkrow (i : Z) (s : string) : row :=
  {| row_index := i; row_split := s; row_columns := [] |}.

Definition table : df :=
  [mkrow 0 "train"; mkrow 1 "val"; mkrow 2 "train"; mkrow 3 "test"; mkrow 4 "train"].

Definition legacy_files : gmap path Fs.content :=
  <[ ["prev"; "a"; "spect_id_vector.npy"] := Fs.Npy [7] ]>
  (<[ ["prev"; "a"; "spect_inds_vector.npy"] := Fs.Npy [8] ]>
  (<[ ["prev"; "a"; "x_inds.npy"] := Fs.Npy [9] ]> ∅)).

Definition tree : gset path := {[ []; ["prev"]; ["prev"; "a"]; ["res"] ]}.

Definition world_of (fs : Fs.filesystem) : @world toy :=
  @Build_world toy fs 0%nat [].

(** A previous run whose tables match [CSV_GLOB] and carry integer
    durations. *)
Definition prev_run : Fs.filesystem := {|
  Fs.dirs := tree;
  Fs.files :=
    <[ ["prev"; "a"; "foo_prep_train_dur_5s_r1.csv"] := Fs.Csv table ]>
    (<[ ["prev"; "a"; "foo_prep_train_dur_5s_r2.csv"] := Fs.Csv table ]>
    (<[ ["prev"; "a"; "foo_prep_train_dur_10s_r1.csv"] := Fs.Csv table ]>
    (<[ ["prev"; "a"; "foo_prep_train_dur_10s_r2.csv"] := Fs.Csv table ]>
       legacy_files)))
|}.

(** The directory of the specification's example: the names lack [prep]. *)
Definition prev_run_spec : Fs.filesystem := {|
  Fs.dirs := tree;
  Fs.files :=
    <[ ["prev"; "a"; "foo_train_dur_5.0s_r1.csv"] := Fs.Csv table ]>
    (<[ ["prev"; "a"; "foo_train_dur_5.0s_r2.csv"] := Fs.Csv table ]>
    (<[ ["prev"; "a"; "foo_train_dur_10s_r1.csv"] := Fs.Csv table ]>
    (<[ ["prev"; "a"; "foo_train_dur_10s_r2.csv"] := Fs.Csv table ]>
       legacy_files)))
|}.

(** The same with names that match [CSV_GLOB]; two durations are decimal. *)
Definition prev_run_decimal : Fs.filesystem := {|
  Fs.dirs := tree;
  Fs.files :=
    <[ ["prev"; "a"; "foo_prep_train_dur_5.0s_r1.csv"] := Fs.Csv table ]>
    (<[ ["prev"; "a"; "foo_prep_train_dur_5.0s_r2.csv"] := Fs.Csv table ]>
    (<[ ["prev"; "a"; "foo_prep_train_dur_10s_r1.csv"] := Fs.Csv table ]>
    (<[ ["prev"; "a"; "foo_prep_train_dur_10s_r2.csv"] := Fs.Csv table ]>
       legacy_files)))
|}.

(** An empty results directory next to nothing else. *)
Definition fresh : Fs.filesystem :=
  {| Fs.dirs := {[ []; ["res"] ]}; Fs.files := ∅ |}.

(** A results directory that already holds [train_dur_5s]. *)
Definition used : Fs.filesystem :=
  {| Fs.dirs := {[ []; ["res"]; ["res"; "train_dur_5s"] ]}; Fs.files := ∅ |}.

(** A previous run holding only the file of the specification's
    naming-ambiguity example: the name lacks [prep]. *)
Definition prev_run_weird : Fs.filesystem := {|
  Fs.dirs := tree;
  Fs.files := <[ ["prev"; "a"; "weird_train_dur_5s_train_dur_10s.csv"] := Fs.Csv table ]> ∅
|}.

(** The same file under a name that matches [CSV_GLOB]. *)
Definition prev_run_weird_prep : Fs.filesystem := {|
  Fs.dirs := tree;
  Fs.files :=
    <[ ["prev"; "a"; "weird_prep_train_dur_5s_train_dur_10s.csv"] := Fs.Csv table ]> ∅
|}.

(** A decimal duration sorted before a name without any duration. *)
Definition prev_run_mixed : Fs.filesystem := {|
  Fs.dirs := tree;
  Fs.files :=
    <[ ["prev"; "a"; "a_prep_train_dur_5.0s.csv"] := Fs.Csv table ]>
    (<[ ["prev"; "a"; "b_prep.csv"] := Fs.Csv table ]> ∅)
|}.

(** Collaborators that never raise: [rd], [sp] and [sv1], [sv2], [sv3]
    stand for what [pd.read_csv], the splitter and the window-index builder
    return. *)
Definition obliging (rd : Fs.content -> df) (sp : df -> Z -> df)
    (sv1 sv2 sv3 : df -> Z -> Z -> vec) : Collaborators := {|
  rng_state := unit;
  labelset_t := unit;
  labelmap_t := unit;
  timebin_dur_t := unit;
  read_csv := fun c => Returned (rd c);
  split_dataframe := fun _ g t d _ => (Returned (sp t d), g);
  spect_vectors_from_df := fun _ t window_size _ _ crop_dur _ _ =>
    Returned (sv1 t window_size crop_dur, sv2 t window_size crop_dur,
              sv3 t window_size crop_dur)
|}.

(** Recovering the previous run, and building subsets afresh. *)
Definition imported_run : result DefaultDict.t * @world toy :=
  @from_dir toy ["prev"] [5; 10] tt 2 ["res"] 88 "s" "t" tt (world_of prev_run).

Definition built_run : result DefaultDict.t * @world toy :=
  @from_df toy table ["data"; "foo_prep.csv"] [5; 10] tt 2 ["res"] tt 88 "s" "t" tt
    (world_of fresh).

Definition completed (x : result DefaultDict.t * @world toy) : bool :=
  match x.1 with Ok _ => true | Err _ => false end.

Definition mapping_of (x : result DefaultDict.t * @world toy) : DefaultDict.t :=
  match x.1 with Ok m => m | Err _ => [] end.

End Example.

(** ** Vocabulary of the specifications *)

(** [m.get(k, [])] *)
Definition dd_get (k : Z) (m : DefaultDict.t) : list path :=
  default [] (DefaultDict.lookup k m).

(** The durations [re.findall] reads in the name of a file. *)
Definition matches_of (p : path) : list string :=
  Py.findall TRAIN_DUR_PAT (Fs.name p).

(** The exceptions of the file system and of the collaborators. *)
Definition io_error (e : exn) : Prop :=
  match e with
  | FileExistsError _ | FileNotFoundError _ | IsADirectoryError _
  | SameFileError _ | CollaboratorError _ => True
  | _ => False
  end.

(** The replicate number each table file receives at line 136: its 1-based
    position among the files of its duration. *)
Definition replicate_numbers (m : DefaultDict.t) : list (Z * Z * path) :=
  flat_map
    (fun '(train_dur, csv_paths) =>
       List.map (fun '(replicate_num, csv_path) => (train_dur, replicate_num, csv_path))
         (zip (Py.range 1 (Py.len csv_paths + 1)) csv_paths))
    m.

Definition replicate_numbering (listing : list path) : result (list (Z * Z * path)) :=
  match group_by_train_dur (Py.sorted_paths listing) DefaultDict.empty with
  | Ok m => Ok (replicate_numbers m)
  | Err e => Err e
  end.

(** Whether a file system is a tree can be computed. *)
#[global] Instance wf_dec (fs : Fs.filesystem) : Decision (Fs.wf fs).
Proof. unfold Fs.wf. apply _. Defined.

(** The last character of a string. *)
Fixpoint last_ascii (s : string) : option ascii :=
  match s with
  | EmptyString => None
  | String c s' =>
      match last_ascii s' with
      | Some c' => Some c'
      | None => Some c
      end
  end.

(** Every character of [s] satisfies [f]. *)
Fixpoint all_chars (f : ascii -> bool) (s : string) : bool :=
  match s with
  | EmptyString => true
  | String c s' => (f c && all_chars f s')%bool
  end.

(** What the greedy [\d+] does with the continuation [k]: consume a digit,
    prefer consuming more, fall back on [k]. *)
Fixpoint plus_try {X} (k : string -> list string -> option X) (caps : list string)
    (s : string) : option X :=
  match s with
  | EmptyString => None
  | String c s' =>
      if Py.is_digit c then Py.orelse (plus_try k caps s') (k s' caps) else None
  end.

(** The calls one duration of [from_df] makes for the subsets [outs] its
    replicates drew: the splitter on the [train] rows of the dataset, then
    the window-index builder on the [train] rows of what the splitter
    returned. *)
Definition replicate_calls (dataset_df : df) (d : Z) (outs : list df) : list event :=
  flat_map
    (fun out => [SplitCalled (select_split "train" dataset_df) d;
                 SpectVectorsCalled (select_split "train" out) d])
    outs.

(** The trace of a run of [from_df]: a log line per duration, followed by
    the calls of its replicates. *)
Definition from_df_calls (dataset_df : df) (plan : list (Z * list df)) : list event :=
  flat_map (fun '(d, outs) => Logged :: replicate_calls dataset_df d outs) plan.

Section Vocabulary.

Context `{C : Collaborators}.

Abbreviation wdirs w := (Fs.dirs (w_fs w)).
Abbreviation wfiles w := (Fs.files (w_fs w)).

(** [sound Rel E m]: every run of [m], completed or not, relates the worlds
    before and after by [Rel], and raises only exceptions in [E]. *)
Definition sound {A} (Rel : relation world) (E : exn -> Prop) (m : M A) : Prop :=
  forall w r w', m w = (r, w') ->
    Rel w w' /\ match r with Err e => E e | Ok _ => True end.

Definition same_world : relation world := eq.

Definition any_world : relation world := fun _ _ => True.

(** The directory [p] was created, or nothing happened. *)
Definition created (p : path) (w w' : world) : Prop :=
  w' = w \/
  (Fs.exists_ (w_fs w) p = false /\ Fs.parent p ∈ wdirs w /\
   wdirs w' = {[p]} ∪ wdirs w /\ wfiles w' = wfiles w /\ w_trace w' = w_trace w).

(** At most the file [p] was written. *)
Definition written (p : path) (w w' : world) : Prop :=
  wdirs w' = wdirs w /\ w_trace w' = w_trace w /\
  forall q, q <> p -> wfiles w' !! q = wfiles w !! q.

(** The event [ev] was recorded and the files were left alone. *)
Definition traced (ev : event) (w w' : world) : Prop :=
  w_fs w' = w_fs w /\ w_trace w' = (w_trace w ++ [ev])%list.

(** Nothing but files directly inside [R] changed. *)
Definition confined (R : path) (w w' : world) : Prop :=
  wdirs w' = wdirs w /\
  forall p, Fs.parent p <> R -> wfiles w' !! p = wfiles w !! p.

(** [R] holds no directory. *)
Definition no_subdir (R : path) (w : world) : Prop :=
  forall x, Fs.joinpath R x ∉ wdirs w.

Definition confined_if_flat (R : path) (w w' : world) : Prop :=
  no_subdir R w -> confined R w w'.

(** The directories that existed still exist, and the files directly
    inside them are as they were: nothing was merged into or overwritten
    in a directory that was there before. *)
Definition grows (w w' : world) : Prop :=
  wdirs w ⊆ wdirs w' /\
  forall p, Fs.parent p ∈ wdirs w -> wfiles w' !! p = wfiles w !! p.

Definition grows_wf (w w' : world) : Prop :=
  Fs.wf (w_fs w) -> grows w w' /\ Fs.wf (w_fs w').

Definition only_train (t : df) : Prop :=
  Forall (fun r => row_split r = "train") t.

Definition trace_extended (good : event -> Prop) (w w' : world) : Prop :=
  exists new, w_trace w' = (w_trace w ++ new)%list /\ Forall good new.

(** Where [from_df] writes the table of replicate [r] of duration [d]. *)
Definition subset_csv_path (results_path csv_path : path) (d r : Z) : path :=
  Fs.joinpath (replicate_dir (train_dur_dir results_path d) r)
    (subset_csv_name csv_path d r).

(** The table [t] is a training subset followed by the [val] rows and the
    [test] rows of [dataset_df]. *)
Definition recombined (dataset_df t : df) : Prop :=
  exists subset,
    only_train subset /\
    t = concat [subset; select_split "val" dataset_df; select_split "test" dataset_df].

(** Replicate [r] of duration [d] was built during the run from [w0] to
    [v]: its directory is new and its table file holds a recombined
    table. *)
Definition built (dataset_df : df) (results_path csv_path : path)
    (w0 v : world) (d r : Z) : Prop :=
  (replicate_dir (train_dur_dir results_path d) r ∈ wdirs v) /\
  (replicate_dir (train_dur_dir results_path d) r ∉ wdirs w0) /\
  exists t, recombined dataset_df t /\
    wfiles v !! subset_csv_path results_path csv_path d r = Some (Fs.Csv t).

(** Where [from_dir] finds and puts the array file [vec_name] of a table. *)
Definition legacy_vec_path (csv_path : path) (vec_name : string) : path :=
  Fs.joinpath (Fs.parent csv_path) (vec_name +:+ ".npy").

Definition replicate_vec_path (results_path : path) (d r : Z) (vec_name : string) : path :=
  Fs.joinpath (replicate_dir (train_dur_dir results_path d) r) (vec_name +:+ ".npy").

(** Replicate [r] of duration [d] was imported from the table [csv] during
    the run from [w0] to [v]: its directory is new and each of its three
    array files holds what the array file beside [csv] held in [w0]. *)
Definition imported (results_path : path) (w0 v : world) (d r : Z) (csv : path) : Prop :=
  (replicate_dir (train_dur_dir results_path d) r ∈ wdirs v) /\
  (replicate_dir (train_dur_dir results_path d) r ∉ wdirs w0) /\
  forall vec_name, vec_name ∈ vec_names ->
    exists c,
      wfiles w0 !! legacy_vec_path csv vec_name = Some c /\
      wfiles v !! replicate_vec_path results_path d r vec_name = Some c.

(** The paths [from_dir] returns for the tables [csv_paths] of duration [d]. *)
Definition copied_paths (results_path : path) (d : Z) (csv_paths : list path) : list path :=
  List.map
    (fun '(r, csv) => Fs.joinpath (replicate_dir (train_dur_dir results_path d) r) (Fs.name csv))
    (zip (Py.range 1 (Py.len csv_paths + 1)) csv_paths).

(** The name of [p] encodes the duration [d] (lines 95-102). *)
Definition encodes (d : Z) (p : path) : bool :=
  match parse_train_dur p with
  | Ok z => Z.eqb z d
  | Err _ => false
  end.

(** Nothing changed outside the subtree strictly below [R]: the
    directories and the files elsewhere are as they were. *)
Definition below (R : path) (w w' : world) : Prop :=
  forall p, Fs.is_proper_prefix R p = false ->
    (p ∈ wdirs w' <-> p ∈ wdirs w) /\ wfiles w' !! p = wfiles w !! p.

(** The events of a run of [from_dir] asked for the durations [durs]: log
    lines, and calls of the window-index builder on a table just as
    [pd.read_csv] returned it, with one of the durations.  The splitter is
    not among them. *)
Definition imported_event (durs : list Z) (ev : event) : Prop :=
  match ev with
  | Logged => True
  | SplitCalled _ _ => False
  | SpectVectorsCalled t d => d ∈ durs /\ exists c, read_csv c = Returned t
  end.

(** The random state was left alone and only such events were recorded. *)
Definition no_draw (durs : list Z) (w w' : world) : Prop :=
  w_rng w' = w_rng w /\ trace_extended (imported_event durs) w w'.

(** The directories and files of a run of [from_df]: the directory of a
    requested duration, and for each of its replicates the replicate's
    directory, its table and its three arrays. *)
Definition from_df_entry (results_path csv_path : path) (durs : list Z) (n : Z)
    (p : path) : Prop :=
  exists d, d ∈ durs /\
    (p = train_dur_dir results_path d \/
     exists r, r ∈ Py.range 1 (n + 1) /\
       (p = replicate_dir (train_dur_dir results_path d) r \/
        p = subset_csv_path results_path csv_path d r \/
        exists vn, vn ∈ vec_names /\ p = replicate_vec_path results_path d r vn)).

(** Every directory and every file is one that was there before or
    satisfies [E]. *)
Definition footprint (E : path -> Prop) (w w' : world) : Prop :=
  forall p,
    (p ∈ wdirs w' -> p ∈ wdirs w \/ E p) /\
    (is_Some (wfiles w' !! p) -> is_Some (wfiles w !! p) \/ E p).

(** The window-index builder was handed [train] rows only. *)
Definition indexes_train_rows (ev : event) : Prop :=
  match ev with
  | SpectVectorsCalled t _ => only_train t
  | _ => True
  end.

(** The events [evs] are what [from_df] on [dataset_df] records while the
    random state goes from [g] to [g_end]: every call of the splitter is on
    the [train] rows of [dataset_df], from the random state the previous
    call left; when it returns the subset [out], the very next event is the
    call of the window-index builder on the [train] rows of [out], with the
    same duration; the builder is called at no other moment. *)
Fixpoint from_df_trace (dataset_df : df) (labelset : labelset_t)
    (g : rng_state) (evs : list event) (g_end : rng_state) {struct evs} : Prop :=
  match evs with
  | [] => g_end = g
  | Logged :: rest => from_df_trace dataset_df labelset g rest g_end
  | SplitCalled t d :: rest =>
      t = select_split "train" dataset_df /\
      exists fs o g',
        split_dataframe fs g t d labelset = (o, g') /\
        match o with
        | Raised _ => from_df_trace dataset_df labelset g' rest g_end
        | Returned out =>
            match rest with
            | SpectVectorsCalled t' d' :: rest' =>
                t' = select_split "train" out /\ d' = d /\
                from_df_trace dataset_df labelset g' rest' g_end
            | _ => False
            end
        end
  | SpectVectorsCalled _ _ :: _ => False
  end.

(** The trace grew by events that [from_df_trace] accounts for. *)
Definition accounted (dataset_df : df) (labelset : labelset_t) (w w' : world) : Prop :=
  exists evs,
    w_trace w' = (w_trace w ++ evs)%list /\
    from_df_trace dataset_df labelset (w_rng w) evs (w_rng w').

(** Neither the random state nor the trace changed. *)
Definition quiet (w w' : world) : Prop :=
  w_rng w' = w_rng w /\ w_trace w' = w_trace w.

(** The content [c] is a table made at lines 250-273 for the duration [d]:
    the [train] rows of a subset the splitter returned for the [train] rows
    of [dataset_df], then the [val] rows, then the [test] rows of
    [dataset_df]. *)
Definition drawn_table (dataset_df : df) (labelset : labelset_t) (d : Z)
    (c : Fs.content) : Prop :=
  exists fs g out g',
    split_dataframe fs g (select_split "train" dataset_df) d labelset
    = (Returned out, g') /\
    c = Fs.Csv (concat [select_split "train" out;
                        select_split "val" dataset_df;
                        select_split "test" dataset_df]).

(** Every file is as it was, or is an array file, or is the table of a
    replicate and holds a table drawn for its duration. *)
Definition tables_drawn (dataset_df : df) (labelset : labelset_t)
    (results_path csv_path : path) (w w' : world) : Prop :=
  forall p c,
    wfiles w' !! p = Some c ->
    wfiles w !! p = Some c \/
    (exists D vn, vn ∈ vec_names /\ p = Fs.joinpath D (vn +:+ ".npy")) \/
    (exists d r, p = subset_csv_path results_path csv_path d r /\
                 drawn_table dataset_df labelset d c).

End Vocabulary.

(** * Properties *)

(** ** Orders and sorting *)

Section Lex.

Context {A : Type} (eqb leb : A -> A -> bool).
Hypothesis eqb_spec : forall a b, eqb a b = true <-> a = b.
Hypothesis leb_total : forall a b, leb a b = true \/ leb b a = true.
Hypothesis leb_trans : forall a b c, leb a b = true -> leb b c = true -> leb a c = true.
Hypothesis leb_antisym : forall a b, leb a b = true -> leb b a = true -> a = b.

Lemma eqb_refl_true a : eqb a a = true.
Proof. by apply eqb_spec. Qed.

Lemma eqb_false_ne a b : eqb a b = false -> a <> b.
Proof. intros E ->. rewrite eqb_refl_true in E. discriminate. Qed.

Lemma eqb_sym_false a b : eqb a b = false -> eqb b a = false.
Proof.
  intros E. destruct (eqb b a) eqn:E'; [|done].
  apply eqb_spec in E'. subst. rewrite eqb_refl_true in E. discriminate.
Qed.

Lemma lex_leb_total x y :
  Py.lex_leb eqb leb x y = true \/ Py.lex_leb eqb leb y x = true.
Proof.
  revert y. induction x as [|a x IH]; intros [|b y]; simpl; auto.
  destruct (eqb a b) eqn:E.
  - apply eqb_spec in E. subst. rewrite eqb_refl_true. apply IH.
  - rewrite (eqb_sym_false _ _ E). apply leb_total.
Qed.

Lemma lex_leb_antisym x y :
  Py.lex_leb eqb leb x y = true -> Py.lex_leb eqb leb y x = true -> x = y.
Proof.
  revert y. induction x as [|a x IH]; intros [|b y]; simpl; try done.
  destruct (eqb a b) eqn:E.
  - apply eqb_spec in E. subst. rewrite eqb_refl_true.
    intros H1 H2. f_equal. by apply IH.
  - rewrite (eqb_sym_false _ _ E). intros H1 H2.
    apply eqb_false_ne in E. destruct E. by apply leb_antisym.
Qed.

Lemma lex_leb_trans x y z :
  Py.lex_leb eqb leb x y = true -> Py.lex_leb eqb leb y z = true ->
  Py.lex_leb eqb leb x z = true.
Proof.
  revert y z. induction x as [|a x IH]; intros [|b y] [|c z]; simpl; try done.
  destruct (eqb a b) eqn:Eab.
  - apply eqb_spec in Eab. subst b.
    destruct (eqb a c) eqn:Eac; [apply IH | done].
  - destruct (eqb b c) eqn:Ebc.
    + apply eqb_spec in Ebc. subst c. rewrite Eab. done.
    + intros H1 H2. destruct (eqb a c) eqn:Eac.
      * apply eqb_spec in Eac. subst c.
        apply eqb_false_ne in Eab. destruct Eab. by apply leb_antisym.
      * by apply (leb_trans a b c).
Qed.

End Lex.

Lemma codes_inj s t : Py.codes s = Py.codes t -> s = t.
Proof.
  unfold Py.codes. intros H.
  rewrite <- (String.string_of_list_ascii_of_string s),
          <- (String.string_of_list_ascii_of_string t).
  f_equal.
  revert H. generalize (String.list_ascii_of_string s) (String.list_ascii_of_string t).
  intros l1. induction l1 as [|a l1 IH]; intros [|b l2]; simpl; try done.
  intros H. injection H as Hab Hl. f_equal; [|by apply IH].
  rewrite <- (ascii_N_embedding a), <- (ascii_N_embedding b). by rewrite Hab.
Qed.

Lemma str_leb_total s t : Py.str_leb s t = true \/ Py.str_leb t s = true.
Proof.
  apply lex_leb_total; [apply N.eqb_eq|].
  intros a b. rewrite !N.leb_le. lia.
Qed.

Lemma str_leb_trans s t u :
  Py.str_leb s t = true -> Py.str_leb t u = true -> Py.str_leb s u = true.
Proof.
  apply lex_leb_trans; [apply N.eqb_eq| |].
  - intros a b c. rewrite !N.leb_le. lia.
  - intros a b. rewrite !N.leb_le. lia.
Qed.

Lemma str_leb_antisym s t :
  Py.str_leb s t = true -> Py.str_leb t s = true -> s = t.
Proof.
  intros H1 H2. apply codes_inj. revert H1 H2.
  apply lex_leb_antisym; [apply N.eqb_eq|].
  intros a b. rewrite !N.leb_le. lia.
Qed.

#[local] Instance path_le_total : Total Py.path_le.
Proof.
  intros p q. unfold Py.path_le, Py.path_leb. rewrite !Is_true_true.
  apply lex_leb_total; [apply String.eqb_eq | apply str_leb_total].
Qed.

#[local] Instance path_le_trans : Transitive Py.path_le.
Proof.
  intros p q r. unfold Py.path_le, Py.path_leb. rewrite !Is_true_true.
  apply lex_leb_trans;
    [apply String.eqb_eq | apply str_leb_trans | apply str_leb_antisym].
Qed.

#[local] Instance path_le_antisym : AntiSymm eq Py.path_le.
Proof.
  intros p q. unfold Py.path_le, Py.path_leb. rewrite !Is_true_true.
  apply lex_leb_antisym; [apply String.eqb_eq | apply str_leb_antisym].
Qed.

(** Sorting forgets the order of its input. *)
Lemma sorted_paths_perm l1 l2 :
  l1 ≡ₚ l2 -> Py.sorted_paths l1 = Py.sorted_paths l2.
Proof.
  intros HP. unfold Py.sorted_paths.
  apply (Sorted_unique Py.path_le).
  - apply Sorted_merge_sort, _.
  - apply Sorted_merge_sort, _.
  - by rewrite !merge_sort_Permutation.
Qed.

Lemma sorted_ints_perm l1 l2 :
  l1 ≡ₚ l2 -> Py.sorted_ints l1 = Py.sorted_ints l2.
Proof.
  intros HP. unfold Py.sorted_ints.
  apply (Sorted_unique Z.le).
  - apply Sorted_merge_sort, _.
  - apply Sorted_merge_sort, _.
  - by rewrite !merge_sort_Permutation.
Qed.

(** ** The dictionary *)

Lemma dd_lookup_None k m : DefaultDict.lookup k m = None <-> k ∉ DefaultDict.keys m.
Proof.
  unfold DefaultDict.keys. induction m as [|[k' v] m IH]; simpl.
  - split; [intros _; apply not_elem_of_nil | done].
  - rewrite not_elem_of_cons. destruct (Z.eqb_spec k k') as [->|Hne].
    + split; [done | intros [? _]; done].
    + rewrite IH. tauto.
Qed.

Lemma dd_lookup_Some_keys k m v :
  DefaultDict.lookup k m = Some v -> k ∈ DefaultDict.keys m.
Proof.
  intros H. destruct (decide (k ∈ DefaultDict.keys m)) as [|Hn]; [done|].
  apply dd_lookup_None in Hn. congruence.
Qed.

Lemma dd_lookup_Some_values k m v :
  DefaultDict.lookup k m = Some v -> v ∈ DefaultDict.values m.
Proof.
  unfold DefaultDict.values. induction m as [|[k' v'] m IH]; simpl; [done|].
  destruct (Z.eqb_spec k k') as [->|Hne].
  - intros [= ->]. apply list_elem_of_here.
  - intros H. apply list_elem_of_further. by apply IH.
Qed.

Lemma dd_lookup_setitem k v m k' :
  DefaultDict.lookup k' (DefaultDict.setitem k v m)
  = if decide (k' = k) then Some v else DefaultDict.lookup k' m.
Proof.
  induction m as [|[k0 v0] m IH]; simpl.
  - destruct (Z.eqb_spec k' k); case_decide; done.
  - destruct (Z.eqb_spec k k0) as [->|Hne]; simpl.
    + destruct (Z.eqb_spec k' k0); case_decide; done.
    + destruct (Z.eqb_spec k' k0) as [->|Hne'].
      * case_decide; [congruence | done].
      * apply IH.
Qed.

Lemma dd_setitem_missing k v m :
  DefaultDict.lookup k m = None -> DefaultDict.setitem k v m = (m ++ [(k, v)])%list.
Proof.
  induction m as [|[k0 v0] m IH]; simpl; [done|].
  destruct (Z.eqb_spec k k0); [done|]. intros H. by rewrite IH.
Qed.

Lemma dd_keys_setitem_present k v m :
  k ∈ DefaultDict.keys m -> DefaultDict.keys (DefaultDict.setitem k v m) = DefaultDict.keys m.
Proof.
  unfold DefaultDict.keys. induction m as [|[k0 v0] m IH]; simpl.
  - intros H. by apply elem_of_nil in H.
  - destruct (Z.eqb_spec k k0) as [->|Hne]; simpl; [done|].
    intros H. apply elem_of_cons in H as [?|H]; [done|]. f_equal. by apply IH.
Qed.

Lemma dd_keys_setitem k v m :
  list_to_set (C := gset Z) (DefaultDict.keys (DefaultDict.setitem k v m))
  = {[k]} ∪ list_to_set (DefaultDict.keys m).
Proof.
  destruct (DefaultDict.lookup k m) eqn:E.
  - apply dd_lookup_Some_keys in E. rewrite dd_keys_setitem_present by done.
    apply (elem_of_list_to_set (C := gset Z)) in E. set_solver.
  - rewrite dd_setitem_missing by done. unfold DefaultDict.keys.
    rewrite fmap_app, list_to_set_app_L. simpl. set_solver.
Qed.

Lemma dd_values_setitem k v m x :
  x ∈ DefaultDict.values (DefaultDict.setitem k v m) ->
  x = v \/ x ∈ DefaultDict.values m.
Proof.
  unfold DefaultDict.values. induction m as [|[k0 v0] m IH]; simpl.
  - intros H. apply list_elem_of_singleton in H. by left.
  - destruct (Z.eqb_spec k k0) as [->|Hne]; simpl; rewrite !elem_of_cons.
    + intros [?|?]; auto.
    + intros [?|H]; auto. apply IH in H as [?|?]; auto.
Qed.

Lemma dd_lookup_append k p m k' :
  DefaultDict.lookup k' (DefaultDict.append k p m)
  = if decide (k' = k) then Some (dd_get k m ++ [p])%list else DefaultDict.lookup k' m.
Proof.
  unfold DefaultDict.append, DefaultDict.getitem, dd_get.
  destruct (DefaultDict.lookup k m) eqn:E; simpl.
  - apply dd_lookup_setitem.
  - rewrite !dd_lookup_setitem. case_decide; done.
Qed.

Lemma dd_keys_append k p m :
  list_to_set (C := gset Z) (DefaultDict.keys (DefaultDict.append k p m))
  = {[k]} ∪ list_to_set (DefaultDict.keys m).
Proof.
  unfold DefaultDict.append, DefaultDict.getitem.
  destruct (DefaultDict.lookup k m) eqn:E; rewrite !dd_keys_setitem; set_solver.
Qed.

(** ** The computations *)

Section Reasoning.

Context `{C : Collaborators}.

Abbreviation wdirs w := (Fs.dirs (w_fs w)).
Abbreviation wfiles w := (Fs.files (w_fs w)).

Lemma bind_inv {A B} (m : M A) (k : A -> M B) w r w' :
  bind m k w = (r, w') ->
  (exists a w1, m w = (Ok a, w1) /\ k a w1 = (r, w')) \/
  (exists e, m w = (Err e, w') /\ r = Err e).
Proof.
  unfold bind. destruct (m w) as [[a|e] w1]; intros H.
  - left. eauto.
  - right. injection H as <- <-. eauto.
Qed.

Lemma bind_ok {A B} (m : M A) (k : A -> M B) w b w' :
  bind m k w = (Ok b, w') ->
  exists a w1, m w = (Ok a, w1) /\ k a w1 = (Ok b, w').
Proof.
  intros H. apply bind_inv in H as [H|(e & _ & ?)]; [done | discriminate].
Qed.

(** Loop rule for runs that complete: [I] holds of the elements already
    visited, the loop variables and the world. *)
Lemma for_ok_inv {A S} (I : list A -> S -> world -> Prop)
    (xs : list A) (body : A -> S -> M S) acc w acc' w' :
  I [] acc w ->
  (forall pre x post a v a' v',
      xs = (pre ++ x :: post)%list -> I pre a v -> body x a v = (Ok a', v') ->
      I (pre ++ [x])%list a' v') ->
  for_ xs body acc w = (Ok acc', w') ->
  I xs acc' w'.
Proof.
  intros H0 Hstep.
  assert (G : forall post pre a v,
             xs = (pre ++ post)%list -> I pre a v ->
             for_ post body a v = (Ok acc', w') -> I xs acc' w').
  { induction post as [|x post IH]; intros pre a v Hxs HI Hrun; simpl in Hrun.
    - injection Hrun as <- <-. rewrite Hxs, app_nil_r. done.
    - apply bind_ok in Hrun as (a1 & v1 & Hb & Hrest).
      apply (IH (pre ++ [x])%list a1 v1); [by rewrite <- app_assoc | | done].
      by eapply Hstep. }
  apply (G xs [] acc w); done.
Qed.

(** Loop rule for every run, completed or not: a property of the world
    kept by each iteration. *)
Lemma for_any_inv {A S} (P : world -> Prop)
    (xs : list A) (body : A -> S -> M S) acc w r w' :
  P w ->
  (forall x a v r' v', x ∈ xs -> P v -> body x a v = (r', v') -> P v') ->
  for_ xs body acc w = (r, w') ->
  P w'.
Proof.
  revert acc w. induction xs as [|x xs IH]; intros acc w HP Hstep Hrun; simpl in Hrun.
  - injection Hrun as <- <-. done.
  - apply bind_inv in Hrun as [(a1 & v1 & Hb & Hrest)|(e & Hb & _)].
    + eapply (IH a1 v1); [| |done].
      * eapply Hstep; [apply list_elem_of_here | done | done].
      * intros. eapply Hstep; [by apply list_elem_of_further | done | done].
    + eapply Hstep; [apply list_elem_of_here | done | done].
Qed.

Lemma of_result_inv {A} (x : result A) w r w' :
  of_result x w = (r, w') -> r = x /\ w' = w.
Proof. unfold of_result. by intros [= <- <-]. Qed.

(** *** The first loop of [from_dir] *)

Lemma parse_train_dur_not_single p q found :
  parse_train_dur p = Err (ValueError_not_single_duration q found) ->
  q = p /\ found = matches_of p /\ length found <> 1%nat.
Proof.
  unfold parse_train_dur, matches_of.
  destruct (length _ =? 1)%nat eqn:E; simpl.
  - unfold Py.int. repeat case_match; discriminate.
  - intros [= <- <-]. apply Nat.eqb_neq in E. done.
Qed.

Lemma parse_train_dur_bad p :
  length (matches_of p) <> 1%nat ->
  parse_train_dur p = Err (ValueError_not_single_duration p (matches_of p)).
Proof.
  unfold parse_train_dur, matches_of. intros H.
  apply Nat.eqb_neq in H. by rewrite H.
Qed.

Lemma parse_train_dur_single p s :
  matches_of p = [s] -> parse_train_dur p = Py.int s.
Proof. unfold parse_train_dur, matches_of. by intros ->. Qed.

(** The error of lines 97-101 is raised for a file of the list, and only
    for one whose name does not hold exactly one duration. *)
Lemma group_not_single csv_paths acc q found :
  group_by_train_dur csv_paths acc = Err (ValueError_not_single_duration q found) ->
  q ∈ csv_paths /\ found = matches_of q /\ length found <> 1%nat.
Proof.
  revert acc. induction csv_paths as [|p rest IH]; intros acc; simpl; [done|].
  destruct (parse_train_dur p) as [d|e] eqn:E.
  - intros H. apply IH in H as (? & ? & ?). split; [by apply list_elem_of_further | done].
  - intros [= ->]. apply parse_train_dur_not_single in E as (-> & ? & ?).
    split; [apply list_elem_of_here | done].
Qed.

(** If every name with a single match holds an integer, the first file
    whose name does not hold exactly one duration raises that error. *)
Lemma group_raises_not_single csv_paths acc :
  (exists p, p ∈ csv_paths /\ length (matches_of p) <> 1%nat) ->
  (forall q s, q ∈ csv_paths -> matches_of q = [s] -> exists z, Py.int s = Ok z) ->
  exists p, p ∈ csv_paths /\ length (matches_of p) <> 1%nat /\
    group_by_train_dur csv_paths acc
    = Err (ValueError_not_single_duration p (matches_of p)).
Proof.
  revert acc. induction csv_paths as [|p rest IH]; intros acc (b & Hb & Hbad) Hint.
  - by apply elem_of_nil in Hb.
  - simpl. destruct (decide (length (matches_of p) = 1%nat)) as [Hone|Hne].
    + destruct (matches_of p) as [|s [|]] eqn:Em; try discriminate.
      destruct (Hint p s) as [z Hz]; [apply list_elem_of_here | done |].
      rewrite (parse_train_dur_single p s Em), Hz.
      apply elem_of_cons in Hb as [->|Hb]; [rewrite Em in Hbad; done|].
      destruct (IH (DefaultDict.append z p acc)) as (p' & Hin & Hlen & Hrun).
      * eauto.
      * intros q s' Hq. apply Hint. by apply list_elem_of_further.
      * exists p'. split; [by apply list_elem_of_further | done].
    + exists p. rewrite parse_train_dur_bad by done.
      split; [apply list_elem_of_here | done].
Qed.

(** A completed first loop has parsed every file. *)
Lemma group_ok_all_single csv_paths acc m :
  group_by_train_dur csv_paths acc = Ok m ->
  forall p, p ∈ csv_paths -> length (matches_of p) = 1%nat.
Proof.
  revert acc. induction csv_paths as [|p rest IH]; intros acc H q Hq.
  - by apply elem_of_nil in Hq.
  - simpl in H. destruct (parse_train_dur p) as [d|e] eqn:E; [|done].
    apply elem_of_cons in Hq as [->|Hq]; [|by eapply IH].
    destruct (decide (length (matches_of p) = 1%nat)) as [|Hne]; [done|].
    rewrite parse_train_dur_bad in E by done. discriminate.
Qed.

(** *** Relational specifications of computations *)

Lemma sound_weaken {A} (Rel1 Rel2 : relation world) (E1 E2 : exn -> Prop) (m : M A) :
  (forall w w', Rel1 w w' -> Rel2 w w') -> (forall e, E1 e -> E2 e) ->
  sound Rel1 E1 m -> sound Rel2 E2 m.
Proof.
  intros HR HE Hm w r w' Hrun. destruct (Hm w r w' Hrun) as [H1 H2].
  split; [auto|]. destruct r; auto.
Qed.

Section Sound.

Context (Rel : relation world) (E : exn -> Prop) `{!PreOrder Rel}.

Lemma sound_ret {A} (a : A) : sound Rel E (ret a).
Proof. intros w r w' [= <- <-]. done. Qed.

Lemma sound_raise {A} e : E e -> sound Rel E (raise (A := A) e).
Proof. intros He w r w' [= <- <-]. done. Qed.

Lemma sound_bind {A B} (m : M A) (k : A -> M B) :
  sound Rel E m -> (forall a, sound Rel E (k a)) -> sound Rel E (bind m k).
Proof.
  intros Hm Hk w r w' Hrun.
  apply bind_inv in Hrun as [(a & w1 & H1 & H2)|(e & H1 & ->)].
  - destruct (Hm _ _ _ H1) as [R1 _]. destruct (Hk a _ _ _ H2) as [R2 HE].
    split; [by etrans | done].
  - by destruct (Hm _ _ _ H1).
Qed.

Lemma sound_for {A S} (xs : list A) (body : A -> S -> M S) acc :
  (forall x a, x ∈ xs -> sound Rel E (body x a)) -> sound Rel E (for_ xs body acc).
Proof.
  revert acc. induction xs as [|x xs IH]; intros acc Hbody; simpl.
  - apply sound_ret.
  - apply sound_bind; [apply Hbody, list_elem_of_here|].
    intros a. apply IH. intros y b Hy. by apply Hbody, list_elem_of_further.
Qed.

End Sound.

(** What each primitive does to the world. *)

Lemma world_eta (w : world) :
  {| w_fs := w_fs w; w_rng := w_rng w; w_trace := w_trace w |} = w.
Proof. by destruct w. Qed.

Lemma is_dir_true fs p : Fs.is_dir fs p = true <-> p ∈ Fs.dirs fs.
Proof. unfold Fs.is_dir. apply bool_decide_eq_true. Qed.

Lemma is_dir_false fs p : Fs.is_dir fs p = false <-> p ∉ Fs.dirs fs.
Proof. unfold Fs.is_dir. apply bool_decide_eq_false. Qed.

Lemma exists_false fs p :
  Fs.exists_ fs p = false <-> (p ∉ Fs.dirs fs) /\ Fs.files fs !! p = None.
Proof.
  unfold Fs.exists_, Fs.is_file. rewrite orb_false_iff, is_dir_false.
  destruct (Fs.files fs !! p); naive_solver.
Qed.

Lemma mkdir_sound p : sound (created p) io_error (mkdir p).
Proof.
  intros w r w'. unfold mkdir, lift_fs, Fs.mkdir.
  destruct (Fs.exists_ (w_fs w) p) eqn:Ex; simpl.
  { intros [= <- <-]. rewrite world_eta. split; [by left | done]. }
  destruct (Fs.is_dir (w_fs w) (Fs.parent p)) eqn:Ep; simpl.
  - intros [= <- <-]. split; [|done]. right. simpl.
    apply is_dir_true in Ep. done.
  - intros [= <- <-]. rewrite world_eta. split; [by left | done].
Qed.

Lemma mkdir_exists p w :
  Fs.exists_ (w_fs w) p = true -> mkdir p w = (Err (FileExistsError p), w).
Proof.
  intros Ex. unfold mkdir, lift_fs, Fs.mkdir. rewrite Ex. simpl. by rewrite world_eta.
Qed.

Lemma write_file_sound p c :
  sound (written p) io_error (lift_fs (Fs.write_file p c)).
Proof.
  intros w r w'. unfold lift_fs, Fs.write_file.
  destruct (Fs.is_dir (w_fs w) p) eqn:Ed; simpl.
  { intros [= <- <-]. rewrite world_eta. done. }
  destruct (Fs.is_dir (w_fs w) (Fs.parent p)) eqn:Ep; simpl.
  - intros [= <- <-]. simpl. split; [|done]. split_and!; [done..|].
    intros q Hq. simpl. by rewrite lookup_insert_ne.
  - intros [= <- <-]. rewrite world_eta. done.
Qed.

Lemma np_save_sound p v : sound (written p) io_error (np_save p v).
Proof. apply write_file_sound. Qed.

Lemma to_csv_sound t p : sound (written p) io_error (to_csv t p).
Proof. apply write_file_sound. Qed.

Lemma read_file_io p fs e : Fs.read_file p fs = Err e -> io_error e.
Proof. unfold Fs.read_file. repeat case_match; intros [= <-]; done. Qed.

Lemma of_outcome_io {A} (o : outcome A) e : of_outcome o = Err e -> io_error e.
Proof. destruct o; simpl; intros [= <-]; done. Qed.

Lemma write_file_io p c fs e fs' :
  Fs.write_file p c fs = (Err e, fs') -> io_error e.
Proof. unfold Fs.write_file. repeat case_match; intros [= <- <-]; done. Qed.

(** Copying to a path that is not a directory writes that path only. *)
Lemma shutil_copy_sound src dst :
  sound (fun w w' => dst ∉ wdirs w -> written dst w w') io_error (shutil_copy src dst).
Proof.
  intros w r w'. unfold shutil_copy, lift_fs, Fs.copy.
  destruct (Fs.is_dir (w_fs w) dst) eqn:Ed.
  - apply is_dir_true in Ed.
    destruct (_ && _)%bool; simpl.
    { intros [= <- <-]. rewrite world_eta. split; [done|done]. }
    destruct (Fs.read_file src (w_fs w)) as [c|e] eqn:Er.
    + destruct (Fs.write_file _ c (w_fs w)) as [[u|e] fs'] eqn:Ew;
        intros [= <- <-]; (split; [done|]); [done|].
      by eapply write_file_io.
    + intros [= <- <-]. split; [done|]. by eapply read_file_io.
  - destruct (_ && _)%bool; simpl.
    { intros [= <- <-]. rewrite world_eta. done. }
    destruct (Fs.read_file src (w_fs w)) as [c|e] eqn:Er.
    + pose proof (write_file_sound dst c w) as Hw.
      unfold lift_fs in Hw.
      destruct (Fs.write_file dst c (w_fs w)) as [[u|e] fs'] eqn:Ew;
        intros [= <- <-].
      * destruct (Hw _ _ eq_refl) as [? _]. done.
      * destruct (Hw _ _ eq_refl) as [? ?]. done.
    + intros [= <- <-]. rewrite world_eta. split; [done|]. by eapply read_file_io.
Qed.

Lemma pd_read_csv_sound p : sound same_world io_error (pd_read_csv p).
Proof.
  intros w r w'. unfold pd_read_csv.
  destruct (Fs.read_file p (w_fs w)) as [c|e] eqn:Er; intros [= <- <-].
  - split; [done|]. destruct (read_csv c); done.
  - split; [done|]. by eapply read_file_io.
Qed.

Lemma call_split_sound t d ls :
  sound (traced (SplitCalled t d)) io_error (call_split t d ls).
Proof.
  intros w r w'. unfold call_split.
  destruct (split_dataframe _ _ _ _ _) as [o g]. intros [= <- <-].
  split; [done|]. destruct o; done.
Qed.

Lemma call_spect_vectors_sound t ws sk tk d tb lm :
  sound (traced (SpectVectorsCalled t d)) io_error (call_spect_vectors t ws sk tk d tb lm).
Proof.
  intros w r w'. unfold call_spect_vectors. intros [= <- <-].
  split; [done|]. destruct (spect_vectors_from_df _ _ _ _ _ _ _ _); done.
Qed.

Lemma log_or_print_sound : sound (traced Logged) io_error log_or_print.
Proof. intros w r w' [= <- <-]. done. Qed.

Lemma of_result_sound {A} (Rel : relation world) `{!Reflexive Rel}
    (E : exn -> Prop) (x : result A) :
  (forall e, x = Err e -> E e) -> sound Rel E (of_result x).
Proof.
  intros HE w r w' [= <- <-]. split; [done|]. destruct x; auto.
Qed.

Ltac sound_prim lem :=
  eapply sound_weaken; [ | intros ? He; exact He | apply lem ].

(** What filling one replicate directory [R] does, for any relation that
    accepts writes below [R] and the calls to the collaborators. *)
Section FillSound.

Context (Rel : relation world) `{!PreOrder Rel} (R : path).

Lemma save_vectors_sound vecs :
  (forall x w w', written (Fs.joinpath R x) w w' -> Rel w w') ->
  sound Rel io_error (save_vectors R vecs).
Proof.
  intros Hw. unfold save_vectors. destruct vecs as [[v1 v2] v3].
  apply sound_for; [done|]. intros [n v] [] _.
  sound_prim np_save_sound. apply Hw.
Qed.

Lemma build_into_sound full csv d tb ls ws sk tk lm r m :
  (forall x w w', written (Fs.joinpath R x) w w' -> Rel w w') ->
  (forall w w', traced (SplitCalled (select_split "train" full) d) w w' -> Rel w w') ->
  (forall t w w', traced (SpectVectorsCalled (select_split "train" t) d) w w' -> Rel w w') ->
  sound Rel io_error (build_into full csv R d tb ls ws sk tk lm r m).
Proof.
  intros Hw Hs Hv. unfold build_into.
  apply sound_bind; [done | sound_prim call_split_sound; apply Hs |]. intros t.
  apply sound_bind; [done | sound_prim call_spect_vectors_sound; apply Hv |]. intros vecs.
  apply sound_bind; [done | by apply save_vectors_sound |]. intros _.
  apply sound_bind; [done | sound_prim to_csv_sound; apply Hw |]. intros _.
  by apply sound_ret.
Qed.

Lemma import_into_sound d tb ws sk tk lm csv acc :
  (forall x w w',
      (Fs.joinpath R x ∉ wdirs w -> written (Fs.joinpath R x) w w') -> Rel w w') ->
  (forall t w w', traced (SpectVectorsCalled t d) w w' -> Rel w w') ->
  sound Rel io_error (import_into R d tb ws sk tk lm csv acc).
Proof.
  intros Hw Hv. unfold import_into.
  apply sound_bind; [done | sound_prim shutil_copy_sound; apply Hw |]. intros copied.
  apply sound_bind; [done | sound_prim pd_read_csv_sound; by intros ? ? -> |]. intros t.
  apply sound_bind; [done | sound_prim call_spect_vectors_sound; apply Hv |]. intros vecs.
  apply sound_bind; [done | apply save_vectors_sound; intros; apply (Hw x); auto |].
  intros _.
  apply sound_bind; [done | | intros _; by apply sound_ret].
  apply sound_for; [done|]. intros n [] _.
  apply sound_bind; [done | sound_prim shutil_copy_sound; apply Hw |]. intros _.
  by apply sound_ret.
Qed.

End FillSound.

(** *** Exceptions of the second phase of [from_dir] *)

#[local] Instance any_world_preorder : PreOrder any_world.
Proof. split; done. Qed.

Lemma copy_subsets_sound_io res tb ws sk tk lm m :
  sound any_world io_error (copy_subsets res tb ws sk tk lm m).
Proof.
  unfold copy_subsets. apply sound_for; [apply _|]. intros d m' _.
  apply sound_bind; [apply _ | sound_prim mkdir_sound; done |]. intros _.
  destruct (DefaultDict.getitem d m') as [csvs m''].
  apply sound_bind; [apply _ | | intros; by apply sound_ret].
  apply sound_for; [apply _|]. intros [r csv] acc _. unfold import_replicate.
  apply sound_bind; [apply _ | sound_prim mkdir_sound; done |]. intros _.
  apply import_into_sound; [apply _ | done | done].
Qed.

(** *** [from_dir], phase by phase *)

Lemma from_dir_listed_unfold listing durs tb n res ws sk tk lm w :
  from_dir_listed listing durs tb n res ws sk tk lm w =
  match group_by_train_dur (Py.sorted_paths listing) DefaultDict.empty with
  | Err e => (Err e, w)
  | Ok m =>
      match check_shape m durs n with
      | Err e => (Err e, w)
      | Ok _ =>
          copy_subsets res tb ws sk tk lm m
            {| w_fs := w_fs w; w_rng := w_rng w;
               w_trace := (w_trace w ++ [Logged])%list |}
      end
  end.
Proof.
  unfold from_dir_listed, bind, of_result, log_or_print, emit.
  destruct (group_by_train_dur _ _) as [m|e]; [|done].
  destruct (check_shape m durs n) as [[]|e]; done.
Qed.

Lemma check_shape_ok m durs n :
  check_shape m durs n = Ok tt <->
  Py.sorted_ints (DefaultDict.keys m) = Py.sorted_ints durs /\
  Forall (fun ps => Py.len ps = n) (DefaultDict.values m).
Proof.
  unfold check_shape.
  destruct (bool_decide _) eqn:E1; simpl.
  - apply bool_decide_eq_true in E1.
    destruct (forallb _ _) eqn:E2; simpl.
    + split; [|done]. intros _. split; [done|].
      apply Forall_forall. intros ps Hps.
      rewrite forallb_forall in E2. apply Z.eqb_eq, E2. by apply list_elem_of_In.
    + split; [done|]. intros [_ HF].
      assert (forallb (fun csv_paths => Py.len csv_paths =? n) (DefaultDict.values m) = true)
        as Ht; [|congruence].
      apply forallb_forall. intros ps Hps. apply Z.eqb_eq.
      rewrite Forall_forall in HF. by apply HF, list_elem_of_In.
  - apply bool_decide_eq_false in E1. split; [done | intros [? _]; done].
Qed.

Lemma check_shape_err m durs n e :
  check_shape m durs n = Err e ->
  e = ValueError_durations_mismatch (Py.sorted_ints durs)
        (Py.sorted_ints (DefaultDict.keys m))
  \/ e = ValueError_replicates_mismatch.
Proof.
  unfold check_shape. repeat case_match; intros [= <-]; auto.
Qed.

(** *** Claims about the validation phase of [from_dir] *)

(** C9. Replicate numbering is deterministic: whatever the order in which
    the file system lists the discovered table files, the sorted scan, the
    replicate number given to each source file and the whole run of
    [from_dir] are the same. *)
Theorem from_dir_numbering_independent_of_listing_order
    (l1 l2 : list path) durs tb n res ws sk tk lm (w : world) :
  l1 ≡ₚ l2 ->
  Py.sorted_paths l1 = Py.sorted_paths l2 /\
  replicate_numbering l1 = replicate_numbering l2 /\
  from_dir_listed l1 durs tb n res ws sk tk lm w
  = from_dir_listed l2 durs tb n res ws sk tk lm w.
Proof.
  intros HP. pose proof (sorted_paths_perm l1 l2 HP) as Hs.
  split; [done|]. split.
  - unfold replicate_numbering. by rewrite Hs.
  - unfold from_dir_listed. by rewrite Hs.
Qed.

Lemma keys_set_sorted (l1 l2 : list Z) :
  Py.sorted_ints l1 = Py.sorted_ints l2 ->
  list_to_set (C := gset Z) l1 = list_to_set l2.
Proof.
  intros H. unfold Py.sorted_ints in H.
  assert (l1 ≡ₚ l2) as HP.
  { rewrite <- (merge_sort_Permutation Z.le l1), <- (merge_sort_Permutation Z.le l2).
    by rewrite H. }
  apply set_eq. intros x. rewrite !elem_of_list_to_set. by rewrite HP.
Qed.

(** C6. When the durations found differ from those requested, or some
    duration does not have [num_replicates] files, [from_dir] raises the
    shape error and leaves the world exactly as it found it: no directory
    is created and no file is copied or written. *)
Theorem from_dir_validates_before_writing
    prev durs tb n res ws sk tk lm (w : world) (m : DefaultDict.t) :
  group_by_train_dur (Py.sorted_paths (Fs.glob prev CSV_GLOB (w_fs w)))
    DefaultDict.empty = Ok m ->
  list_to_set (C := gset Z) (DefaultDict.keys m) <> list_to_set durs \/
  (exists csv_paths, csv_paths ∈ DefaultDict.values m /\ Py.len csv_paths <> n) ->
  exists e,
    from_dir prev durs tb n res ws sk tk lm w = (Err e, w) /\
    (e = ValueError_durations_mismatch (Py.sorted_ints durs)
           (Py.sorted_ints (DefaultDict.keys m))
     \/ e = ValueError_replicates_mismatch).
Proof.
  intros Hg Hbad. unfold from_dir. rewrite from_dir_listed_unfold, Hg.
  destruct (check_shape m durs n) as [[]|e] eqn:Ec.
  - apply (proj1 (check_shape_ok m durs n)) in Ec as [Hk Hl]. exfalso.
    destruct Hbad as [Hne|(ps & Hin & Hlen)].
    + by apply Hne, keys_set_sorted.
    + rewrite Forall_forall in Hl. by apply Hlen, Hl.
  - exists e. split; [done|]. by apply (check_shape_err m durs n).
Qed.

(** C7 (amended). Among the files discovered by the glob [*prep*csv], and
    as long as every name with a single match encodes an integer duration,
    [from_dir] raises the naming error if and only if some discovered name
    holds zero or several occurrences of [train_dur_<NUMBER>s]; the error
    names such a file and what was found in its name, and nothing has been
    touched when it is raised. *)
Theorem from_dir_naming_error
    prev durs tb n res ws sk tk lm (w : world) :
  (forall q s, q ∈ Fs.glob prev CSV_GLOB (w_fs w) -> matches_of q = [s] ->
               exists z, Py.int s = Ok z) ->
  ((exists p found,
       (from_dir prev durs tb n res ws sk tk lm w).1
       = Err (ValueError_not_single_duration p found))
   <-> (exists p, p ∈ Fs.glob prev CSV_GLOB (w_fs w) /\ length (matches_of p) <> 1%nat))
  /\
  (forall p found,
      (from_dir prev durs tb n res ws sk tk lm w).1
      = Err (ValueError_not_single_duration p found) ->
      p ∈ Fs.glob prev CSV_GLOB (w_fs w) /\ CSV_GLOB (Fs.name p) = true /\
      found = matches_of p /\ length found <> 1%nat /\
      (from_dir prev durs tb n res ws sk tk lm w).2 = w).
Proof.
  intros Hint.
  set (listing := Fs.glob prev CSV_GLOB (w_fs w)) in *.
  assert (Hperm : forall q, q ∈ Py.sorted_paths listing <-> q ∈ listing).
  { intros q. unfold Py.sorted_paths. by rewrite merge_sort_Permutation. }
  assert (Hglob : forall q, q ∈ listing -> CSV_GLOB (Fs.name q) = true).
  { intros q Hq. unfold listing, Fs.glob in Hq.
    apply list_elem_of_In, filter_In in Hq as [_ Hq].
    by apply andb_true_iff in Hq as [_ ?]. }
  assert (Honly : forall p found,
      (from_dir prev durs tb n res ws sk tk lm w).1
      = Err (ValueError_not_single_duration p found) ->
      p ∈ listing /\ CSV_GLOB (Fs.name p) = true /\
      found = matches_of p /\ length found <> 1%nat /\
      (from_dir prev durs tb n res ws sk tk lm w).2 = w).
  { intros p found. unfold from_dir. fold listing. rewrite from_dir_listed_unfold.
    destruct (group_by_train_dur _ _) as [m|e] eqn:Eg; simpl.
    - destruct (check_shape m durs n) as [[]|e] eqn:Ec; simpl.
      + destruct (copy_subsets _ _ _ _ _ _ _ _) as [r w'] eqn:Ecp. simpl.
        intros ->. apply copy_subsets_sound_io in Ecp as [_ Hio]. done.
      + intros [= ->]. apply (check_shape_err m durs n) in Ec as [?|?]; discriminate.
    - intros [= ->]. apply group_not_single in Eg as (Hin & -> & Hlen).
      apply Hperm in Hin. split_and!; auto. }
  split; [|exact Honly]. split.
  - intros (p & found & H). apply Honly in H as (? & _ & -> & ? & _). eauto.
  - intros (p & Hin & Hlen).
    destruct (group_raises_not_single (Py.sorted_paths listing) DefaultDict.empty)
      as (p' & Hin' & Hlen' & Hrun).
    + exists p. split; [by apply Hperm | done].
    + intros q s Hq. apply Hint. by apply Hperm.
    + exists p', (matches_of p'). unfold from_dir. fold listing.
      rewrite from_dir_listed_unfold, Hrun. done.
Qed.

(** *** Paths *)

Lemma parent_joinpath R x : Fs.parent (Fs.joinpath R x) = R.
Proof. unfold Fs.parent, Fs.joinpath. apply removelast_last. Qed.

Lemma joinpath_ne R x : Fs.joinpath R x <> R.
Proof.
  unfold Fs.joinpath. intros H. apply (f_equal length) in H.
  rewrite length_app in H. simpl in H. lia.
Qed.

Lemma joinpath_inj R x y : Fs.joinpath R x = Fs.joinpath R y -> x = y.
Proof. unfold Fs.joinpath. intros H. apply app_inv_head in H. by injection H. Qed.

Lemma name_joinpath R x : Fs.name (Fs.joinpath R x) = x.
Proof. unfold Fs.name, Fs.joinpath. apply last_last. Qed.

(** *** The relations are preorders *)

#[local] Instance confined_preorder R : PreOrder (confined R).
Proof.
  split.
  - intros w. split; done.
  - intros w1 w2 w3 [D1 F1] [D2 F2]. split; [congruence|].
    intros p Hp. rewrite F2, F1; done.
Qed.

#[local] Instance confined_if_flat_preorder R : PreOrder (confined_if_flat R).
Proof.
  split.
  - intros w _. reflexivity.
  - intros w1 w2 w3 H1 H2 Hflat. specialize (H1 Hflat).
    etrans; [exact H1|]. apply H2. intros x. destruct H1 as [-> _]. apply Hflat.
Qed.

#[local] Instance grows_preorder : PreOrder grows.
Proof.
  split.
  - intros w. split; done.
  - intros w1 w2 w3 [D1 F1] [D2 F2]. split; [set_solver|].
    intros p Hp. rewrite F2, F1; [done..|]. by apply D1.
Qed.

#[local] Instance grows_wf_preorder : PreOrder grows_wf.
Proof.
  split.
  - intros w Hwf. split; [reflexivity | done].
  - intros w1 w2 w3 H1 H2 Hwf. destruct (H1 Hwf) as [G1 Hwf2].
    destruct (H2 Hwf2) as [G2 Hwf3]. split; [by etrans | done].
Qed.

#[local] Instance trace_extended_preorder good : PreOrder (trace_extended good).
Proof.
  split.
  - intros w. exists []. by rewrite app_nil_r.
  - intros w1 w2 w3 (n1 & E1 & G1) (n2 & E2 & G2). exists (n1 ++ n2)%list.
    split; [by rewrite E2, E1, app_assoc | by apply Forall_app].
Qed.

(** *** Completed primitives *)

Lemma mkdir_ok p w u w' :
  mkdir p w = (Ok u, w') ->
  Fs.exists_ (w_fs w) p = false /\ Fs.parent p ∈ wdirs w /\
  wdirs w' = {[p]} ∪ wdirs w /\ wfiles w' = wfiles w /\ w_trace w' = w_trace w.
Proof.
  unfold mkdir, lift_fs, Fs.mkdir.
  destruct (Fs.exists_ (w_fs w) p) eqn:Ex; simpl; [done|].
  destruct (Fs.is_dir (w_fs w) (Fs.parent p)) eqn:Ep; simpl; [|done].
  intros [= <- <-]. simpl. apply is_dir_true in Ep. done.
Qed.

Lemma write_file_ok p c w u w' :
  lift_fs (Fs.write_file p c) w = (Ok u, w') ->
  wdirs w' = wdirs w /\ wfiles w' = <[p := c]> (wfiles w) /\ w_trace w' = w_trace w.
Proof.
  unfold lift_fs, Fs.write_file.
  destruct (Fs.is_dir (w_fs w) p); simpl; [done|].
  destruct (Fs.is_dir (w_fs w) (Fs.parent p)); simpl; [|done].
  intros [= <- <-]. done.
Qed.

Lemma shutil_copy_ok src dst w t w' :
  shutil_copy src dst w = (Ok t, w') -> dst ∉ wdirs w ->
  t = dst /\ wdirs w' = wdirs w /\ w_trace w' = w_trace w /\
  exists c, wfiles w !! src = Some c /\ wfiles w' = <[dst := c]> (wfiles w).
Proof.
  unfold shutil_copy, lift_fs, Fs.copy. intros H Hd.
  apply is_dir_false in Hd. rewrite Hd in H.
  destruct (_ && _)%bool; simpl in H; [done|].
  unfold Fs.read_file in H. destruct (wfiles w !! src) as [c|] eqn:Es.
  - pose proof (write_file_ok dst c w) as Hw. unfold lift_fs in Hw.
    destruct (Fs.write_file dst c (w_fs w)) as [[u|e] fs'] eqn:Ew; [|done].
    injection H as <- <-. destruct (Hw _ _ eq_refl) as (? & ? & ?). eauto 10.
  - destruct (Fs.is_dir (w_fs w) src); done.
Qed.

(** *** A new replicate directory and what is put into it *)

Lemma created_then_confined R w w1 w' u :
  mkdir R w = (Ok u, w1) -> confined R w1 w' -> grows w w'.
Proof.
  intros Hm [D F]. apply mkdir_ok in Hm as (Ex & Hp & D1 & F1 & _).
  apply exists_false in Ex as [HR _]. split.
  - rewrite D, D1. set_solver.
  - intros p Hin. rewrite F, F1; [done|]. intros <-. done.
Qed.

Lemma fresh_dir_flat R w w1 u :
  Fs.wf (w_fs w) -> mkdir R w = (Ok u, w1) -> no_subdir R w1.
Proof.
  intros [Hd _] Hm x Hin. apply mkdir_ok in Hm as (Ex & _ & D1 & _).
  apply exists_false in Ex as [HR _]. rewrite D1 in Hin.
  apply elem_of_union in Hin as [Hin|Hin].
  - apply elem_of_singleton in Hin. by apply joinpath_ne in Hin.
  - pose proof (Hd _ Hin) as Hin'. simpl in Hin'.
    rewrite parent_joinpath in Hin'. done.
Qed.

Lemma created_then_confined_wf R w w1 w' u :
  Fs.wf (w_fs w) -> mkdir R w = (Ok u, w1) -> confined R w1 w' -> Fs.wf (w_fs w').
Proof.
  intros [Hd Hf] Hm [D F]. apply mkdir_ok in Hm as (Ex & Hp & D1 & F1 & _).
  split.
  - intros p Hin. rewrite D, D1 in Hin |- *.
    apply elem_of_union in Hin as [Hin|Hin].
    + apply elem_of_singleton in Hin. subst. set_solver.
    + pose proof (Hd _ Hin) as Hin'. simpl in Hin'. set_solver.
  - intros p c Hpc. simpl. rewrite D, D1.
    destruct (decide (Fs.parent p = R)) as [->|Hne]; [set_solver|].
    rewrite F, F1 in Hpc by done. pose proof (Hf _ _ Hpc) as Hin'. simpl in Hin'.
    set_solver.
Qed.

Lemma written_confined R x w w' : written (Fs.joinpath R x) w w' -> confined R w w'.
Proof.
  intros (D & _ & F). split; [done|]. intros p Hp. apply F.
  intros ->. by rewrite parent_joinpath in Hp.
Qed.

Lemma traced_confined R ev w w' : traced ev w w' -> confined R w w'.
Proof. intros [Hfs _]. split; by rewrite Hfs. Qed.

Lemma traced_grows ev w w' : traced ev w w' -> grows w w'.
Proof. intros [Hfs _]. split; by rewrite Hfs. Qed.

Lemma created_grows p w w' : created p w w' -> grows w w'.
Proof.
  intros [->|(_ & _ & D & F & _)]; [reflexivity|].
  split; [rewrite D; set_solver | intros; by rewrite F].
Qed.

Lemma created_wf p w w' : created p w w' -> Fs.wf (w_fs w) -> Fs.wf (w_fs w').
Proof.
  intros [->|(_ & Hp & D & F & _)]; [done|]. intros [Hd Hf]. split.
  - intros q Hin. simpl. rewrite D in Hin |- *.
    apply elem_of_union in Hin as [Hin|Hin].
    + apply elem_of_singleton in Hin. subst. set_solver.
    + pose proof (Hd _ Hin) as Hin'. simpl in Hin'. set_solver.
  - intros q c Hq. simpl. rewrite F in Hq. rewrite D.
    pose proof (Hf _ _ Hq) as Hin'. simpl in Hin'. set_solver.
Qed.

Lemma traced_wf ev w w' : traced ev w w' -> Fs.wf (w_fs w) -> Fs.wf (w_fs w').
Proof. intros [Hfs _]. by rewrite Hfs. Qed.

Lemma select_split_only s t : Forall (fun r => row_split r = s) (select_split s t).
Proof.
  apply Forall_forall. intros r Hr. unfold select_split in Hr.
  apply list_elem_of_In, filter_In in Hr as [_ Hr]. by apply String.eqb_eq.
Qed.

(** *** Every run of [from_df] *)

Lemma build_replicate_grows full csv D d tb ls ws sk tk lm r m :
  sound grows io_error (build_replicate full csv D d tb ls ws sk tk lm r m).
Proof.
  intros w res w' Hrun. unfold build_replicate in Hrun.
  apply bind_inv in Hrun as [(u & w1 & Hm & Hrest)|(e & Hm & ->)].
  - assert (sound (confined (replicate_dir D r)) io_error
              (build_into full csv (replicate_dir D r) d tb ls ws sk tk lm r m)) as Hs.
    { apply build_into_sound; [apply _ | | |].
      - intros x. apply written_confined.
      - intros ? ?. apply traced_confined.
      - intros ? ? ?. apply traced_confined. }
    apply Hs in Hrest as [Hc He].
    split; [by eapply created_then_confined | done].
  - apply mkdir_sound in Hm as [Hc He]. split; [by eapply created_grows | done].
Qed.

Lemma from_df_sound (Rel : relation world) `{!PreOrder Rel}
    full csv durs tb n res ls ws sk tk lm :
  (forall w w', traced Logged w w' -> Rel w w') ->
  (forall p w w', created p w w' -> Rel w w') ->
  (forall D d r m, sound Rel io_error (build_replicate full csv D d tb ls ws sk tk lm r m)) ->
  sound Rel io_error (from_df full csv durs tb n res ls ws sk tk lm).
Proof.
  intros Hl Hc Hb. unfold from_df.
  apply sound_for; [done|]. intros d m _.
  apply sound_bind; [done | sound_prim log_or_print_sound; apply Hl |]. intros _.
  apply sound_bind; [done | sound_prim mkdir_sound; apply Hc |]. intros _.
  apply sound_for; [done|]. intros r m' _. apply Hb.
Qed.

Lemma from_df_grows full csv durs tb n res ls ws sk tk lm :
  sound grows io_error (from_df full csv durs tb n res ls ws sk tk lm).
Proof.
  apply from_df_sound; [apply _ | | |].
  - intros ? ?. apply traced_grows.
  - apply created_grows.
  - intros. apply build_replicate_grows.
Qed.

(** *** Every run of [from_dir] *)

Lemma import_replicate_grows D d tb ws sk tk lm item acc :
  sound grows_wf io_error (import_replicate D d tb ws sk tk lm item acc).
Proof.
  intros w res w' Hrun. unfold import_replicate in Hrun. destruct item as [r csv].
  apply bind_inv in Hrun as [(u & w1 & Hm & Hrest)|(e & Hm & ->)].
  - assert (sound (confined_if_flat (replicate_dir D r)) io_error
              (import_into (replicate_dir D r) d tb ws sk tk lm csv acc)) as Hs.
    { apply import_into_sound; [apply _ | |].
      - intros x v v' Hw Hflat. eapply written_confined. apply Hw, Hflat.
      - intros t v v' Ht _. by eapply traced_confined. }
    apply Hs in Hrest as [Hc He].
    split; [|done]. intros Hwf.
    assert (confined (replicate_dir D r) w1 w') as Hc'.
    { apply Hc. by eapply fresh_dir_flat. }
    split; [by eapply created_then_confined | by eapply created_then_confined_wf].
  - apply mkdir_sound in Hm as [Hc He]. split; [|done].
    intros Hwf. split; [by eapply created_grows | by eapply created_wf].
Qed.

Lemma copy_subsets_grows res tb ws sk tk lm m :
  sound grows_wf io_error (copy_subsets res tb ws sk tk lm m).
Proof.
  unfold copy_subsets. apply sound_for; [apply _|]. intros d m' _.
  apply sound_bind; [apply _ | sound_prim mkdir_sound |].
  { intros w w' Hc Hwf. split; [by eapply created_grows | by eapply created_wf]. }
  intros _. destruct (DefaultDict.getitem d m') as [csvs m''].
  apply sound_bind; [apply _ | | intros; apply sound_ret; apply _].
  apply sound_for; [apply _|]. intros item acc _. apply import_replicate_grows.
Qed.

Lemma from_dir_listed_grows listing durs tb n res ws sk tk lm :
  sound grows_wf (fun _ => True) (from_dir_listed listing durs tb n res ws sk tk lm).
Proof.
  intros w r w' Hrun. rewrite from_dir_listed_unfold in Hrun.
  destruct (group_by_train_dur _ _) as [m|e].
  - destruct (check_shape m durs n) as [[]|e].
    + apply copy_subsets_grows in Hrun as [Hg _].
      split; [|by destruct r]. intros Hwf. apply Hg in Hwf as [[D F] Hwf'].
      split; [|done]. split; [exact D | exact F].
    + injection Hrun as <- <-. split; [reflexivity | done].
  - injection Hrun as <- <-. split; [reflexivity | done].
Qed.

(** *** Completed runs of [from_df] *)

Lemma build_replicate_ok full csv res d tb ls ws sk tk lm r m w m' w' :
  build_replicate full csv (train_dur_dir res d) d tb ls ws sk tk lm r m w = (Ok m', w') ->
  built full res csv w w' d r /\
  m' = DefaultDict.append d (subset_csv_path res csv d r) m.
Proof.
  intros Hrun.
  pose proof (build_replicate_grows _ _ _ _ _ _ _ _ _ _ _ _ _ _ _ Hrun) as [[Hsub _] _].
  unfold build_replicate in Hrun.
  apply bind_ok in Hrun as ([] & w1 & Hm & Hrun).
  assert (sound (confined (replicate_dir (train_dur_dir res d) r)) io_error
            (build_into full csv (replicate_dir (train_dur_dir res d) r) d tb ls ws
               sk tk lm r m)) as Hs.
  { apply build_into_sound; [apply _ | | |].
    - intros x. apply written_confined.
    - intros ? ?. apply traced_confined.
    - intros ? ? ?. apply traced_confined. }
  pose proof (Hs _ _ _ Hrun) as [[Hd _] _].
  apply mkdir_ok in Hm as (Ex & _ & D1 & _).
  apply exists_false in Ex as [Hfresh _].
  unfold build_into in Hrun.
  apply bind_ok in Hrun as (t & w2 & _ & Hrun).
  apply bind_ok in Hrun as (vecs & w3 & _ & Hrun).
  apply bind_ok in Hrun as ([] & w4 & _ & Hrun).
  apply bind_ok in Hrun as ([] & w5 & Hcsv & Hrun).
  injection Hrun as <- <-.
  apply write_file_ok in Hcsv as (_ & F5 & _).
  split; [|done]. split_and!.
  - rewrite Hd, D1. set_solver.
  - done.
  - eexists. split.
    + exists (select_split "train" t). split; [apply select_split_only | done].
    + unfold subset_csv_path. rewrite F5. apply lookup_insert_eq.
Qed.

Lemma built_grows full res csv w0 v v' d r :
  built full res csv w0 v d r -> grows v v' -> built full res csv w0 v' d r.
Proof.
  intros (Hin & Hout & t & Ht & Hf) [D F]. split_and!; [by apply D | done |].
  exists t. split; [done|]. rewrite F; [done|].
  unfold subset_csv_path. by rewrite parent_joinpath.
Qed.

Lemma built_since full res csv w0 w1 v d r :
  built full res csv w1 v d r -> wdirs w0 ⊆ wdirs w1 -> built full res csv w0 v d r.
Proof. intros (Hin & Hout & Ht) Hsub. split_and!; [done | set_solver | done]. Qed.

(** The inner loop of [from_df]: replicates [rs] of duration [d]. *)
Lemma build_replicates_ok full csv res d tb ls ws sk tk lm rs m w m' w' :
  for_ rs (build_replicate full csv (train_dur_dir res d) d tb ls ws sk tk lm) m w
  = (Ok m', w') ->
  grows w w' /\
  (forall r, r ∈ rs -> built full res csv w w' d r) /\
  (forall k, k <> d -> DefaultDict.lookup k m' = DefaultDict.lookup k m) /\
  dd_get d m' = (dd_get d m ++ List.map (subset_csv_path res csv d) rs)%list /\
  (rs = [] -> m' = m) /\
  (rs <> [] -> is_Some (DefaultDict.lookup d m')).
Proof.
  intros Hrun.
  apply (for_ok_inv (fun pre a v =>
    grows w v /\
    (forall r, r ∈ pre -> built full res csv w v d r) /\
    (forall k, k <> d -> DefaultDict.lookup k a = DefaultDict.lookup k m) /\
    dd_get d a = (dd_get d m ++ List.map (subset_csv_path res csv d) pre)%list /\
    (pre = [] -> a = m) /\
    (pre <> [] -> is_Some (DefaultDict.lookup d a)))) in Hrun; [done| |].
  - split; [reflexivity|]. split; [intros r Hr; by apply elem_of_nil in Hr|].
    split; [done|]. split; [simpl; by rewrite app_nil_r|]. done.
  - intros pre r post a v a' v' _ (G & B & K & Dg & _ & _) Hbody.
    pose proof (build_replicate_grows _ _ _ _ _ _ _ _ _ _ _ _ _ _ _ Hbody) as [Gb _].
    apply build_replicate_ok in Hbody as [Hb ->].
    split_and!.
    + by etrans.
    + intros r' Hr'. apply elem_of_app in Hr' as [Hr'|Hr'].
      * eapply built_grows; [by apply B | done].
      * apply list_elem_of_singleton in Hr' as ->.
        eapply built_since; [done | apply G].
    + intros k Hk. rewrite dd_lookup_append. case_decide; [done | by apply K].
    + unfold dd_get at 1. rewrite dd_lookup_append. case_decide; [|done].
      simpl. rewrite Dg, map_app, <- app_assoc. done.
    + intros Hnil. by apply app_eq_nil in Hnil as [_ ?].
    + intros _. rewrite dd_lookup_append. case_decide; [eauto | done].
Qed.

Lemma elem_of_range a b x : x ∈ Py.range a b <-> a <= x < b.
Proof.
  unfold Py.range. rewrite list_elem_of_In, in_map_iff. split.
  - intros (i & <- & Hi). apply in_seq in Hi. lia.
  - intros H. exists (Z.to_nat (x - a)). split; [lia|]. apply in_seq. lia.
Qed.

Lemma length_range a b : length (Py.range a b) = Z.to_nat (b - a).
Proof. unfold Py.range. by rewrite length_map, length_seq. Qed.

Lemma dd_lookup_is_Some k m : is_Some (DefaultDict.lookup k m) <-> k ∈ DefaultDict.keys m.
Proof.
  destruct (DefaultDict.lookup k m) eqn:E.
  - split; [intros _; by eapply dd_lookup_Some_keys | eauto].
  - apply dd_lookup_None in E. split; [intros [? ?]; done | done].
Qed.

Lemma log_or_print_ok u w w' : log_or_print w = (Ok u, w') -> w_fs w' = w_fs w.
Proof. unfold log_or_print, emit. by intros [= _ <-]. Qed.

(** What a completed run of [from_df] from [w] has built, and the mapping
    it returns. *)
Lemma from_df_ok full csv durs tb n res ls ws sk tk lm w m w' :
  from_df full csv durs tb n res ls ws sk tk lm w = (Ok m, w') ->
  grows w w' /\
  (forall d, d ∈ durs ->
     (train_dur_dir res d ∈ wdirs w') /\ (train_dur_dir res d ∉ wdirs w) /\
     forall r, r ∈ Py.range 1 (n + 1) -> built full res csv w w' d r) /\
  (forall k, is_Some (DefaultDict.lookup k m) -> k ∈ durs) /\
  (forall d, d ∈ durs ->
     dd_get d m = List.map (subset_csv_path res csv d) (Py.range 1 (n + 1))) /\
  (Py.range 1 (n + 1) <> [] -> forall d, d ∈ durs -> is_Some (DefaultDict.lookup d m)).
Proof.
  intros Hrun. unfold from_df in Hrun.
  apply (for_ok_inv (fun pre a v =>
    grows w v /\
    (forall d, d ∈ pre ->
       (train_dur_dir res d ∈ wdirs v) /\ (train_dur_dir res d ∉ wdirs w) /\
       forall r, r ∈ Py.range 1 (n + 1) -> built full res csv w v d r) /\
    (forall k, is_Some (DefaultDict.lookup k a) -> k ∈ pre) /\
    (forall d, d ∈ pre ->
       dd_get d a = List.map (subset_csv_path res csv d) (Py.range 1 (n + 1))) /\
    (Py.range 1 (n + 1) <> [] ->
       forall d, d ∈ pre -> is_Some (DefaultDict.lookup d a)))) in Hrun; [done| |].
  - split; [reflexivity|]. split; [intros d Hd; by apply elem_of_nil in Hd|].
    split; [intros k [? Hk]; done|].
    split; intros; by match goal with H : _ ∈ [] |- _ => apply elem_of_nil in H end.
  - clear Hrun. intros pre d post a v a' v' _ (G & B & K & Dg & Ks) Hbody.
    apply bind_ok in Hbody as ([] & v0 & Hlog & Hbody).
    apply log_or_print_ok in Hlog.
    apply bind_ok in Hbody as ([] & v1 & Hm & Hbody).
    pose proof (proj1 (mkdir_sound _ _ _ _ Hm)) as Gm. apply created_grows in Gm.
    apply mkdir_ok in Hm as (Ex & _ & D1 & F1 & _).
    apply exists_false in Ex as [Hfresh _]. rewrite Hlog in Hfresh, D1, F1.
    assert (grows v v1) as Gv1.
    { destruct Gm as [Ga Gb]. rewrite Hlog in Ga, Gb. by split. }
    clear Gm.
    apply build_replicates_ok in Hbody as (Gin & Bin & Kin & Din & _ & Sin).
    assert (d ∉ pre) as Hd by (intros Hd; by apply B in Hd as [? _]).
    assert (DefaultDict.lookup d a = None) as Hnone.
    { destruct (DefaultDict.lookup d a) eqn:E; [|done]. destruct Hd. apply K. eauto. }
    assert (grows v v') as Gvv' by (by etrans).
    split_and!.
    + by etrans.
    + intros d' Hd'. apply elem_of_app in Hd' as [Hd'|Hd'].
      * destruct (B d' Hd') as (Hin & Hout & Hb). split_and!; [by apply Gvv' | done |].
        intros r Hr. eapply built_grows; [by apply Hb | done].
      * apply list_elem_of_singleton in Hd' as ->. split_and!.
        -- apply Gin. rewrite D1. set_solver.
        -- intros Hin. apply Hfresh. by apply G.
        -- intros r Hr. eapply built_since; [by apply Bin|].
           etrans; [apply G | apply Gv1].
    + intros k Hk. destruct (decide (k = d)) as [->|Hne]; [set_solver|].
      rewrite Kin in Hk by done. apply K in Hk. set_solver.
    + intros d' Hd'. apply elem_of_app in Hd' as [Hd'|Hd'].
      * assert (d' <> d) as Hne by (intros ->; done).
        unfold dd_get. rewrite Kin by done. by apply Dg.
      * apply list_elem_of_singleton in Hd' as ->. rewrite Din.
        unfold dd_get. by rewrite Hnone.
    + intros Hrs d' Hd'. apply elem_of_app in Hd' as [Hd'|Hd'].
      * assert (d' <> d) as Hne by (intros ->; done).
        rewrite Kin by done. by apply Ks.
      * apply list_elem_of_singleton in Hd' as ->. by apply Sin.
Qed.

Lemma select_split_app s t1 t2 :
  select_split s (t1 ++ t2)%list = (select_split s t1 ++ select_split s t2)%list.
Proof. unfold select_split. apply List.filter_app. Qed.

Lemma select_split_other s s' t :
  s <> s' -> Forall (fun r => row_split r = s') t -> select_split s t = [].
Proof.
  intros Hne. induction 1 as [|r t Hr _ IH]; [done|].
  unfold select_split in *. simpl. rewrite IH.
  destruct (String.eqb_spec (row_split r) s); [congruence | done].
Qed.

Lemma select_split_same s t :
  Forall (fun r => row_split r = s) t -> select_split s t = t.
Proof.
  induction 1 as [|r t Hr _ IH]; [done|].
  unfold select_split in *. simpl. rewrite IH.
  destruct (String.eqb_spec (row_split r) s); [done | congruence].
Qed.

(** The evaluation rows of a recombined table are those of the full table. *)
Lemma recombined_eval_rows full t :
  recombined full t ->
  select_split "val" t = select_split "val" full /\
  select_split "test" t = select_split "test" full.
Proof.
  intros (subset & Htrain & ->). unfold concat. simpl.
  rewrite !select_split_app, app_nil_r.
  assert (select_split "val" subset = []) as ->
    by (by apply (select_split_other "val" "train")).
  assert (select_split "test" subset = []) as ->
    by (by apply (select_split_other "test" "train")).
  assert (select_split "val" (select_split "test" full) = []) as ->
    by (apply (select_split_other "val" "test"); [done | apply select_split_only]).
  assert (select_split "test" (select_split "val" full) = []) as ->
    by (apply (select_split_other "test" "val"); [done | apply select_split_only]).
  rewrite (select_split_same "val") by apply select_split_only.
  rewrite (select_split_same "test") by apply select_split_only.
  simpl. rewrite ?app_nil_r. split; reflexivity.
Qed.

(** *** Completed runs of [from_dir] *)

(** A completed copy into the flat directory [R] from outside of it. *)
Lemma copy_step R src x v t v' :
  shutil_copy src (Fs.joinpath R x) v = (Ok t, v') ->
  no_subdir R v -> Fs.parent src <> R ->
  t = Fs.joinpath R x /\ confined R v v' /\ no_subdir R v' /\
  is_Some (wfiles v !! src) /\
  wfiles v' !! Fs.joinpath R x = wfiles v !! src /\
  forall y, y <> x -> wfiles v' !! Fs.joinpath R y = wfiles v !! Fs.joinpath R y.
Proof.
  intros Hc Hflat Hsrc.
  apply shutil_copy_ok in Hc as (-> & D & _ & c & Hs & F); [|apply Hflat].
  split; [done|]. split_and!.
  - split; [done|]. intros p Hp. rewrite F, lookup_insert_ne; [done|].
    intros <-. by rewrite parent_joinpath in Hp.
  - intros y. rewrite D. apply Hflat.
  - eauto.
  - by rewrite F, lookup_insert_eq.
  - intros y Hy. rewrite F, lookup_insert_ne; [done|].
    intros Heq. by apply joinpath_inj in Heq.
Qed.

Lemma import_replicate_ok res d tb ws sk tk lm r csv acc v acc' v' :
  import_replicate (train_dur_dir res d) d tb ws sk tk lm (r, csv) acc v = (Ok acc', v') ->
  Fs.wf (w_fs v) ->
  acc' = (acc ++ [Fs.joinpath (replicate_dir (train_dur_dir res d) r) (Fs.name csv)])%list /\
  imported res v v' d r csv.
Proof.
  intros Hrun Hwf. unfold import_replicate in Hrun.
  set (R := replicate_dir (train_dur_dir res d) r) in *.
  apply bind_ok in Hrun as ([] & v1 & Hm & Hrun).
  pose proof (fresh_dir_flat _ _ _ _ Hwf Hm) as Hflat1.
  apply mkdir_ok in Hm as (Ex & _ & D1 & F1 & _).
  apply exists_false in Ex as [Hfresh _].
  unfold import_into in Hrun.
  apply bind_ok in Hrun as (copied & v2 & Hcopy & Hrun).
  assert (Fs.parent csv <> R) as Hcsv.
  { apply shutil_copy_ok in Hcopy as (_ & _ & _ & c & Hs & _); [|apply Hflat1].
    rewrite F1 in Hs. destruct Hwf as [_ Hf]. pose proof (Hf _ _ Hs) as Hin.
    simpl in Hin. intros Heq. rewrite Heq in Hin. done. }
  apply copy_step in Hcopy as (-> & C2 & Hflat2 & _); [|done..].
  apply bind_ok in Hrun as (t & v3 & Hread & Hrun).
  apply pd_read_csv_sound in Hread as [-> _].
  apply bind_ok in Hrun as (vecs & v4 & Hcall & Hrun).
  apply call_spect_vectors_sound in Hcall as [[Hfs4 _] _].
  apply bind_ok in Hrun as ([] & v5 & Hsave & Hrun).
  assert (sound (confined R) io_error (save_vectors R vecs)) as Hs
    by (apply save_vectors_sound; [apply _ | intros x; apply written_confined]).
  apply Hs in Hsave as [C5 _]. clear Hs.
  assert (confined R v1 v5) as C15.
  { etrans; [exact C2|]. destruct C5 as [Da Fa]. rewrite Hfs4 in Da, Fa. by split. }
  assert (no_subdir R v5) as Hflat5.
  { intros y. destruct C15 as [-> _]. apply Hflat1. }
  assert (forall vn, Fs.parent (legacy_vec_path csv vn) <> R) as Hleg.
  { intros vn. unfold legacy_vec_path. by rewrite parent_joinpath. }
  assert (forall vn, wfiles v5 !! legacy_vec_path csv vn = wfiles v !! legacy_vec_path csv vn)
    as Hsame.
  { intros vn. destruct C15 as [_ ->]; [by rewrite F1 | apply Hleg]. }
  apply bind_ok in Hrun as ([] & v8 & Hcopies & Hrun).
  injection Hrun as <- <-. split; [done|].
  simpl in Hcopies.
  apply bind_ok in Hcopies as ([] & v6 & Hc1 & Hcopies).
  apply bind_ok in Hc1 as (t1 & v6' & Hc1 & Hr1). injection Hr1 as ->.
  apply bind_ok in Hcopies as ([] & v7 & Hc2 & Hcopies).
  apply bind_ok in Hc2 as (t2 & v7' & Hc2 & Hr2). injection Hr2 as ->.
  apply bind_ok in Hcopies as ([] & v8' & Hc3 & Hcopies).
  apply bind_ok in Hc3 as (t3 & v8'' & Hc3 & Hr3). injection Hr3 as ->.
  injection Hcopies as ->.
  rewrite !name_joinpath in Hc1, Hc2, Hc3.
  fold (legacy_vec_path csv "spect_id_vector") in Hc1.
  fold (legacy_vec_path csv "spect_inds_vector") in Hc2.
  fold (legacy_vec_path csv "x_inds") in Hc3.
  apply copy_step in Hc1 as (_ & C6 & Hflat6 & [c1 S1] & G1 & O1); [|done..].
  apply copy_step in Hc2 as (_ & C7 & Hflat7 & [c2 S2] & G2 & O2); [|done..].
  apply copy_step in Hc3 as (_ & C8 & _ & [c3 S3] & G3 & O3); [|done..].
  assert (wfiles v6 !! legacy_vec_path csv "spect_inds_vector"
          = wfiles v !! legacy_vec_path csv "spect_inds_vector") as E2.
  { destruct C6 as [_ ->]; [apply Hsame | apply Hleg]. }
  assert (wfiles v7 !! legacy_vec_path csv "x_inds"
          = wfiles v !! legacy_vec_path csv "x_inds") as E3.
  { destruct C7 as [_ ->]; [|apply Hleg]. destruct C6 as [_ ->]; [apply Hsame | apply Hleg]. }
  split_and!.
  - destruct C8 as [-> _], C7 as [-> _], C6 as [-> _], C15 as [-> _].
    rewrite D1. set_solver.
  - done.
  - intros vn Hvn. unfold replicate_vec_path. fold R.
    unfold vec_names in Hvn.
    repeat (apply elem_of_cons in Hvn as [->|Hvn]); [| | |by apply elem_of_nil in Hvn].
    + exists c1. split; [by rewrite <- Hsame|].
      rewrite O3, O2, G1 by done. done.
    + exists c2. split; [by rewrite <- E2|].
      rewrite O3, G2 by done. done.
    + exists c3. split; [by rewrite <- E3|].
      rewrite G3. done.
Qed.

Lemma imported_grows res w0 v v' d r csv :
  imported res w0 v d r csv -> grows v v' -> imported res w0 v' d r csv.
Proof.
  intros (Hin & Hout & Hv) [D F]. split_and!; [by apply D | done |].
  intros vn Hvn. destruct (Hv vn Hvn) as (c & Hl & Hr). exists c. split; [done|].
  rewrite F; [done|]. unfold replicate_vec_path. by rewrite parent_joinpath.
Qed.

Lemma imported_since res w0 w1 v d r csv :
  imported res w1 v d r csv -> grows w0 w1 -> Fs.parent csv ∈ wdirs w0 ->
  imported res w0 v d r csv.
Proof.
  intros (Hin & Hout & Hv) [D F] Hp. split_and!; [done | set_solver |].
  intros vn Hvn. destruct (Hv vn Hvn) as (c & Hl & Hr). exists c. split; [|done].
  rewrite <- F; [done|]. unfold legacy_vec_path. by rewrite parent_joinpath.
Qed.

(** The inner loop of [from_dir]: the tables of duration [d]. *)
Lemma import_replicates_ok res d tb ws sk tk lm items acc v acc' v' :
  for_ items (import_replicate (train_dur_dir res d) d tb ws sk tk lm) acc v
  = (Ok acc', v') ->
  Fs.wf (w_fs v) ->
  (forall r csv, (r, csv) ∈ items -> Fs.parent csv ∈ wdirs v) ->
  grows v v' /\ Fs.wf (w_fs v') /\
  acc' = (acc ++ List.map
            (fun '(r, csv) =>
               Fs.joinpath (replicate_dir (train_dur_dir res d) r) (Fs.name csv))
            items)%list /\
  forall r csv, (r, csv) ∈ items -> imported res v v' d r csv.
Proof.
  intros Hrun Hwf Hparents.
  apply (for_ok_inv (fun pre a u =>
    grows v u /\ Fs.wf (w_fs u) /\
    a = (acc ++ List.map
           (fun '(r, csv) =>
              Fs.joinpath (replicate_dir (train_dur_dir res d) r) (Fs.name csv))
           pre)%list /\
    forall r csv, (r, csv) ∈ pre -> imported res v u d r csv)) in Hrun; [done| |].
  - split; [reflexivity|]. split; [done|]. split; [simpl; by rewrite app_nil_r|].
    intros r csv Hin. by apply elem_of_nil in Hin.
  - intros pre [r csv] post a u a' u' Hxs (G & Hwfu & -> & B) Hbody.
    pose proof (import_replicate_grows _ _ _ _ _ _ _ _ _ _ _ _ Hbody) as [Gb _].
    destruct (Gb Hwfu) as [Guu' Hwfu'].
    apply import_replicate_ok in Hbody as [-> Hi]; [|done].
    split_and!.
    + by etrans.
    + done.
    + by rewrite map_app, <- app_assoc.
    + intros r' csv' Hin. apply elem_of_app in Hin as [Hin|Hin].
      * eapply imported_grows; [by apply B | done].
      * apply list_elem_of_singleton in Hin as [= -> ->].
        eapply imported_since; [done | done |].
        eapply Hparents. rewrite Hxs. apply elem_of_app. right. apply list_elem_of_here.
Qed.

Lemma elem_of_zip_range {A} (l : list A) r x :
  (r, x) ∈ zip (Py.range 1 (Py.len l + 1)) l <->
  1 <= r /\ l !! Z.to_nat (r - 1) = Some x.
Proof.
  unfold Py.range, Py.len.
  replace (Z.to_nat (Z.of_nat (length l) + 1 - 1)) with (length l) by lia.
  rewrite list_elem_of_lookup. split.
  - intros (i & Hi). apply lookup_zip_with_Some in Hi as (a & b & [= <- <-] & Ha & Hb).
    rewrite list_lookup_fmap in Ha.
    destruct (seq 0 (length l) !! i) as [j|] eqn:Ej; [|done].
    apply lookup_seq in Ej as [-> _]. simpl in Ha. injection Ha as <-.
    split; [lia|]. by replace (Z.to_nat (1 + Z.of_nat i - 1)) with i by lia.
  - intros [Hr Hx]. exists (Z.to_nat (r - 1)).
    apply lookup_zip_with_Some. exists r, x. split; [done|]. split; [|done].
    rewrite list_lookup_fmap, lookup_seq_lt by (by eapply lookup_lt_Some).
    simpl. f_equal. lia.
Qed.

(** The second phase of [from_dir], from the manifest [m0]. *)
Lemma copy_subsets_ok res tb ws sk tk lm m0 w m w' :
  copy_subsets res tb ws sk tk lm m0 w = (Ok m, w') ->
  Fs.wf (w_fs w) ->
  (forall d csvs csv, DefaultDict.lookup d m0 = Some csvs -> csv ∈ csvs ->
                      Fs.parent csv ∈ wdirs w) ->
  grows w w' /\ Fs.wf (w_fs w') /\
  DefaultDict.keys m = DefaultDict.keys m0 /\
  forall d, d ∈ DefaultDict.keys m0 ->
    (train_dur_dir res d ∈ wdirs w') /\ (train_dur_dir res d ∉ wdirs w) /\
    exists csvs,
      DefaultDict.lookup d m0 = Some csvs /\
      DefaultDict.lookup d m = Some (copied_paths res d csvs) /\
      forall r csv, 1 <= r -> csvs !! Z.to_nat (r - 1) = Some csv ->
                    imported res w w' d r csv.
Proof.
  intros Hrun Hwf Hparents. unfold copy_subsets in Hrun.
  apply (for_ok_inv (fun pre a u =>
    grows w u /\ Fs.wf (w_fs u) /\
    DefaultDict.keys a = DefaultDict.keys m0 /\
    (forall k, k ∉ pre -> DefaultDict.lookup k a = DefaultDict.lookup k m0) /\
    forall d, d ∈ pre ->
      (train_dur_dir res d ∈ wdirs u) /\ (train_dur_dir res d ∉ wdirs w) /\
      exists csvs,
        DefaultDict.lookup d m0 = Some csvs /\
        DefaultDict.lookup d a = Some (copied_paths res d csvs) /\
        forall r csv, 1 <= r -> csvs !! Z.to_nat (r - 1) = Some csv ->
                      imported res w u d r csv)) in Hrun.
  - destruct Hrun as (G & Hwf' & Hk & _ & B). done.
  - split; [reflexivity|]. split; [done|]. split; [done|]. split; [done|].
    intros d Hd. by apply elem_of_nil in Hd.
  - clear Hrun. intros pre d post a u a' u' Hxs (G & Hwfu & Hk & Hrest & B) Hbody.
    apply bind_ok in Hbody as ([] & u1 & Hm & Hbody).
    pose proof (proj1 (mkdir_sound _ _ _ _ Hm)) as Hcr.
    pose proof (created_grows _ _ _ Hcr) as Guu1.
    pose proof (created_wf _ _ _ Hcr Hwfu) as Hwfu1.
    apply mkdir_ok in Hm as (Ex & _ & D1 & _).
    apply exists_false in Ex as [Hfresh _].
    assert (d ∉ pre) as Hd by (intros Hd; by apply B in Hd as [? _]).
    assert (d ∈ DefaultDict.keys m0) as Hdk.
    { rewrite Hxs. apply elem_of_app. right. apply list_elem_of_here. }
    apply dd_lookup_is_Some in Hdk as [csvs Hcsvs].
    assert (DefaultDict.lookup d a = Some csvs) as Ha by (by rewrite Hrest).
    unfold DefaultDict.getitem in Hbody. rewrite Ha in Hbody.
    apply bind_ok in Hbody as (new & u2 & Hin & Hbody). injection Hbody as <- <-.
    apply import_replicates_ok in Hin as (Gin & Hwfu2 & -> & Bin); [|done|].
    2:{ intros r csv Hrc. apply elem_of_zip_range in Hrc as [_ Hrc].
        apply Guu1, G. eapply Hparents; [done|]. by eapply list_elem_of_lookup_2. }
    assert (grows u u2) as Guu2 by (by etrans).
    split_and!.
    + by etrans.
    + done.
    + rewrite dd_keys_setitem_present; [done|]. by eapply dd_lookup_Some_keys.
    + intros k Hk'. rewrite not_elem_of_app, not_elem_of_cons in Hk'.
      destruct Hk' as (Hk1 & Hk2 & _).
      rewrite dd_lookup_setitem. case_decide; [done | by apply Hrest].
    + intros d' Hd'. apply elem_of_app in Hd' as [Hd'|Hd'].
      * destruct (B d' Hd') as (Hi & Ho & csvs' & H1 & H2 & H3).
        split_and!; [by apply Guu2 | done |].
        exists csvs'. split; [done|]. split.
        -- rewrite dd_lookup_setitem. case_decide; [by subst | done].
        -- intros r csv Hr Hl. eapply imported_grows; [by eapply H3 | done].
      * apply list_elem_of_singleton in Hd' as ->. split_and!.
        -- apply Gin. rewrite D1. set_solver.
        -- intros Hi. apply Hfresh. by apply G.
        -- exists csvs. split; [done|]. split.
           ++ rewrite dd_lookup_setitem. case_decide; [done | done].
           ++ intros r csv Hr Hl.
              eapply imported_since; [apply Bin | by etrans |].
              ** by apply elem_of_zip_range.
              ** eapply Hparents; [done|]. by eapply list_elem_of_lookup_2.
Qed.

(** The manifest lists files of the scan only. *)
Lemma group_members csv_paths acc m d csvs csv :
  group_by_train_dur csv_paths acc = Ok m ->
  DefaultDict.lookup d m = Some csvs -> csv ∈ csvs ->
  csv ∈ csv_paths \/ csv ∈ dd_get d acc.
Proof.
  revert acc. induction csv_paths as [|p rest IH]; intros acc Hg Hl Hin; simpl in Hg.
  - injection Hg as <-. right. unfold dd_get. by rewrite Hl.
  - destruct (parse_train_dur p) as [z|e]; [|done].
    destruct (IH _ Hg Hl Hin) as [H|H].
    + left. by apply list_elem_of_further.
    + unfold dd_get in H. rewrite dd_lookup_append in H. case_decide.
      * subst. simpl in H. apply elem_of_app in H as [H|H]; [by right|].
        apply list_elem_of_singleton in H as ->. left. apply list_elem_of_here.
      * by right.
Qed.

Lemma glob_entry root pat fs p :
  p ∈ Fs.glob root pat fs -> p ∈ Fs.dirs fs \/ is_Some (Fs.files fs !! p).
Proof.
  unfold Fs.glob, Fs.entries. intros H.
  apply list_elem_of_In, filter_In in H as [H _]. apply list_elem_of_In in H.
  apply elem_of_elements, elem_of_union in H as [H|H]; [by left|].
  right. by apply elem_of_dom.
Qed.

Lemma wf_parent fs p :
  Fs.wf fs -> p ∈ Fs.dirs fs \/ is_Some (Fs.files fs !! p) -> Fs.parent p ∈ Fs.dirs fs.
Proof.
  intros [Hd Hf] [H|[c H]].
  - by apply (Hd _ H).
  - by apply (Hf _ _ H).
Qed.

(** A completed run of [from_dir] on a tree. *)
Lemma from_dir_ok prev durs tb n res ws sk tk lm w m w' :
  from_dir prev durs tb n res ws sk tk lm w = (Ok m, w') ->
  Fs.wf (w_fs w) ->
  exists m0,
    group_by_train_dur (Py.sorted_paths (Fs.glob prev CSV_GLOB (w_fs w)))
      DefaultDict.empty = Ok m0 /\
    check_shape m0 durs n = Ok tt /\
    grows w w' /\
    DefaultDict.keys m = DefaultDict.keys m0 /\
    forall d, d ∈ DefaultDict.keys m0 ->
      (train_dur_dir res d ∈ wdirs w') /\ (train_dur_dir res d ∉ wdirs w) /\
      exists csvs,
        DefaultDict.lookup d m0 = Some csvs /\
        DefaultDict.lookup d m = Some (copied_paths res d csvs) /\
        forall r csv, 1 <= r -> csvs !! Z.to_nat (r - 1) = Some csv ->
                      imported res w w' d r csv.
Proof.
  intros Hrun Hwf. unfold from_dir in Hrun. rewrite from_dir_listed_unfold in Hrun.
  destruct (group_by_train_dur _ _) as [m0|e] eqn:Hg; [|done].
  destruct (check_shape m0 durs n) as [[]|e] eqn:Hc; [|done].
  exists m0. split; [done|]. split; [done|].
  apply copy_subsets_ok in Hrun as (G & _ & Hk & B); [done | done |].
  intros d csvs csv Hl Hin. simpl.
  apply wf_parent; [done|]. eapply (glob_entry prev CSV_GLOB).
  destruct (group_members _ _ _ _ _ _ Hg Hl Hin) as [H|H].
  - unfold Py.sorted_paths in H. by rewrite merge_sort_Permutation in H.
  - by apply elem_of_nil in H.
Qed.

(** The mapping returned by [from_dir] has the keys of the manifest, each
    with as many paths as the manifest had files; no assumption on the
    file system is needed for this. *)
Lemma import_replicate_length D d tb ws sk tk lm item acc v acc' v' :
  import_replicate D d tb ws sk tk lm item acc v = (Ok acc', v') ->
  length acc' = S (length acc).
Proof.
  intros Hrun. unfold import_replicate in Hrun. destruct item as [r csv].
  apply bind_ok in Hrun as ([] & v1 & _ & Hrun). unfold import_into in Hrun.
  apply bind_ok in Hrun as (copied & v2 & _ & Hrun).
  apply bind_ok in Hrun as (t & v3 & _ & Hrun).
  apply bind_ok in Hrun as (vecs & v4 & _ & Hrun).
  apply bind_ok in Hrun as ([] & v5 & _ & Hrun).
  apply bind_ok in Hrun as ([] & v6 & _ & Hrun).
  injection Hrun as <- <-. rewrite length_app. simpl. lia.
Qed.

Lemma import_replicates_length D d tb ws sk tk lm items acc v acc' v' :
  for_ items (import_replicate D d tb ws sk tk lm) acc v = (Ok acc', v') ->
  length acc' = (length acc + length items)%nat.
Proof.
  revert acc v. induction items as [|item items IH]; intros acc v Hrun; simpl in Hrun.
  - injection Hrun as <- <-. simpl. lia.
  - apply bind_ok in Hrun as (a1 & v1 & Hb & Hrun).
    apply import_replicate_length in Hb. apply IH in Hrun. simpl. lia.
Qed.

Lemma copy_subsets_shape res tb ws sk tk lm m0 w m w' n :
  copy_subsets res tb ws sk tk lm m0 w = (Ok m, w') ->
  Forall (fun ps => Py.len ps = n) (DefaultDict.values m0) ->
  DefaultDict.keys m = DefaultDict.keys m0 /\
  Forall (fun ps => Py.len ps = n) (DefaultDict.values m).
Proof.
  intros Hrun Hlen. unfold copy_subsets in Hrun.
  apply (for_ok_inv (fun pre a u =>
    DefaultDict.keys a = DefaultDict.keys m0 /\
    Forall (fun ps => Py.len ps = n) (DefaultDict.values a))) in Hrun; [done | done |].
  clear Hrun. intros pre d post a u a' u' Hxs [Hk Hl] Hbody.
  apply bind_ok in Hbody as ([] & u1 & _ & Hbody).
  assert (d ∈ DefaultDict.keys a) as Hdk.
  { rewrite Hk, Hxs. apply elem_of_app. right. apply list_elem_of_here. }
  pose proof Hdk as Hdk'. apply dd_lookup_is_Some in Hdk' as [csvs Hcsvs].
  unfold DefaultDict.getitem in Hbody. rewrite Hcsvs in Hbody.
  apply bind_ok in Hbody as (new & u2 & Hin & Hbody). injection Hbody as <- <-.
  apply import_replicates_length in Hin. split.
  - rewrite dd_keys_setitem_present; done.
  - apply Forall_forall. intros ps Hps. rewrite Forall_forall in Hl.
    apply dd_values_setitem in Hps as [->|Hps]; [|by apply Hl].
    apply dd_lookup_Some_values, Hl in Hcsvs. unfold Py.len in *.
    rewrite Hin. simpl. rewrite length_zip_with, length_range. lia.
Qed.

Lemma from_dir_shape prev durs tb n res ws sk tk lm w m w' :
  from_dir prev durs tb n res ws sk tk lm w = (Ok m, w') ->
  list_to_set (C := gset Z) (DefaultDict.keys m) = list_to_set durs /\
  forall d ps, DefaultDict.lookup d m = Some ps -> Py.len ps = n.
Proof.
  intros Hrun. unfold from_dir in Hrun. rewrite from_dir_listed_unfold in Hrun.
  destruct (group_by_train_dur _ _) as [m0|e] eqn:Hg; [|done].
  destruct (check_shape m0 durs n) as [[]|e] eqn:Hc; [|done].
  apply (proj1 (check_shape_ok m0 durs n)) in Hc as [Hkeys Hlen].
  apply (copy_subsets_shape _ _ _ _ _ _ _ _ _ _ n) in Hrun as [Hk Hl]; [|done].
  split.
  - rewrite Hk. by apply keys_set_sorted.
  - intros d ps Hps. apply dd_lookup_Some_values in Hps.
    rewrite Forall_forall in Hl. by apply Hl.
Qed.

Lemma from_df_shape full csv durs tb n res ls ws sk tk lm w m w' :
  from_df full csv durs tb n res ls ws sk tk lm w = (Ok m, w') ->
  (forall k, k ∈ DefaultDict.keys m -> k ∈ durs) /\
  (1 <= n ->
   list_to_set (C := gset Z) (DefaultDict.keys m) = list_to_set durs /\
   forall d ps, DefaultDict.lookup d m = Some ps -> Py.len ps = n).
Proof.
  intros Hrun. apply from_df_ok in Hrun as (_ & _ & K & Dg & Ks).
  split; [intros k Hk; by apply K, dd_lookup_is_Some|].
  intros Hn.
  assert (Py.range 1 (n + 1) <> []) as Hne.
  { intros E. apply (f_equal length) in E. rewrite length_range in E. simpl in E. lia. }
  split.
  - apply set_eq. intros k. rewrite !elem_of_list_to_set. split.
    + intros Hk. by apply K, dd_lookup_is_Some.
    + intros Hk. by apply dd_lookup_is_Some, Ks.
  - intros d ps Hps. assert (d ∈ durs) as Hd by (apply K; eauto).
    specialize (Dg d Hd). unfold dd_get in Dg. rewrite Hps in Dg. simpl in Dg.
    subst ps. unfold Py.len. rewrite length_map, length_range. lia.
Qed.

(** *** Claims about the result and the files left on disk *)

(** C1 (amended). For every completed call of [from_dir], and, apart from
    it, for every completed call of [from_df] with [num_replicates >= 1],
    the set of keys of the returned mapping is the set of requested
    durations, and every key is bound to exactly [num_replicates] paths. *)
Theorem result_mapping_shape :
  (forall prev durs tb n res ws sk tk lm (w w' : world) (m : DefaultDict.t),
     from_dir prev durs tb n res ws sk tk lm w = (Ok m, w') ->
     list_to_set (C := gset Z) (DefaultDict.keys m) = list_to_set durs /\
     forall d ps, DefaultDict.lookup d m = Some ps -> Py.len ps = n) /\
  (forall full csv durs tb n res ls ws sk tk lm (w w' : world) (m : DefaultDict.t),
     1 <= n ->
     from_df full csv durs tb n res ls ws sk tk lm w = (Ok m, w') ->
     list_to_set (C := gset Z) (DefaultDict.keys m) = list_to_set durs /\
     forall d ps, DefaultDict.lookup d m = Some ps -> Py.len ps = n).
Proof.
  split.
  - intros prev durs tb n res ws sk tk lm w w' m Hrun. by eapply from_dir_shape.
  - intros full csv durs tb n res ls ws sk tk lm w w' m Hn Hrun.
    eapply from_df_shape; [exact Hrun | exact Hn].
Qed.

(** C10. The mapping returned by a completed call of [from_dir], and,
    apart from it, the mapping returned by a completed call of [from_df],
    is a [defaultdict(list)]: indexing it with a duration that was not
    requested yields the empty list and binds that duration to the empty
    list, at the end of the mapping. *)
Theorem unrequested_duration_yields_empty_list :
  (forall prev durs tb n res ws sk tk lm (w w' : world) (m : DefaultDict.t) (d : Z),
     d ∉ durs ->
     from_dir prev durs tb n res ws sk tk lm w = (Ok m, w') ->
     DefaultDict.getitem d m = ([], (m ++ [(d, [])])%list)) /\
  (forall full csv durs tb n res ls ws sk tk lm (w w' : world) (m : DefaultDict.t)
          (d : Z),
     d ∉ durs ->
     from_df full csv durs tb n res ls ws sk tk lm w = (Ok m, w') ->
     DefaultDict.getitem d m = ([], (m ++ [(d, [])])%list)).
Proof.
  assert (forall d m, d ∉ DefaultDict.keys m ->
            DefaultDict.getitem d m = ([], (m ++ [(d, [])])%list)) as Hget.
  { intros d m Hm. apply dd_lookup_None in Hm. unfold DefaultDict.getitem.
    rewrite Hm. by rewrite dd_setitem_missing. }
  split.
  - intros prev durs tb n res ws sk tk lm w w' m d Hd Hrun. apply Hget.
    apply from_dir_shape in Hrun as [Hk _]. intros Hin. apply Hd.
    apply (elem_of_list_to_set (C := gset Z)). rewrite <- Hk.
    by apply elem_of_list_to_set.
  - intros full csv durs tb n res ls ws sk tk lm w w' m d Hd Hrun. apply Hget.
    apply from_df_shape in Hrun as [Hk _]. intros Hin. by apply Hd, Hk.
Qed.

(** C5 (amended). After a completed run of [from_dir] on a tree, for every
    duration [d] of the manifest and every table [csv] of that duration,
    numbered [r] from 1 in the manifest, each of the three array files of
    the replicate directory holds what the array file of the same name
    beside [csv] held before the run: the copies of the previous run's
    arrays are what is left on disk, not the recomputed arrays. *)
Theorem from_dir_keeps_previous_arrays
    prev durs tb n res ws sk tk lm (w : world) m w' m0 d csvs r csv vec_name :
  Fs.wf (w_fs w) ->
  from_dir prev durs tb n res ws sk tk lm w = (Ok m, w') ->
  group_by_train_dur (Py.sorted_paths (Fs.glob prev CSV_GLOB (w_fs w)))
    DefaultDict.empty = Ok m0 ->
  DefaultDict.lookup d m0 = Some csvs ->
  1 <= r -> csvs !! Z.to_nat (r - 1) = Some csv ->
  vec_name ∈ vec_names ->
  exists c,
    wfiles w !! legacy_vec_path csv vec_name = Some c /\
    wfiles w' !! replicate_vec_path res d r vec_name = Some c.
Proof.
  intros Hwf Hrun Hg Hl Hr Hcsv Hvn.
  apply from_dir_ok in Hrun as (m0' & Hg' & _ & _ & _ & B); [|done].
  rewrite Hg in Hg'. injection Hg' as <-.
  destruct (B d) as (_ & _ & csvs' & Hl' & _ & Hi); [by eapply dd_lookup_Some_keys|].
  rewrite Hl in Hl'. injection Hl' as <-.
  destruct (Hi r csv Hr Hcsv) as (_ & _ & Hv). by apply Hv.
Qed.

(** C8. Creating a directory that exists raises [FileExistsError] and
    changes nothing.  So when the directory of a requested duration, or of
    one of its replicates, is there before the call, neither [from_df] nor
    [from_dir] completes, and whatever they did before failing left the
    files of that directory as they were. *)
Theorem existing_directory_is_fatal
    full csv prev durs tb n res ls ws sk tk lm (w : world) (p : path) (d : Z) :
  p ∈ wdirs w ->
  d ∈ durs ->
  p = train_dur_dir res d \/
  (exists r, 1 <= r <= n /\ p = replicate_dir (train_dur_dir res d) r) ->
  mkdir p w = (Err (FileExistsError p), w) /\
  (exists e, (from_df full csv durs tb n res ls ws sk tk lm w).1 = Err e) /\
  (forall q, Fs.parent q = p ->
     wfiles (from_df full csv durs tb n res ls ws sk tk lm w).2 !! q = wfiles w !! q) /\
  (Fs.wf (w_fs w) ->
   (exists e, (from_dir prev durs tb n res ws sk tk lm w).1 = Err e) /\
   (forall q, Fs.parent q = p ->
      wfiles (from_dir prev durs tb n res ws sk tk lm w).2 !! q = wfiles w !! q)).
Proof.
  intros Hp Hd Hwhich. split_and!.
  - apply mkdir_exists. unfold Fs.exists_. apply orb_true_iff. left.
    by apply is_dir_true.
  - destruct (from_df full csv durs tb n res ls ws sk tk lm w) as [[m|e] w'] eqn:Hrun;
      [|by eexists].
    exfalso. apply from_df_ok in Hrun as (_ & B & _).
    destruct (B d Hd) as (_ & Hfresh & Hb).
    destruct Hwhich as [->|(r & Hr & ->)]; [done|].
    destruct (Hb r) as (_ & Hfresh' & _); [apply elem_of_range; lia | done].
  - intros q Hq.
    destruct (from_df full csv durs tb n res ls ws sk tk lm w) as [r w'] eqn:Hrun.
    apply from_df_grows in Hrun as [[_ F] _]. simpl. apply F. by rewrite Hq.
  - intros Hwf. split.
    + destruct (from_dir prev durs tb n res ws sk tk lm w) as [[m|e] w'] eqn:Hrun;
        [|by eexists].
      exfalso. apply from_dir_ok in Hrun as (m0 & _ & Hc & _ & _ & B); [|done].
      apply (proj1 (check_shape_ok m0 durs n)) in Hc as [Hkeys Hlen].
      apply keys_set_sorted in Hkeys.
      assert (d ∈ DefaultDict.keys m0) as Hdk.
      { apply (elem_of_list_to_set (C := gset Z)). rewrite Hkeys.
        by apply elem_of_list_to_set. }
      destruct (B d Hdk) as (_ & Hfresh & csvs & Hl & _ & Hi).
      destruct Hwhich as [->|(r & Hr & ->)]; [done|].
      apply dd_lookup_Some_values in Hl. rewrite Forall_forall in Hlen.
      apply Hlen in Hl. unfold Py.len in Hl.
      destruct (lookup_lt_is_Some_2 csvs (Z.to_nat (r - 1))) as [src Hsrc]; [lia|].
      destruct (Hi r src) as (_ & Hfresh' & _); [lia | done | done].
    + intros q Hq.
      destruct (from_dir prev durs tb n res ws sk tk lm w) as [r w'] eqn:Hrun.
      unfold from_dir in Hrun. apply from_dir_listed_grows in Hrun as [G _].
      destruct (G Hwf) as [[_ F] _]. simpl. apply F. by rewrite Hq.
Qed.

(** *** The manifest of [from_dir] *)

Lemma dd_keys_setitem_missing k v m :
  DefaultDict.lookup k m = None ->
  DefaultDict.keys (DefaultDict.setitem k v m) = (DefaultDict.keys m ++ [k])%list.
Proof.
  intros H. rewrite dd_setitem_missing by done. unfold DefaultDict.keys.
  by rewrite fmap_app.
Qed.

Lemma dd_nodup_setitem k v m :
  NoDup (DefaultDict.keys m) -> NoDup (DefaultDict.keys (DefaultDict.setitem k v m)).
Proof.
  intros Hnd. destruct (DefaultDict.lookup k m) eqn:E.
  - rewrite dd_keys_setitem_present; [done | by eapply dd_lookup_Some_keys].
  - rewrite dd_keys_setitem_missing by done. apply NoDup_app. split; [done|].
    split; [|apply NoDup_singleton].
    intros x Hx Hin. apply list_elem_of_singleton in Hin as ->.
    by apply dd_lookup_None in E.
Qed.

Lemma dd_nodup_append k p m :
  NoDup (DefaultDict.keys m) -> NoDup (DefaultDict.keys (DefaultDict.append k p m)).
Proof.
  intros Hnd. unfold DefaultDict.append, DefaultDict.getitem.
  destruct (DefaultDict.lookup k m); by repeat apply dd_nodup_setitem.
Qed.

Lemma dd_get_append k p m k' :
  dd_get k' (DefaultDict.append k p m)
  = if decide (k' = k) then (dd_get k m ++ [p])%list else dd_get k' m.
Proof. unfold dd_get at 1. rewrite dd_lookup_append. by case_decide. Qed.

Lemma group_nodup csv_paths acc m :
  NoDup (DefaultDict.keys acc) -> group_by_train_dur csv_paths acc = Ok m ->
  NoDup (DefaultDict.keys m).
Proof.
  revert acc. induction csv_paths as [|p rest IH]; intros acc Hnd Hg; simpl in Hg.
  - by injection Hg as <-.
  - destruct (parse_train_dur p) as [z|e]; [|done].
    eapply IH; [|done]. by apply dd_nodup_append.
Qed.

Lemma group_get csv_paths acc m d :
  group_by_train_dur csv_paths acc = Ok m ->
  dd_get d m = (dd_get d acc ++ List.filter (encodes d) csv_paths)%list.
Proof.
  revert acc. induction csv_paths as [|p rest IH]; intros acc Hg; simpl in Hg.
  - injection Hg as <-. simpl. by rewrite app_nil_r.
  - destruct (parse_train_dur p) as [z|e] eqn:E; [|done].
    assert (encodes d p = Z.eqb z d) as Henc by (unfold encodes; by rewrite E).
    simpl. rewrite (IH _ Hg), dd_get_append, Henc.
    destruct (Z.eqb_spec z d) as [->|Hne].
    + rewrite decide_True by done. by rewrite <- app_assoc.
    + rewrite decide_False by done. done.
Qed.

Lemma group_keys csv_paths acc m d :
  group_by_train_dur csv_paths acc = Ok m ->
  d ∈ DefaultDict.keys m <->
  d ∈ DefaultDict.keys acc \/ exists p, p ∈ csv_paths /\ parse_train_dur p = Ok d.
Proof.
  revert acc. induction csv_paths as [|p rest IH]; intros acc Hg; simpl in Hg.
  - injection Hg as <-. split; [by left|].
    intros [?|(p & Hp & _)]; [done | by apply elem_of_nil in Hp].
  - destruct (parse_train_dur p) as [z|e] eqn:E; [|done].
    rewrite (IH _ Hg).
    rewrite <- !(elem_of_list_to_set (C := gset Z)), dd_keys_append,
      elem_of_union, elem_of_singleton.
    split.
    + intros [[->|?]|(q & Hq & Hd)]; [right | by left | right].
      * exists p. split; [apply list_elem_of_here | done].
      * exists q. split; [by apply list_elem_of_further | done].
    + intros [?|(q & Hq & Hd)]; [by left; right|].
      apply elem_of_cons in Hq as [->|Hq].
      * left. left. congruence.
      * right. eauto.
Qed.

Lemma strongly_sorted_filter {A} (R : relation A) (f : A -> bool) l :
  StronglySorted R l -> StronglySorted R (List.filter f l).
Proof.
  induction 1 as [|x l Hl IH Hx]; simpl; [constructor|].
  destruct (f x); [|done]. constructor; [done|].
  apply Forall_forall. intros y Hy. rewrite Forall_forall in Hx. apply Hx.
  apply list_elem_of_In, filter_In in Hy as [Hy _]. by apply list_elem_of_In.
Qed.

(** X1. The manifest built by the first loop of [from_dir] has one key per
    duration encoded in a discovered name, and binds each key to the
    discovered files whose name encodes it, in sorted order: the replicate
    number of a file is its rank among the files of its duration. *)
Theorem manifest_groups_sorted_files (listing : list path) (m : DefaultDict.t) :
  group_by_train_dur (Py.sorted_paths listing) DefaultDict.empty = Ok m ->
  NoDup (DefaultDict.keys m) /\
  (forall d, d ∈ DefaultDict.keys m <->
             exists p, p ∈ listing /\ parse_train_dur p = Ok d) /\
  (forall d csvs, DefaultDict.lookup d m = Some csvs ->
     csvs = List.filter (encodes d) (Py.sorted_paths listing) /\
     csvs <> [] /\ StronglySorted Py.path_le csvs).
Proof.
  intros Hg. split_and!.
  - eapply group_nodup; [|done]. apply NoDup_nil_2.
  - intros d. rewrite (group_keys _ _ _ d Hg). split.
    + intros [H|(p & Hp & Hd)]; [by apply elem_of_nil in H|].
      exists p. split; [|done].
      unfold Py.sorted_paths in Hp. by rewrite merge_sort_Permutation in Hp.
    + intros (p & Hp & Hd). right. exists p. split; [|done].
      unfold Py.sorted_paths. by rewrite merge_sort_Permutation.
  - intros d csvs Hl.
    pose proof (group_get _ _ _ d Hg) as Hget. unfold dd_get in Hget.
    rewrite Hl in Hget. simpl in Hget. subst csvs. split; [done|]. split.
    + apply dd_lookup_Some_keys in Hl.
      apply (group_keys _ _ _ d Hg) in Hl as [H|(p & Hp & Hd)];
        [by apply elem_of_nil in H|].
      intros Hnil.
      assert (p ∈ List.filter (encodes d) (Py.sorted_paths listing)) as Hin.
      { apply list_elem_of_In, filter_In. split; [by apply list_elem_of_In|].
        unfold encodes. rewrite Hd. apply Z.eqb_refl. }
      rewrite Hnil in Hin. by apply elem_of_nil in Hin.
    + apply strongly_sorted_filter. unfold Py.sorted_paths.
      apply StronglySorted_merge_sort; apply _.
Qed.

(** *** Shape of the scan, duplicates and empty inputs *)

Lemma sorted_ints_perm_inv (l1 l2 : list Z) :
  Py.sorted_ints l1 = Py.sorted_ints l2 -> l1 ≡ₚ l2.
Proof.
  unfold Py.sorted_ints. intros H.
  rewrite <- (merge_sort_Permutation Z.le l1), <- (merge_sort_Permutation Z.le l2).
  by rewrite H.
Qed.

Lemma from_dir_ok_manifest prev durs tb n res ws sk tk lm w m w' :
  from_dir prev durs tb n res ws sk tk lm w = (Ok m, w') ->
  exists m0,
    group_by_train_dur (Py.sorted_paths (Fs.glob prev CSV_GLOB (w_fs w)))
      DefaultDict.empty = Ok m0 /\
    check_shape m0 durs n = Ok tt.
Proof.
  intros Hrun. unfold from_dir in Hrun. rewrite from_dir_listed_unfold in Hrun.
  destruct (group_by_train_dur _ _) as [m0|e] eqn:Hg; [|done].
  destruct (check_shape m0 durs n) as [[]|e] eqn:Hc; [|done]. eauto.
Qed.

(** X2. [from_dir] completes only on a scan of the exact requested shape:
    the requested durations are pairwise distinct, every discovered file
    encodes one of them, and each of them is encoded by exactly
    [num_replicates] discovered files. *)
Theorem from_dir_completes_only_on_exact_shape
    prev durs tb n res ws sk tk lm (w : world) m w' :
  from_dir prev durs tb n res ws sk tk lm w = (Ok m, w') ->
  NoDup durs /\
  (forall p, p ∈ Fs.glob prev CSV_GLOB (w_fs w) ->
             exists d, d ∈ durs /\ parse_train_dur p = Ok d) /\
  (forall d, d ∈ durs ->
     Py.len (List.filter (encodes d)
               (Py.sorted_paths (Fs.glob prev CSV_GLOB (w_fs w)))) = n).
Proof.
  intros Hrun. apply from_dir_ok_manifest in Hrun as (m0 & Hg & Hc).
  apply (proj1 (check_shape_ok m0 durs n)) in Hc as [Hkeys Hlen].
  apply sorted_ints_perm_inv in Hkeys.
  assert (NoDup (DefaultDict.keys m0)) as Hnd
    by (eapply group_nodup; [|done]; apply NoDup_nil_2).
  split_and!.
  - by rewrite <- Hkeys.
  - intros p Hp.
    assert (p ∈ Py.sorted_paths (Fs.glob prev CSV_GLOB (w_fs w))) as Hp'
      by (unfold Py.sorted_paths; by rewrite merge_sort_Permutation).
    destruct (parse_train_dur p) as [d|e] eqn:E.
    + exists d. split; [|done]. rewrite <- Hkeys.
      apply (group_keys _ _ _ d Hg). right. eauto.
    + exfalso. clear -Hg Hp' E. revert Hg Hp'. generalize DefaultDict.empty.
      induction (Py.sorted_paths _) as [|q rest IH]; intros acc Hg Hp'.
      * by apply elem_of_nil in Hp'.
      * simpl in Hg. apply elem_of_cons in Hp' as [->|Hp'].
        -- by rewrite E in Hg.
        -- destruct (parse_train_dur q); [by eapply IH | done].
  - intros d Hd. rewrite <- Hkeys in Hd.
    apply dd_lookup_is_Some in Hd as [csvs Hl].
    pose proof (group_get _ _ _ d Hg) as Hget. unfold dd_get in Hget.
    rewrite Hl in Hget. simpl in Hget. rewrite <- Hget.
    apply dd_lookup_Some_values in Hl. rewrite Forall_forall in Hlen. by apply Hlen.
Qed.

Lemma from_df_nodup full csv durs tb n res ls ws sk tk lm w m w' :
  from_df full csv durs tb n res ls ws sk tk lm w = (Ok m, w') -> NoDup durs.
Proof.
  intros Hrun. unfold from_df in Hrun.
  apply (for_ok_inv (fun pre (a : DefaultDict.t) v =>
    NoDup pre /\ forall d, d ∈ pre -> train_dur_dir res d ∈ wdirs v)) in Hrun.
  - by destruct Hrun.
  - split; [apply NoDup_nil_2 | intros d Hd; by apply elem_of_nil in Hd].
  - clear Hrun. intros pre d post a v a' v' _ [Hnd Hin] Hbody.
    apply bind_ok in Hbody as ([] & v0 & Hlog & Hbody).
    apply log_or_print_ok in Hlog.
    apply bind_ok in Hbody as ([] & v1 & Hm & Hbody).
    apply mkdir_ok in Hm as (Ex & _ & D1 & _).
    apply exists_false in Ex as [Hfresh _]. rewrite Hlog in Hfresh, D1.
    assert (sound grows io_error
              (for_ (Py.range 1 (n + 1))
                 (build_replicate full csv (train_dur_dir res d) d tb ls ws sk tk lm) a))
      as Hs by (apply sound_for; [apply _|]; intros; apply build_replicate_grows).
    apply Hs in Hbody as [[Hsub _] _].
    split.
    + apply NoDup_app. split; [done|]. split; [|apply NoDup_singleton].
      intros x Hx Hx'. apply list_elem_of_singleton in Hx' as ->.
      by apply Hfresh, Hin.
    + intros d' Hd'. apply Hsub. rewrite D1.
      apply elem_of_app in Hd' as [Hd'|Hd'].
      * apply elem_of_union. right. by apply Hin.
      * apply list_elem_of_singleton in Hd' as ->. set_solver.
Qed.

(** X3. A duration requested twice is fatal: [from_dir] raises during
    validation, before touching anything, and [from_df] never completes
    (its second [mkdir] of the same directory fails). *)
Theorem duplicate_durations_are_fatal
    full csv prev durs tb n res ls ws sk tk lm (w : world) :
  ~ NoDup durs ->
  (exists e, from_dir prev durs tb n res ws sk tk lm w = (Err e, w)) /\
  (exists e, (from_df full csv durs tb n res ls ws sk tk lm w).1 = Err e).
Proof.
  intros Hdup. split.
  - unfold from_dir. rewrite from_dir_listed_unfold.
    destruct (group_by_train_dur _ _) as [m0|e] eqn:Hg; [|by eexists].
    destruct (check_shape m0 durs n) as [[]|e] eqn:Hc; [|by eexists].
    exfalso. apply Hdup.
    apply (proj1 (check_shape_ok m0 durs n)) in Hc as [Hkeys _].
    apply sorted_ints_perm_inv in Hkeys. rewrite <- Hkeys.
    eapply group_nodup; [|done]; apply NoDup_nil_2.
  - destruct (from_df full csv durs tb n res ls ws sk tk lm w) as [[m|e] w'] eqn:Hrun;
      [|by eexists].
    exfalso. by apply Hdup, (from_df_nodup _ _ _ _ _ _ _ _ _ _ _ _ _ _ Hrun).
Qed.

(** X4. When the scan finds no file, [from_dir] completes only if no
    duration was requested: it then returns the empty mapping and creates
    nothing; otherwise it reports the requested durations as missing and
    leaves the world as it was. *)
Theorem from_dir_empty_scan prev durs tb n res ws sk tk lm (w : world) :
  Fs.glob prev CSV_GLOB (w_fs w) = [] ->
  (durs = [] ->
   from_dir prev durs tb n res ws sk tk lm w
   = (Ok [], {| w_fs := w_fs w; w_rng := w_rng w;
                w_trace := (w_trace w ++ [Logged])%list |})) /\
  (durs <> [] ->
   from_dir prev durs tb n res ws sk tk lm w
   = (Err (ValueError_durations_mismatch (Py.sorted_ints durs) []), w)).
Proof.
  intros Hglob. unfold from_dir. rewrite Hglob, from_dir_listed_unfold.
  change (Py.sorted_paths []) with (@nil path). simpl.
  split.
  - intros ->. reflexivity.
  - intros Hne. unfold check_shape. simpl.
    change (Py.sorted_ints []) with (@nil Z).
    rewrite bool_decide_eq_false_2; [done|].
    intros Heq. apply Hne.
    assert (durs ≡ₚ []) as HP.
    { unfold Py.sorted_ints in Heq.
      by rewrite <- (merge_sort_Permutation Z.le durs), <- Heq. }
    by apply Permutation_nil_r in HP.
Qed.

Lemma range_empty a b : b <= a -> Py.range a b = [].
Proof. intros H. unfold Py.range. by replace (Z.to_nat (b - a)) with 0%nat by lia. Qed.

(** X5. With [num_replicates <= 0] the replicate loop of [from_df] has no
    iteration: every run only logs and creates per-duration directories;
    no collaborator is called, no file is written, and a completed run
    returns the empty mapping. *)
Theorem zero_replicates_build_only_directories
    full csv durs tb n res ls ws sk tk lm (w : world) r w' :
  n <= 0 ->
  from_df full csv durs tb n res ls ws sk tk lm w = (r, w') ->
  wfiles w' = wfiles w /\
  (exists k, w_trace w' = (w_trace w ++ replicate k Logged)%list) /\
  (forall m, r = Ok m ->
     m = [] /\
     wdirs w' = list_to_set (train_dur_dir res <$> durs) ∪ wdirs w).
Proof.
  intros Hn. unfold from_df. rewrite (range_empty 1 (n + 1)) by lia.
  change (@nil (Z * list path)) with DefaultDict.empty.
  generalize DefaultDict.empty. revert w.
  induction durs as [|d durs IH]; intros w acc Hrun; simpl in Hrun.
  - injection Hrun as <- <-. split; [done|]. split.
    + exists 0%nat. simpl. by rewrite app_nil_r.
    + intros m [= <-]. split; [done|]. simpl. set_solver.
  - apply bind_inv in Hrun as [(acc1 & w3 & Hbody & Hrun)|(e & Hbody & ->)].
    + apply bind_ok in Hbody as ([] & w1 & Hlog & Hbody).
      injection Hlog as <-.
      apply bind_ok in Hbody as ([] & w2 & Hm & Hbody).
      injection Hbody as <- <-.
      apply mkdir_ok in Hm as (_ & _ & D2 & F2 & T2). simpl in D2, F2, T2.
      apply IH in Hrun as (F & (k & T) & Hok).
      split; [by rewrite F, F2|]. split.
      * exists (S k). by rewrite T, T2, <- app_assoc.
      * intros m ->. destruct (Hok m eq_refl) as [Hacc Hd]. split; [done|].
        rewrite Hd, D2. simpl. set_solver.
    + split_and!; [| |done].
      * apply bind_inv in Hbody as [(u1 & w1 & Hlog & Hbody)|(e1 & Hlog & _)];
          [|done].
        injection Hlog as <- <-.
        apply bind_inv in Hbody as [(u2 & w2 & Hm & Hbody)|(e2 & Hm & _)];
          [done|].
        apply mkdir_sound in Hm as [[->|(_ & _ & _ & F & _)] _]; done.
      * apply bind_inv in Hbody as [(u1 & w1 & Hlog & Hbody)|(e1 & Hlog & _)];
          [|done].
        injection Hlog as <- <-.
        apply bind_inv in Hbody as [(u2 & w2 & Hm & Hbody)|(e2 & Hm & _)];
          [done|].
        exists 1%nat.
        apply mkdir_sound in Hm as [[->|(_ & _ & _ & _ & T)] _]; [done|].
        by rewrite T.
Qed.

(** X6. Neither function modifies or removes what was on disk before the
    call: on a tree, after any run of [from_df] or of [from_dir], completed
    or not, every directory that existed still exists and every file that
    existed holds what it held. *)
Theorem runs_leave_existing_files_untouched
    full csv prev durs tb n res ls ws sk tk lm (w : world) :
  Fs.wf (w_fs w) ->
  (wdirs w ⊆ wdirs (from_df full csv durs tb n res ls ws sk tk lm w).2 /\
   forall p c, wfiles w !! p = Some c ->
     wfiles (from_df full csv durs tb n res ls ws sk tk lm w).2 !! p = Some c) /\
  (wdirs w ⊆ wdirs (from_dir prev durs tb n res ws sk tk lm w).2 /\
   forall p c, wfiles w !! p = Some c ->
     wfiles (from_dir prev durs tb n res ws sk tk lm w).2 !! p = Some c).
Proof.
  intros Hwf. split.
  - destruct (from_df full csv durs tb n res ls ws sk tk lm w) as [r w'] eqn:Hrun.
    apply from_df_grows in Hrun as [[D F] _]. simpl. split; [done|].
    intros p c Hp. rewrite F; [done|]. apply wf_parent; eauto.
  - destruct (from_dir prev durs tb n res ws sk tk lm w) as [r w'] eqn:Hrun.
    unfold from_dir in Hrun. apply from_dir_listed_grows in Hrun as [G _].
    destruct (G Hwf) as [[D F] _]. simpl. split; [done|].
    intros p c Hp. rewrite F; [done|]. apply wf_parent; eauto.
Qed.

(** *** One iteration inside a completed run *)

(** A completed loop splits, at any of its elements, into the completed
    loop before it, the completed iteration, and the completed loop after. *)
Lemma for_ok_split {A S} (xs : list A) (body : A -> S -> M S) acc w acc' w' pre x post :
  for_ xs body acc w = (Ok acc', w') ->
  xs = (pre ++ x :: post)%list ->
  exists a v a' v',
    for_ pre body acc w = (Ok a, v) /\
    body x a v = (Ok a', v') /\
    for_ post body a' v' = (Ok acc', w').
Proof.
  intros Hrun ->. revert acc w Hrun.
  induction pre as [|y pre IH]; intros acc w Hrun; simpl in Hrun.
  - apply bind_ok in Hrun as (a' & v' & Hb & Hrest).
    exists acc, w, a', v'. done.
  - apply bind_ok in Hrun as (a1 & v1 & Hb & Hrest).
    destruct (IH _ _ Hrest) as (a & v & a' & v' & H1 & H2 & H3).
    exists a, v, a', v'. split; [|done]. simpl. unfold bind. by rewrite Hb.
Qed.

Lemma build_replicates_grows full csv D d tb ls ws sk tk lm rs m :
  sound grows io_error
    (for_ rs (build_replicate full csv D d tb ls ws sk tk lm) m).
Proof. apply sound_for; [apply _|]. intros. apply build_replicate_grows. Qed.

(** Inside a completed run of [from_df], the iteration that built
    replicate [r] of duration [d] ran between two worlds that the rest of
    the run only extends. *)
Lemma from_df_replicate_step full csv durs tb n res ls ws sk tk lm w m w' d r :
  from_df full csv durs tb n res ls ws sk tk lm w = (Ok m, w') ->
  d ∈ durs -> 1 <= r <= n ->
  exists a v a' v',
    grows w v /\
    build_replicate full csv (train_dur_dir res d) d tb ls ws sk tk lm r a v
    = (Ok a', v') /\
    grows v' w'.
Proof.
  intros Hrun Hd Hr. unfold from_df in Hrun.
  apply list_elem_of_split in Hd as (pre & post & Hsplit).
  match type of Hrun with
  | for_ _ ?body _ _ = _ =>
      assert (forall xs a, sound grows io_error (for_ xs body a)) as Hs
  end.
  { intros xs a. apply sound_for; [apply _|]. intros d0 m0 _.
    apply sound_bind; [apply _ | sound_prim log_or_print_sound; apply traced_grows |].
    intros _.
    apply sound_bind; [apply _ | sound_prim mkdir_sound; apply created_grows |].
    intros _. apply build_replicates_grows. }
  destruct (for_ok_split _ _ _ _ _ _ _ _ _ Hrun Hsplit)
    as (a0 & u & a1 & u' & Hpre & Hbody & Hpost).
  apply Hs in Hpre as [Gpre _]. apply Hs in Hpost as [Gpost _]. clear Hs.
  apply bind_ok in Hbody as ([] & u0 & Hlog & Hbody).
  apply log_or_print_sound in Hlog as [Glog _]. apply traced_grows in Glog.
  apply bind_ok in Hbody as ([] & u1 & Hm & Hbody).
  apply mkdir_sound in Hm as [Gm _]. apply created_grows in Gm.
  assert (r ∈ Py.range 1 (n + 1)) as Hin by (apply elem_of_range; lia).
  apply list_elem_of_split in Hin as (rpre & rpost & Hrsplit).
  destruct (for_ok_split _ _ _ _ _ _ _ _ _ Hbody Hrsplit)
    as (a & v & a' & v' & Hipre & Hibody & Hipost).
  apply build_replicates_grows in Hipre as [Gipre _].
  apply build_replicates_grows in Hipost as [Gipost _].
  exists a, v, a', v'. split_and!; [|done|].
  - etrans; [exact Gpre|]. etrans; [exact Glog|]. etrans; [exact Gm | exact Gipre].
  - etrans; [exact Gipost | exact Gpost].
Qed.

Lemma import_replicates_grows D d tb ws sk tk lm items acc :
  sound grows_wf io_error (for_ items (import_replicate D d tb ws sk tk lm) acc).
Proof. apply sound_for; [apply _|]. intros. apply import_replicate_grows. Qed.

(** Inside a completed run of [from_dir] on a tree, the iteration that
    imported the [r]-th table of duration [d]. *)
Lemma from_dir_replicate_step prev durs tb n res ws sk tk lm w m w' m0 d csvs r csv :
  Fs.wf (w_fs w) ->
  from_dir prev durs tb n res ws sk tk lm w = (Ok m, w') ->
  group_by_train_dur (Py.sorted_paths (Fs.glob prev CSV_GLOB (w_fs w)))
    DefaultDict.empty = Ok m0 ->
  DefaultDict.lookup d m0 = Some csvs ->
  1 <= r -> csvs !! Z.to_nat (r - 1) = Some csv ->
  exists acc v acc' v',
    grows w v /\ Fs.wf (w_fs v) /\
    import_replicate (train_dur_dir res d) d tb ws sk tk lm (r, csv) acc v
    = (Ok acc', v') /\
    grows v' w'.
Proof.
  intros Hwf Hrun Hg Hl Hr Hcsv.
  unfold from_dir in Hrun. rewrite from_dir_listed_unfold, Hg in Hrun.
  destruct (check_shape m0 durs n) as [[]|e]; [|done].
  set (w1 := {| w_fs := w_fs w; w_rng := w_rng w;
                w_trace := (w_trace w ++ [Logged])%list |}) in *.
  assert (NoDup (DefaultDict.keys m0)) as Hnd
    by (eapply group_nodup; [|done]; apply NoDup_nil_2).
  pose proof (dd_lookup_Some_keys _ _ _ Hl) as Hdk.
  apply list_elem_of_split in Hdk as (pre & post & Hsplit).
  assert (d ∉ pre) as Hdpre.
  { rewrite Hsplit in Hnd. apply NoDup_app in Hnd as (_ & Hnd & _).
    intros Hin. apply (Hnd d Hin). apply list_elem_of_here. }
  unfold copy_subsets in Hrun.
  match type of Hrun with
  | for_ _ ?body _ _ = _ =>
      assert (forall xs a, sound grows_wf io_error (for_ xs body a)) as Hs;
      [| assert (forall xs a u a' u',
                   for_ xs body a u = (Ok a', u') ->
                   forall k, k ∉ xs -> DefaultDict.lookup k a' = DefaultDict.lookup k a)
           as Hkeep ]
  end.
  { intros xs a. apply sound_for; [apply _|]. intros d0 a0 _.
    apply sound_bind; [apply _ | sound_prim mkdir_sound |].
    { intros v v' Hc Hwfv. split; [by eapply created_grows | by eapply created_wf]. }
    intros _. destruct (DefaultDict.getitem d0 a0) as [cs a0'].
    apply sound_bind; [apply _ | | intros; apply sound_ret; apply _].
    apply import_replicates_grows. }
  { intros xs. induction xs as [|x xs IH]; intros a u a' u' Hxs k Hk; simpl in Hxs.
    - by injection Hxs as <- <-.
    - apply bind_ok in Hxs as (a1 & u1 & Hb & Hxs).
      apply not_elem_of_cons in Hk as [Hkx Hk].
      rewrite (IH _ _ _ _ Hxs k Hk).
      apply bind_ok in Hb as ([] & u2 & _ & Hb).
      unfold DefaultDict.getitem in Hb.
      destruct (DefaultDict.lookup x a) eqn:E.
      + apply bind_ok in Hb as (new & u3 & _ & Hb). injection Hb as <- <-.
        rewrite dd_lookup_setitem. by rewrite decide_False.
      + apply bind_ok in Hb as (new & u3 & _ & Hb). injection Hb as <- <-.
        rewrite !dd_lookup_setitem. by rewrite !decide_False. }
  destruct (for_ok_split _ _ _ _ _ _ _ _ _ Hrun Hsplit)
    as (a0 & u & a1 & u' & Hpre & Hbody & Hpost).
  pose proof (Hkeep _ _ _ _ _ Hpre d Hdpre) as Hla. rewrite Hl in Hla.
  apply Hs in Hpre as [Gpre _]. apply Hs in Hpost as [Gpost _]. clear Hs Hkeep.
  destruct (Gpre Hwf) as [Gwu Hwfu].
  apply bind_ok in Hbody as ([] & u1 & Hm & Hbody).
  apply mkdir_sound in Hm as [Hcr _].
  pose proof (created_grows _ _ _ Hcr) as Guu1.
  pose proof (created_wf _ _ _ Hcr Hwfu) as Hwfu1.
  unfold DefaultDict.getitem in Hbody. rewrite Hla in Hbody.
  apply bind_ok in Hbody as (new & u2 & Hin & Hbody). injection Hbody as <- <-.
  assert ((r, csv) ∈ zip (Py.range 1 (Py.len csvs + 1)) csvs) as Hz
    by (by apply elem_of_zip_range).
  apply list_elem_of_split in Hz as (ipre & ipost & Hisplit).
  destruct (for_ok_split _ _ _ _ _ _ _ _ _ Hin Hisplit)
    as (acc & v & acc' & v' & Hipre & Hibody & Hipost).
  apply import_replicates_grows in Hipre as [Gipre _].
  destruct (Gipre Hwfu1) as [Gu1v Hwfv].
  pose proof (import_replicate_grows _ _ _ _ _ _ _ _ _ _ _ _ Hibody) as [Gb _].
  destruct (Gb Hwfv) as [_ Hwfv'].
  apply import_replicates_grows in Hipost as [Gipost _].
  destruct (Gipost Hwfv') as [Gv'u2 Hwfu2].
  destruct (Gpost Hwfu2) as [Gu2w' _].
  exists acc, v, acc', v'. split_and!; [|done|done|].
  - assert (grows w u) as Gwu' by (destruct Gwu as [Da Fa]; by split).
    etrans; [exact Gwu'|]. etrans; [exact Guu1 | exact Gu1v].
  - etrans; [exact Gv'u2 | exact Gu2w'].
Qed.

(** *** What one iteration leaves in its replicate directory *)

Lemma last_ascii_app a b :
  last_ascii (a +:+ b)
  = match last_ascii b with Some c => Some c | None => last_ascii a end.
Proof.
  induction a as [|c a IH].
  - change ("" +:+ b) with b. destruct (last_ascii b); reflexivity.
  - change (String c a +:+ b) with (String c (a +:+ b)). simpl. rewrite IH.
    destruct (last_ascii b), (last_ascii a); reflexivity.
Qed.

Lemma subset_csv_name_not_npy csv d r vn :
  vn ∈ vec_names -> subset_csv_name csv d r <> vn +:+ ".npy".
Proof.
  intros Hvn Heq. apply (f_equal last_ascii) in Heq.
  unfold subset_csv_name in Heq. rewrite !last_ascii_app in Heq. simpl in Heq.
  unfold vec_names in Hvn.
  repeat (apply elem_of_cons in Hvn as [->|Hvn]); [| | |by apply elem_of_nil in Hvn];
    simpl in Heq; discriminate.
Qed.

Lemma glob_name_not_npy name vn :
  CSV_GLOB name = true -> vn ∈ vec_names -> name <> vn +:+ ".npy".
Proof.
  intros Hg Hvn ->. unfold vec_names in Hvn.
  repeat (apply elem_of_cons in Hvn as [->|Hvn]); [| | |by apply elem_of_nil in Hvn];
    vm_compute in Hg; discriminate.
Qed.

Lemma np_save_ok p v w u w' :
  np_save p v w = (Ok u, w') ->
  wdirs w' = wdirs w /\ wfiles w' = <[p := Fs.Npy v]> (wfiles w).
Proof. intros H. apply write_file_ok in H as (? & ? & _). done. Qed.

Lemma to_csv_ok t p w u w' :
  to_csv t p w = (Ok u, w') ->
  wdirs w' = wdirs w /\ wfiles w' = <[p := Fs.Csv t]> (wfiles w).
Proof. intros H. apply write_file_ok in H as (? & ? & _). done. Qed.

(** The three arrays saved by lines 156-159 and 263-266. *)
Lemma save_vectors_ok R v1 v2 v3 w u w' :
  save_vectors R (v1, v2, v3) w = (Ok u, w') ->
  wdirs w' = wdirs w /\
  wfiles w' =
    <[Fs.joinpath R "x_inds.npy" := Fs.Npy v3]>
      (<[Fs.joinpath R "spect_inds_vector.npy" := Fs.Npy v2]>
         (<[Fs.joinpath R "spect_id_vector.npy" := Fs.Npy v1]> (wfiles w))).
Proof.
  unfold save_vectors. simpl. intros H.
  apply bind_ok in H as ([] & w1 & H1 & H). apply np_save_ok in H1 as [D1 F1].
  apply bind_ok in H as ([] & w2 & H2 & H). apply np_save_ok in H2 as [D2 F2].
  apply bind_ok in H as ([] & w3 & H3 & H). apply np_save_ok in H3 as [D3 F3].
  injection H as _ <-. split; [congruence|]. by rewrite F3, F2, F1.
Qed.

Lemma call_split_ok t d ls w out w' :
  call_split t d ls w = (Ok out, w') ->
  w_fs w' = w_fs w /\
  exists g', split_dataframe (w_fs w) (w_rng w) t d ls = (Returned out, g').
Proof.
  unfold call_split. destruct (split_dataframe _ _ _ _ _) as [[o|msg] g] eqn:E;
    simpl; intros [= <- <-]; eauto.
Qed.

Lemma call_spect_vectors_ok t ws sk tk d tb lm w vecs w' :
  call_spect_vectors t ws sk tk d tb lm w = (Ok vecs, w') ->
  w_fs w' = w_fs w /\
  spect_vectors_from_df (w_fs w) t ws sk tk d tb lm = Returned vecs.
Proof.
  unfold call_spect_vectors.
  destruct (spect_vectors_from_df _ _ _ _ _ _ _ _) as [o|msg] eqn:E;
    simpl; intros [= <- <-]; eauto.
Qed.

(** One completed iteration of [from_df]: the subset drawn, the arrays
    computed from it, and the four files they end up in. *)
Lemma build_replicate_files full csv res d tb ls ws sk tk lm r m v m' v' :
  build_replicate full csv (train_dur_dir res d) d tb ls ws sk tk lm r m v = (Ok m', v') ->
  exists fs1 g g' out fs2 v1 v2 v3,
    split_dataframe fs1 g (select_split "train" full) d ls = (Returned out, g') /\
    spect_vectors_from_df fs2 (select_split "train" out) ws sk tk d tb lm
    = Returned (v1, v2, v3) /\
    wfiles v' !! replicate_vec_path res d r "spect_id_vector" = Some (Fs.Npy v1) /\
    wfiles v' !! replicate_vec_path res d r "spect_inds_vector" = Some (Fs.Npy v2) /\
    wfiles v' !! replicate_vec_path res d r "x_inds" = Some (Fs.Npy v3) /\
    wfiles v' !! subset_csv_path res csv d r
    = Some (Fs.Csv (concat [select_split "train" out; select_split "val" full;
                            select_split "test" full])) /\
    (replicate_dir (train_dur_dir res d) r ∈ wdirs v').
Proof.
  intros Hrun. unfold build_replicate in Hrun.
  set (R := replicate_dir (train_dur_dir res d) r) in *.
  apply bind_ok in Hrun as ([] & w1 & Hm & Hrun).
  apply mkdir_ok in Hm as (_ & _ & D1 & _).
  unfold build_into in Hrun.
  apply bind_ok in Hrun as (out & w2 & Hsp & Hrun).
  apply call_split_ok in Hsp as (Hfs2 & g' & Hsp).
  apply bind_ok in Hrun as ([[v1 v2] v3] & w3 & Hsv & Hrun).
  apply call_spect_vectors_ok in Hsv as (Hfs3 & Hsv).
  apply bind_ok in Hrun as ([] & w4 & Hsave & Hrun).
  apply save_vectors_ok in Hsave as [D4 F4].
  apply bind_ok in Hrun as ([] & w5 & Hcsv & Hrun).
  apply to_csv_ok in Hcsv as [D5 F5].
  injection Hrun as _ <-.
  assert (forall vn, vn ∈ vec_names ->
            Fs.joinpath R (subset_csv_name csv d r) <> Fs.joinpath R (vn +:+ ".npy"))
    as Hne.
  { intros vn Hvn Heq. apply joinpath_inj in Heq.
    by apply (subset_csv_name_not_npy csv d r vn). }
  exists (w_fs w1), (w_rng w1), g', out, (w_fs w2), v1, v2, v3.
  split; [done|]. split; [done|].
  unfold replicate_vec_path, subset_csv_path. fold R.
  rewrite F5, F4. split_and!.
  - rewrite lookup_insert_ne by (apply Hne; set_solver).
    rewrite !lookup_insert_ne by (intros Heq; by apply joinpath_inj in Heq).
    apply lookup_insert_eq.
  - rewrite lookup_insert_ne by (apply Hne; set_solver).
    rewrite lookup_insert_ne by (intros Heq; by apply joinpath_inj in Heq).
    apply lookup_insert_eq.
  - rewrite lookup_insert_ne by (apply Hne; set_solver).
    apply lookup_insert_eq.
  - apply lookup_insert_eq.
  - rewrite D5, D4, Hfs3, Hfs2, D1. set_solver.
Qed.

(** One completed iteration of [from_dir] on a tree: the table copied. *)
Lemma import_replicate_table res d tb ws sk tk lm r csv acc v acc' v' :
  import_replicate (train_dur_dir res d) d tb ws sk tk lm (r, csv) acc v = (Ok acc', v') ->
  Fs.wf (w_fs v) ->
  (forall vn, vn ∈ vec_names -> Fs.name csv <> vn +:+ ".npy") ->
  (replicate_dir (train_dur_dir res d) r ∈ wdirs v') /\
  exists c,
    wfiles v !! csv = Some c /\
    wfiles v' !! Fs.joinpath (replicate_dir (train_dur_dir res d) r) (Fs.name csv)
    = Some c.
Proof.
  intros Hrun Hwf Hname. unfold import_replicate in Hrun.
  set (R := replicate_dir (train_dur_dir res d) r) in *.
  apply bind_ok in Hrun as ([] & v1 & Hm & Hrun).
  pose proof (fresh_dir_flat _ _ _ _ Hwf Hm) as Hflat1.
  apply mkdir_ok in Hm as (Ex & _ & D1 & F1 & _).
  apply exists_false in Ex as [Hfresh _].
  unfold import_into in Hrun.
  apply bind_ok in Hrun as (copied & v2 & Hcopy & Hrun).
  assert (Fs.parent csv <> R) as Hcsv.
  { apply shutil_copy_ok in Hcopy as (_ & _ & _ & c & Hs & _); [|apply Hflat1].
    rewrite F1 in Hs. destruct Hwf as [_ Hf]. pose proof (Hf _ _ Hs) as Hin.
    simpl in Hin. intros Heq. rewrite Heq in Hin. done. }
  apply copy_step in Hcopy as (-> & [D2 _] & Hflat2 & [c Hc] & G2 & _); [|done..].
  apply bind_ok in Hrun as (t & v3 & Hread & Hrun).
  apply pd_read_csv_sound in Hread as [-> _].
  apply bind_ok in Hrun as ([[a1 a2] a3] & v4 & Hcall & Hrun).
  apply call_spect_vectors_ok in Hcall as [Hfs4 _].
  apply bind_ok in Hrun as ([] & v5 & Hsave & Hrun).
  apply save_vectors_ok in Hsave as [D5 F5].
  assert (forall vn, vn ∈ vec_names ->
            Fs.joinpath R (vn +:+ ".npy") <> Fs.joinpath R (Fs.name csv)) as Hne.
  { intros vn Hvn Heq. apply joinpath_inj in Heq. by apply (Hname vn). }
  assert (wfiles v5 !! Fs.joinpath R (Fs.name csv) = Some c) as G5.
  { rewrite F5.
    rewrite lookup_insert_ne by (apply (Hne "x_inds"); set_solver).
    rewrite lookup_insert_ne by (apply (Hne "spect_inds_vector"); set_solver).
    rewrite lookup_insert_ne by (apply (Hne "spect_id_vector"); set_solver).
    by rewrite Hfs4, G2. }
  assert (no_subdir R v5) as Hflat5.
  { intros y. rewrite D5, Hfs4. apply Hflat2. }
  assert (forall vn, Fs.parent (legacy_vec_path csv vn) <> R) as Hleg.
  { intros vn. unfold legacy_vec_path. by rewrite parent_joinpath. }
  apply bind_ok in Hrun as ([] & v8 & Hcopies & Hrun).
  injection Hrun as _ <-.
  simpl in Hcopies.
  apply bind_ok in Hcopies as ([] & v6 & Hc1 & Hcopies).
  apply bind_ok in Hc1 as (t1 & v6' & Hc1 & Hr1). injection Hr1 as ->.
  apply bind_ok in Hcopies as ([] & v7 & Hc2 & Hcopies).
  apply bind_ok in Hc2 as (t2 & v7' & Hc2 & Hr2). injection Hr2 as ->.
  apply bind_ok in Hcopies as ([] & v8' & Hc3 & Hcopies).
  apply bind_ok in Hc3 as (t3 & v8'' & Hc3 & Hr3). injection Hr3 as ->.
  injection Hcopies as ->.
  rewrite !name_joinpath in Hc1, Hc2, Hc3.
  fold (legacy_vec_path csv "spect_id_vector") in Hc1.
  fold (legacy_vec_path csv "spect_inds_vector") in Hc2.
  fold (legacy_vec_path csv "x_inds") in Hc3.
  apply copy_step in Hc1 as (_ & [D6 _] & Hflat6 & _ & _ & O1); [|done..].
  apply copy_step in Hc2 as (_ & [D7 _] & Hflat7 & _ & _ & O2); [|done..].
  apply copy_step in Hc3 as (_ & [D8 _] & _ & _ & _ & O3); [|done..].
  split.
  - rewrite D8, D7, D6, D5, Hfs4, D2, D1. set_solver.
  - exists c. split; [by rewrite <- F1|].
    rewrite O3 by (apply (Hname "x_inds"); set_solver).
    rewrite O2 by (apply (Hname "spect_inds_vector"); set_solver).
    rewrite O1 by (apply (Hname "spect_id_vector"); set_solver).
    done.
Qed.

(** X7. In a completed run of [from_df], the three array files of every
    replicate hold the vectors that the window-index builder returned for
    the [train] rows of the subset drawn for that replicate, with
    [crop_dur] the duration, and the table file beside them holds that same
    subset followed by the evaluation rows: arrays and table agree. *)
Theorem from_df_arrays_index_the_table
    full csv durs tb n res ls ws sk tk lm (w : world) m w' d r :
  from_df full csv durs tb n res ls ws sk tk lm w = (Ok m, w') ->
  d ∈ durs -> 1 <= r <= n ->
  exists fs1 g g' out fs2 v1 v2 v3,
    split_dataframe fs1 g (select_split "train" full) d ls = (Returned out, g') /\
    spect_vectors_from_df fs2 (select_split "train" out) ws sk tk d tb lm
    = Returned (v1, v2, v3) /\
    wfiles w' !! replicate_vec_path res d r "spect_id_vector" = Some (Fs.Npy v1) /\
    wfiles w' !! replicate_vec_path res d r "spect_inds_vector" = Some (Fs.Npy v2) /\
    wfiles w' !! replicate_vec_path res d r "x_inds" = Some (Fs.Npy v3) /\
    wfiles w' !! subset_csv_path res csv d r
    = Some (Fs.Csv (concat [select_split "train" out; select_split "val" full;
                            select_split "test" full])).
Proof.
  intros Hrun Hd Hr.
  destruct (from_df_replicate_step _ _ _ _ _ _ _ _ _ _ _ _ _ _ _ _ Hrun Hd Hr)
    as (a & v & a' & v' & _ & Hbody & [_ F]).
  apply build_replicate_files in Hbody
    as (fs1 & g & g' & out & fs2 & v1 & v2 & v3 & Hsp & Hsv & H1 & H2 & H3 & H4 & HR).
  exists fs1, g, g', out, fs2, v1, v2, v3. split; [done|]. split; [done|].
  unfold replicate_vec_path, subset_csv_path in *.
  rewrite !F by (by rewrite parent_joinpath). done.
Qed.

Lemma copied_paths_lookup res d csvs i csv :
  csvs !! i = Some csv ->
  copied_paths res d csvs !! i
  = Some (Fs.joinpath (replicate_dir (train_dur_dir res d) (1 + Z.of_nat i)) (Fs.name csv)).
Proof.
  intros Hi. unfold copied_paths.
  change (List.map ?f ?l) with (f <$> l). rewrite list_lookup_fmap.
  assert (zip (Py.range 1 (Py.len csvs + 1)) csvs !! i = Some (1 + Z.of_nat i, csv)) as ->;
    [|done].
  apply lookup_zip_with_Some. exists (1 + Z.of_nat i), csv. split; [done|].
  split; [|done]. unfold Py.range, Py.len.
  change (List.map ?f ?l) with (f <$> l). rewrite list_lookup_fmap.
  rewrite lookup_seq_lt; [done|]. apply lookup_lt_Some in Hi. lia.
Qed.

(** X8. A completed run of [from_dir] on a tree returns, for every duration
    of the manifest, the copies of its tables in manifest order: the
    [r]-th path is [<results>/train_dur_<d>s/replicate_<r>/<name of the
    r-th table>], and the file there holds what the source table held
    before the run. *)
Theorem from_dir_returns_copies_of_tables
    prev durs tb n res ws sk tk lm (w : world) m w' m0 d csvs r csv :
  Fs.wf (w_fs w) ->
  from_dir prev durs tb n res ws sk tk lm w = (Ok m, w') ->
  group_by_train_dur (Py.sorted_paths (Fs.glob prev CSV_GLOB (w_fs w)))
    DefaultDict.empty = Ok m0 ->
  DefaultDict.lookup d m0 = Some csvs ->
  1 <= r -> csvs !! Z.to_nat (r - 1) = Some csv ->
  dd_get d m !! Z.to_nat (r - 1)
  = Some (Fs.joinpath (replicate_dir (train_dur_dir res d) r) (Fs.name csv)) /\
  exists c,
    wfiles w !! csv = Some c /\
    wfiles w' !! Fs.joinpath (replicate_dir (train_dur_dir res d) r) (Fs.name csv)
    = Some c.
Proof.
  intros Hwf Hrun Hg Hl Hr Hcsv.
  assert (csv ∈ Fs.glob prev CSV_GLOB (w_fs w)) as Hglob.
  { destruct (group_members _ _ _ _ _ csv Hg Hl) as [H|H].
    - by eapply list_elem_of_lookup_2.
    - unfold Py.sorted_paths in H. by rewrite merge_sort_Permutation in H.
    - by apply elem_of_nil in H. }
  assert (CSV_GLOB (Fs.name csv) = true) as Hpat.
  { unfold Fs.glob in Hglob. apply list_elem_of_In, filter_In in Hglob as [_ Hq].
    by apply andb_true_iff in Hq as [_ ?]. }
  assert (Fs.parent csv ∈ wdirs w) as Hparent.
  { apply wf_parent; [done|]. by eapply glob_entry. }
  split.
  - pose proof Hrun as Hrun'.
    apply from_dir_ok in Hrun' as (m0' & Hg' & _ & _ & _ & B); [|done].
    rewrite Hg in Hg'. injection Hg' as <-.
    destruct (B d) as (_ & _ & csvs' & Hl' & Hm & _); [by eapply dd_lookup_Some_keys|].
    rewrite Hl in Hl'. injection Hl' as <-.
    unfold dd_get. rewrite Hm. simpl.
    rewrite (copied_paths_lookup _ _ _ _ csv Hcsv).
    by replace (1 + Z.of_nat (Z.to_nat (r - 1))) with r by lia.
  - destruct (from_dir_replicate_step _ _ _ _ _ _ _ _ _ _ _ _ _ _ _ _ _
                Hwf Hrun Hg Hl Hr Hcsv)
      as (acc & v & acc' & v' & [_ Fv] & Hwfv & Hbody & [_ Fv']).
    apply import_replicate_table in Hbody as (HR & c & Hc & Hc'); [|done|].
    + exists c. split.
      * by rewrite <- Fv.
      * rewrite Fv'; [done|]. by rewrite parent_joinpath.
    + intros vn Hvn. by apply glob_name_not_npy.
Qed.

(** *** Decimal numerals *)

Lemma app_cons_string c a b : String c a +:+ b = String c (a +:+ b).
Proof. reflexivity. Qed.

Lemma app_nil_string b : "" +:+ b = b.
Proof. reflexivity. Qed.

Lemma length_app_string a b :
  String.length (a +:+ b) = (String.length a + String.length b)%nat.
Proof.
  induction a as [|c a IH]; [done|].
  rewrite app_cons_string. simpl. by rewrite IH.
Qed.

Lemma pretty_N_char_digit y : Py.is_digit (pretty_N_char y) = true.
Proof. unfold pretty_N_char. repeat case_match; reflexivity. Qed.

Lemma pretty_N_char_value y :
  (y < 10)%N -> Py.digit_value (pretty_N_char y) = Z.of_N y.
Proof.
  intros Hy.
  assert (y = 0 \/ y = 1 \/ y = 2 \/ y = 3 \/ y = 4 \/ y = 5 \/ y = 6 \/ y = 7
          \/ y = 8 \/ y = 9)%N as Hcases by lia.
  repeat (destruct Hcases as [->|Hcases]; [reflexivity|]). by subst.
Qed.

Lemma pretty_N_go_digits x s :
  all_chars Py.is_digit s = true -> all_chars Py.is_digit (pretty_N_go x s) = true.
Proof.
  revert s. induction (N.lt_wf_0 x) as [x _ IH]; intros s Hs.
  destruct (decide (0 < x)%N) as [Hx|Hx].
  - rewrite pretty_N_go_step by done. apply IH.
    + apply N.div_lt; lia.
    + simpl. by rewrite pretty_N_char_digit.
  - assert (x = 0%N) as -> by lia. by rewrite pretty_N_go_0.
Qed.

Lemma pretty_N_go_value x :
  exists k : Z, 0 <= k /\ forall acc s,
    Py.digits_value acc (pretty_N_go x s)
    = Py.digits_value (acc * 10 ^ k + Z.of_N x) s.
Proof.
  induction (N.lt_wf_0 x) as [x _ IH].
  destruct (decide (0 < x)%N) as [Hx|Hx].
  - destruct (IH (x `div` 10)%N) as (k & Hk & Hval); [apply N.div_lt; lia|].
    exists (k + 1). split; [lia|]. intros acc s.
    rewrite pretty_N_go_step by done. rewrite Hval. simpl.
    rewrite pretty_N_char_digit, pretty_N_char_value by (apply N.mod_lt; lia).
    f_equal. rewrite Z.pow_add_r by lia.
    rewrite N2Z.inj_div, N2Z.inj_mod. simpl Z.of_N.
    pose proof (Z.div_mod (Z.of_N x) 10). lia.
  - assert (x = 0%N) as -> by lia. exists 0. split; [done|]. intros acc s.
    rewrite pretty_N_go_0. f_equal. simpl. lia.
Qed.

(** [str(d)] for a duration [d >= 0] is a non-empty run of digits that
    [int] reads back as [d]. *)
Lemma pretty_nonneg d :
  0 <= d ->
  all_chars Py.is_digit (pretty d) = true /\ pretty d <> "" /\ Py.int (pretty d) = Ok d.
Proof.
  intros Hd. destruct d as [|p|p]; [by vm_compute | | lia].
  change (pretty (Z.pos p)) with (pretty_N_go (N.pos p) "").
  destruct (pretty_N_go_value (N.pos p)) as (k & Hk & Hval).
  specialize (Hval 0 ""). simpl in Hval.
  split; [by apply pretty_N_go_digits|].
  assert (pretty_N_go (N.pos p) "" <> "") as Hne.
  { intros E. rewrite E in Hval. simpl in Hval. injection Hval. lia. }
  split; [done|]. unfold Py.int. rewrite Hval.
  by destruct (pretty_N_go (N.pos p) "").
Qed.

(** The characters of [str(z)] are digits or a minus sign. *)
Lemma pretty_Z_chars (z : Z) :
  all_chars (fun c => negb (Ascii.eqb c "t")) (pretty z) = true.
Proof.
  assert (forall s, all_chars Py.is_digit s = true ->
            all_chars (fun c => negb (Ascii.eqb c "t")) s = true) as Hd.
  { induction s as [|c s IH]; simpl; [done|].
    intros H. apply andb_true_iff in H as [Hc Hs]. rewrite IH by done.
    destruct (Ascii.eqb_spec c "t") as [->|]; [by vm_compute in Hc | done]. }
  destruct z as [|p|p]; [by vm_compute | |].
  - apply Hd. change (pretty (Z.pos p)) with (pretty_N_go (N.pos p) "").
    by apply pretty_N_go_digits.
  - change (pretty (Z.neg p)) with ("-" +:+ pretty_N_go (N.pos p) "").
    rewrite app_cons_string, app_nil_string. simpl. apply Hd.
    by apply pretty_N_go_digits.
Qed.

(** *** The pattern on a name written by [from_df] *)

Lemma match_re_plus_digit {X} (k : string -> list string -> option X) s caps :
  Py.match_re (Py.Plus Py.Digit) s caps k = plus_try k caps s.
Proof.
  simpl. revert caps. induction s as [|c s IH]; intros caps; [done|].
  simpl. destruct (Py.is_digit c); [|done].
  unfold Nat.ltb. simpl. rewrite Nat.leb_refl. by rewrite IH.
Qed.

Lemma match_re_lit {X} l s caps (k : string -> list string -> option X) :
  Py.match_re (Py.Lit l) s caps k
  = match Py.strip_prefix l s with Some s' => k s' caps | None => None end.
Proof. reflexivity. Qed.

Lemma match_re_seq {X} r1 r2 s caps (k : string -> list string -> option X) :
  Py.match_re (Py.Seq r1 r2) s caps k
  = Py.match_re r1 s caps (fun s1 caps1 => Py.match_re r2 s1 caps1 k).
Proof. reflexivity. Qed.

Lemma match_re_alt {X} r1 r2 s caps (k : string -> list string -> option X) :
  Py.match_re (Py.Alt r1 r2) s caps k
  = Py.orelse (Py.match_re r1 s caps k) (Py.match_re r2 s caps k).
Proof. reflexivity. Qed.

Lemma match_re_group {X} r s caps (k : string -> list string -> option X) :
  Py.match_re (Py.Group r) s caps k
  = Py.match_re r s caps (fun s1 caps1 =>
      k s1 (caps1 ++ [Py.take_string (String.length s - String.length s1) s])%list).
Proof. reflexivity. Qed.

(** On a run of digits followed by something else than a digit or a dot,
    [\d+] fails before a continuation that asks for a dot. *)
Lemma plus_try_no_dot {X} (k : string -> list string -> option X) caps ds c Y :
  (forall s1 caps1, Py.strip_prefix "." s1 = None -> k s1 caps1 = None) ->
  all_chars Py.is_digit ds = true -> Py.is_digit c = false -> c <> "."%char ->
  plus_try k caps (ds +:+ String c Y) = None.
Proof.
  intros Hk Hds Hd Hc. induction ds as [|a ds IH].
  - rewrite app_nil_string. cbn [plus_try]. by rewrite Hd.
  - rewrite app_cons_string. cbn [plus_try all_chars] in Hds |- *.
    apply andb_true_iff in Hds as [Ha Hds]. rewrite Ha, IH by done.
    cbn [Py.orelse]. apply Hk.
    destruct ds as [|b ds].
    + rewrite app_nil_string. cbn [Py.strip_prefix].
      destruct (Ascii.eqb_spec "."%char c); [congruence | done].
    + rewrite app_cons_string. cbn [Py.strip_prefix all_chars] in Hds |- *.
      apply andb_true_iff in Hds as [Hb _].
      destruct (Ascii.eqb_spec "."%char b) as [<-|]; [by vm_compute in Hb | done].
Qed.

(** On a non-empty run of digits followed by a non-digit, the greedy [\d+]
    takes the whole run when its continuation accepts what follows. *)
Lemma plus_try_all {X} (k : string -> list string -> option X) caps ds c Y :
  all_chars Py.is_digit ds = true -> ds <> "" -> Py.is_digit c = false ->
  is_Some (k (String c Y) caps) ->
  plus_try k caps (ds +:+ String c Y) = k (String c Y) caps.
Proof.
  intros Hds Hne Hc [x Hx]. induction ds as [|a ds IH]; [done|].
  rewrite app_cons_string. simpl in Hds |- *.
  apply andb_true_iff in Hds as [Ha Hds]. rewrite Ha.
  destruct ds as [|b ds].
  - rewrite app_nil_string. simpl. by rewrite Hc.
  - rewrite IH by done. by rewrite Hx.
Qed.

Lemma take_string_app a b : Py.take_string (String.length a) (a +:+ b) = a.
Proof.
  induction a as [|c a IH]; [by destruct b|].
  rewrite app_cons_string. simpl. by rewrite IH.
Qed.

Lemma strip_prefix_app p s : Py.strip_prefix p (p +:+ s) = Some s.
Proof.
  induction p as [|c p IH]; [done|].
  rewrite app_cons_string. simpl. by rewrite Ascii.eqb_refl.
Qed.

(** The pattern matches [train_dur_<digits>s] at the start of a string and
    captures the digits. *)
Lemma match_at_train_dur ds Y :
  all_chars Py.is_digit ds = true -> ds <> "" ->
  Py.match_at TRAIN_DUR_PAT ("train_dur_" +:+ ds +:+ String "s" Y)
  = Some ((11 + String.length ds)%nat, [ds]).
Proof.
  intros Hds Hne. unfold Py.match_at, TRAIN_DUR_PAT.
  rewrite match_re_seq, match_re_lit, strip_prefix_app.
  rewrite match_re_seq, match_re_group, match_re_alt.
  rewrite match_re_seq, !match_re_plus_digit.
  rewrite (plus_try_no_dot _ [] ds "s" Y); [|
    intros s1 caps1 Hs1; by rewrite match_re_seq, match_re_lit, Hs1 |done|done|done].
  cbn [Py.orelse].
  rewrite plus_try_all; [|done|done|done|].
  - rewrite match_re_lit. cbn [Py.strip_prefix]. rewrite Ascii.eqb_refl.
    f_equal. f_equal.
    + change ("train_dur_" +:+ ds +:+ String "s" Y)
        with ("train_dur_" +:+ (ds +:+ String "s" Y)).
      rewrite !length_app_string. simpl. lia.
    + simpl. f_equal. rewrite length_app_string. simpl.
      replace (String.length ds + S (String.length Y) - S (String.length Y))%nat
        with (String.length ds) by lia.
      apply take_string_app.
  - rewrite match_re_lit. cbn [Py.strip_prefix]. rewrite Ascii.eqb_refl. eauto.
Qed.

Lemma match_at_needs_prefix s :
  Py.strip_prefix "train_dur_" s = None -> Py.match_at TRAIN_DUR_PAT s = None.
Proof.
  intros H. unfold Py.match_at, TRAIN_DUR_PAT.
  by rewrite match_re_seq, match_re_lit, H.
Qed.

Lemma findall_from_cons r c s :
  Py.findall_from r 0 (String c s)
  = match Py.match_at r (String c s) with
    | Some (n, caps) => List.hd "" caps :: Py.findall_from r (Nat.pred n) s
    | None => Py.findall_from r 0 s
    end.
Proof. reflexivity. Qed.

Lemma findall_from_nomatch c s :
  Py.strip_prefix "train_dur_" (String c s) = None ->
  Py.findall_from TRAIN_DUR_PAT 0 (String c s) = Py.findall_from TRAIN_DUR_PAT 0 s.
Proof. intros H. by rewrite findall_from_cons, match_at_needs_prefix. Qed.

(** The characters of a match are stepped over. *)
Lemma findall_from_skip r a k Y :
  Py.findall_from r (String.length a + k) (a +:+ Y) = Py.findall_from r k Y.
Proof.
  induction a as [|c a IH]; [done|].
  rewrite app_cons_string. simpl. apply IH.
Qed.

(** No match starts at a character other than [t]. *)
Lemma findall_from_no_t a Y :
  all_chars (fun c => negb (Ascii.eqb c "t")) a = true ->
  Py.findall_from TRAIN_DUR_PAT 0 (a +:+ Y) = Py.findall_from TRAIN_DUR_PAT 0 Y.
Proof.
  induction a as [|c a IH]; [done|].
  cbn [all_chars]. intros [Hc Ha]%andb_true_iff.
  rewrite app_cons_string, findall_from_nomatch; [by apply IH|].
  cbn [Py.strip_prefix]. rewrite Ascii.eqb_sym.
  by destruct (Ascii.eqb c "t").
Qed.

(** A match cannot begin in a stem without [train_dur_] and end in the
    text [from_df] appends to it. *)
Lemma match_at_straddle u Y :
  u <> "" -> Py.strip_prefix "train_dur_" u = None ->
  Py.match_at TRAIN_DUR_PAT (u +:+ "_train_dur_" +:+ Y) = None.
Proof.
  intros Hu H.
  destruct (Py.strip_prefix "train_dur_" (u +:+ "_train_dur_" +:+ Y)) as [rest|] eqn:E;
    [|by apply match_at_needs_prefix].
  revert H E.
  destruct u as [|c1 u]; [done|]. clear Hu.
  rewrite app_cons_string. cbn [Py.strip_prefix].
  destruct (Ascii.eqb_spec "t" c1) as [<-|]; [|done].
  destruct u as [|c2 u]; [done|]. rewrite app_cons_string. cbn [Py.strip_prefix].
  destruct (Ascii.eqb_spec "r" c2) as [<-|]; [|done].
  destruct u as [|c3 u]; [done|]. rewrite app_cons_string. cbn [Py.strip_prefix].
  destruct (Ascii.eqb_spec "a" c3) as [<-|]; [|done].
  destruct u as [|c4 u]; [done|]. rewrite app_cons_string. cbn [Py.strip_prefix].
  destruct (Ascii.eqb_spec "i" c4) as [<-|]; [|done].
  destruct u as [|c5 u]; [done|]. rewrite app_cons_string. cbn [Py.strip_prefix].
  destruct (Ascii.eqb_spec "n" c5) as [<-|]; [|done].
  destruct u as [|c6 u]; [done|]. rewrite app_cons_string. cbn [Py.strip_prefix].
  destruct (Ascii.eqb_spec "_" c6) as [<-|]; [|done].
  destruct u as [|c7 u]; [done|]. rewrite app_cons_string. cbn [Py.strip_prefix].
  destruct (Ascii.eqb_spec "d" c7) as [<-|]; [|done].
  destruct u as [|c8 u]; [done|]. rewrite app_cons_string. cbn [Py.strip_prefix].
  destruct (Ascii.eqb_spec "u" c8) as [<-|]; [|done].
  destruct u as [|c9 u]; [done|]. rewrite app_cons_string. cbn [Py.strip_prefix].
  destruct (Ascii.eqb_spec "r" c9) as [<-|]; [|done].
  destruct u as [|c10 u]; [|rewrite app_cons_string; cbn [Py.strip_prefix];
                             by destruct (Ascii.eqb "_" c10)].
  intros _ _. clear rest.
  change (Py.match_at TRAIN_DUR_PAT ("train_dur_" +:+ ("train_dur_" +:+ Y)) = None).
  unfold Py.match_at, TRAIN_DUR_PAT.
  rewrite match_re_seq, match_re_lit, strip_prefix_app.
  rewrite match_re_seq, match_re_group, match_re_alt, match_re_seq.
  rewrite !match_re_plus_digit.
  change ("train_dur_" +:+ Y) with (String "t" ("rain_dur_" +:+ Y)).
  reflexivity.
Qed.

Lemma findall_skip_stem stem Y :
  Py.after_first "train_dur_" stem = None ->
  Py.findall_from TRAIN_DUR_PAT 0 (stem +:+ "_train_dur_" +:+ Y)
  = Py.findall_from TRAIN_DUR_PAT 0 ("_train_dur_" +:+ Y).
Proof.
  induction stem as [|c t IH]; [done|].
  intros H.
  assert (Py.strip_prefix "train_dur_" (String c t) = None /\
          Py.after_first "train_dur_" t = None) as [H1 H2].
  { revert H. cbn [Py.after_first].
    by destruct (Py.strip_prefix "train_dur_" (String c t)). }
  pose proof (match_at_straddle (String c t) Y ltac:(done) H1) as Hm.
  rewrite app_cons_string in Hm |- *.
  rewrite findall_from_cons, Hm. by apply IH.
Qed.

(** [re.findall] on a name written at lines 254-256 returns the digits of
    the duration and nothing else. *)
Lemma findall_subset_csv_name stem ds rs :
  Py.after_first "train_dur_" stem = None ->
  all_chars Py.is_digit ds = true -> ds <> "" ->
  all_chars (fun c => negb (Ascii.eqb c "t")) rs = true ->
  Py.findall TRAIN_DUR_PAT
    (stem +:+ "_train_dur_" +:+ ds +:+ "s_replicate_" +:+ rs +:+ ".csv") = [ds].
Proof.
  intros Hstem Hds Hne Hrs. unfold Py.findall.
  rewrite findall_skip_stem by done.
  set (Y := "_replicate_" +:+ rs +:+ ".csv").
  change ("_train_dur_" +:+ ds +:+ "s_replicate_" +:+ rs +:+ ".csv")
    with (String "_" ("train_dur_" +:+ ds +:+ String "s" Y)).
  rewrite findall_from_nomatch by reflexivity.
  change ("train_dur_" +:+ ds +:+ String "s" Y)
    with (String "t" ("rain_dur_" +:+ ds +:+ String "s" Y)) at 1.
  rewrite findall_from_cons.
  change (String "t" ("rain_dur_" +:+ ds +:+ String "s" Y))
    with ("train_dur_" +:+ ds +:+ String "s" Y).
  rewrite match_at_train_dur by done. cbn [List.hd]. f_equal.
  replace (Nat.pred (11 + String.length ds))
    with (String.length "rain_dur_" + (String.length ds + 1))%nat by (simpl; lia).
  rewrite findall_from_skip, findall_from_skip. cbn [Py.findall_from].
  unfold Y.
  change ("_replicate_" +:+ rs +:+ ".csv")
    with (String "_" (String "r" (String "e" (String "p" (String "l" (String "i"
           (String "c" (String "a" (String "t" (String "e" (String "_"
              (rs +:+ ".csv")))))))))))).
  rewrite !findall_from_nomatch by reflexivity.
  by rewrite findall_from_no_t.
Qed.

(** *** The glob on a name written by [from_df] *)

Lemma strip_prefix_length p s x :
  Py.strip_prefix p s = Some x ->
  String.length s = (String.length p + String.length x)%nat.
Proof.
  revert s. induction p as [|a p IH]; intros s; [by intros [= ->]|].
  destruct s as [|b s]; [done|]. cbn [Py.strip_prefix].
  destruct (Ascii.eqb a b); [|done]. intros H%IH. simpl. lia.
Qed.

Lemma strip_prefix_app_some p s x Y :
  Py.strip_prefix p s = Some x -> Py.strip_prefix p (s +:+ Y) = Some (x +:+ Y).
Proof.
  revert s. induction p as [|a p IH]; intros s; [by intros [= ->]|].
  destruct s as [|b s]; [done|]. rewrite app_cons_string. cbn [Py.strip_prefix].
  destruct (Ascii.eqb a b); [|done]. apply IH.
Qed.

Lemma strip_prefix_app_none p s Y :
  Py.strip_prefix p s = None -> (String.length p <= String.length s)%nat ->
  Py.strip_prefix p (s +:+ Y) = None.
Proof.
  revert s. induction p as [|a p IH]; intros s; [done|].
  destruct s as [|b s]; [simpl; lia|]. rewrite app_cons_string. cbn [Py.strip_prefix].
  destruct (Ascii.eqb a b); [|done]. simpl. intros H Hl. apply IH; [done|lia].
Qed.

Lemma after_first_length p s x :
  Py.after_first p s = Some x -> (String.length p <= String.length s)%nat.
Proof.
  induction s as [|c s IH]; cbn [Py.after_first].
  - destruct (Py.strip_prefix p "") eqn:E; [|done].
    apply strip_prefix_length in E. lia.
  - destruct (Py.strip_prefix p (String c s)) eqn:E.
    + apply strip_prefix_length in E. lia.
    + intros H%IH. simpl. lia.
Qed.

Lemma after_first_app p s x Y :
  Py.after_first p s = Some x -> Py.after_first p (s +:+ Y) = Some (x +:+ Y).
Proof.
  induction s as [|c s IH]; cbn [Py.after_first].
  - destruct (Py.strip_prefix p "") eqn:E; [|done]. intros [= ->].
    destruct p; [|done]. injection E as <-. rewrite app_nil_string. by destruct Y.
  - destruct (Py.strip_prefix p (String c s)) eqn:E.
    + intros [= ->]. rewrite app_cons_string. cbn [Py.after_first].
      rewrite <- app_cons_string. by rewrite (strip_prefix_app_some _ _ _ _ E).
    + intros H. rewrite app_cons_string. cbn [Py.after_first].
      rewrite <- app_cons_string, strip_prefix_app_none; [by apply IH|done|].
      apply after_first_length in H. simpl. lia.
Qed.

Lemma ends_with_app suffix a Y :
  Py.ends_with suffix Y = true -> Py.ends_with suffix (a +:+ Y) = true.
Proof.
  intros H. induction a as [|c a IH]; [done|].
  rewrite app_cons_string. cbn [Py.ends_with]. rewrite IH.
  by destruct (String.eqb suffix _).
Qed.

Lemma name_subset_csv_path res csv d r :
  Fs.name (subset_csv_path res csv d r) = subset_csv_name csv d r.
Proof. unfold subset_csv_path. apply name_joinpath. Qed.

Lemma subset_csv_path_parses res csv d r :
  0 <= d -> Py.after_first "train_dur_" (Fs.stem csv) = None ->
  parse_train_dur (subset_csv_path res csv d r) = Ok d.
Proof.
  intros Hd Hstem. destruct (pretty_nonneg d Hd) as (Hds & Hne & Hint).
  unfold parse_train_dur. rewrite name_subset_csv_path. unfold subset_csv_name.
  rewrite findall_subset_csv_name; [done..|apply pretty_Z_chars].
Qed.

Lemma subset_csv_path_globbed res csv d r :
  is_Some (Py.after_first "prep" (Fs.stem csv)) ->
  CSV_GLOB (Fs.name (subset_csv_path res csv d r)) = true.
Proof.
  intros [x Hx]. rewrite name_subset_csv_path. unfold CSV_GLOB, subset_csv_name.
  rewrite (after_first_app _ _ _ _ Hx).
  by do 5 apply ends_with_app.
Qed.

(** X9.  The names [from_df] gives its tables are read back by [from_dir]:
    when the stem of the dataset file holds no [train_dur_] and the duration
    is not negative, the pattern of line 95 finds one duration in the name
    of the table of every replicate, and line 102 converts it to the
    duration the table was made for; when the stem holds [prep], the glob
    of line 91 selects the table. *)
Theorem from_df_names_read_back_by_from_dir (results_path csv_path : path) (d r : Z) :
  0 <= d ->
  Py.after_first "train_dur_" (Fs.stem csv_path) = None ->
  parse_train_dur (subset_csv_path results_path csv_path d r) = Ok d /\
  (is_Some (Py.after_first "prep" (Fs.stem csv_path)) ->
   CSV_GLOB (Fs.name (subset_csv_path results_path csv_path d r)) = true).
Proof.
  intros Hd Hstem. split.
  - by apply subset_csv_path_parses.
  - apply subset_csv_path_globbed.
Qed.


(** *** The mapping [from_df] returns *)

Lemma dd_keys_append_order k p m :
  DefaultDict.keys (DefaultDict.append k p m)
  = if decide (k ∈ DefaultDict.keys m) then DefaultDict.keys m
    else (DefaultDict.keys m ++ [k])%list.
Proof.
  unfold DefaultDict.append, DefaultDict.getitem.
  destruct (DefaultDict.lookup k m) eqn:E.
  - pose proof (dd_lookup_Some_keys _ _ _ E) as Hk.
    rewrite decide_True by done. by apply dd_keys_setitem_present.
  - pose proof (proj1 (dd_lookup_None _ _) E) as Hk.
    rewrite decide_False by done.
    rewrite dd_keys_setitem_present; [by apply dd_keys_setitem_missing|].
    rewrite dd_keys_setitem_missing by done. set_solver.
Qed.

(** A dictionary is the list of its keys, each with its value. *)
Lemma dd_items m :
  NoDup (DefaultDict.keys m) ->
  m = List.map (fun k => (k, dd_get k m)) (DefaultDict.keys m).
Proof.
  unfold DefaultDict.keys, dd_get.
  induction m as [|[k0 v0] m IH]; [done|].
  simpl. intros [Hk0 Hnd]%NoDup_cons. rewrite Z.eqb_refl. simpl. f_equal.
  rewrite IH at 1 by done. apply map_ext_in. intros k Hk%list_elem_of_In.
  destruct (Z.eqb_spec k k0) as [->|]; done.
Qed.

Lemma build_replicates_keys full csv res d tb ls ws sk tk lm rs m w m' w' :
  for_ rs (build_replicate full csv (train_dur_dir res d) d tb ls ws sk tk lm) m w
  = (Ok m', w') ->
  d ∉ DefaultDict.keys m -> rs <> [] ->
  DefaultDict.keys m' = (DefaultDict.keys m ++ [d])%list.
Proof.
  intros Hrun Hd Hrs.
  apply (for_ok_inv (fun pre a (_ : world) =>
    DefaultDict.keys a
    = match pre with [] => DefaultDict.keys m | _ => (DefaultDict.keys m ++ [d])%list end))
    in Hrun.
  - by destruct rs.
  - done.
  - clear Hrun. intros pre r post a v a' v' _ Hk Hbody.
    apply build_replicate_ok in Hbody as [_ ->].
    rewrite dd_keys_append_order, Hk.
    destruct pre as [|r0 pre]; simpl.
    + by rewrite decide_False.
    + rewrite decide_True; [done | set_solver].
Qed.

(** X10.  With at least one replicate, the mapping a completed run of
    [from_df] returns lists the durations in the order they were requested,
    each with the paths of its tables in replicate order; every path is
    [<results>/train_dur_<d>s/replicate_<r>/<stem>_train_dur_<d>s_replicate_<r>.csv],
    where line 277 wrote the table. *)
Theorem from_df_returns_written_paths
    full csv durs tb n res ls ws sk tk lm (w : world) m w' :
  1 <= n ->
  from_df full csv durs tb n res ls ws sk tk lm w = (Ok m, w') ->
  m = List.map
        (fun d => (d, List.map (subset_csv_path res csv d) (Py.range 1 (n + 1))))
        durs.
Proof.
  intros Hn Hrun.
  pose proof (from_df_nodup _ _ _ _ _ _ _ _ _ _ _ _ _ _ Hrun) as Hnd.
  pose proof (from_df_ok _ _ _ _ _ _ _ _ _ _ _ _ _ _ Hrun) as (_ & _ & _ & Dg & _).
  assert (Py.range 1 (n + 1) <> []) as Hne.
  { intros E. apply (f_equal length) in E. rewrite length_range in E. simpl in E. lia. }
  assert (DefaultDict.keys m = durs) as Hk.
  { unfold from_df in Hrun.
    apply (for_ok_inv (fun pre a (_ : world) => DefaultDict.keys a = pre)) in Hrun;
      [done | done |].
    intros pre d post a v a' v' Hsplit Hk Hbody.
    apply bind_ok in Hbody as ([] & v0 & _ & Hbody).
    apply bind_ok in Hbody as ([] & v1 & _ & Hbody).
    apply build_replicates_keys in Hbody; [by rewrite Hbody, Hk | | done].
    rewrite Hk. rewrite Hsplit in Hnd.
    apply NoDup_app in Hnd as (_ & Hnd & _). intros Hin. apply (Hnd d Hin).
    apply list_elem_of_here. }
  rewrite (dd_items m) at 1 by (by rewrite Hk). rewrite Hk.
  apply map_ext_in. intros d Hd%list_elem_of_In. by rewrite Dg.
Qed.


(** *** The calls of a completed run of [from_df] *)

#[local] Instance same_trace_preorder :
  PreOrder (fun w w' : world => w_trace w' = w_trace w).
Proof. split; [done|]. intros x y z H1 H2. by rewrite H2. Qed.

Lemma build_replicate_calls full csv D d tb ls ws sk tk lm r m v m' v' :
  build_replicate full csv D d tb ls ws sk tk lm r m v = (Ok m', v') ->
  exists out,
    w_trace v' = (w_trace v ++ replicate_calls full d [out])%list.
Proof.
  intros Hrun. unfold build_replicate in Hrun.
  apply bind_ok in Hrun as ([] & w1 & Hm & Hrun).
  apply mkdir_ok in Hm as (_ & _ & _ & _ & T1).
  unfold build_into in Hrun.
  apply bind_ok in Hrun as (out & w2 & Hsp & Hrun).
  apply call_split_sound in Hsp as [[_ T2] _].
  apply bind_ok in Hrun as (vecs & w3 & Hsv & Hrun).
  apply call_spect_vectors_sound in Hsv as [[_ T3] _].
  apply bind_ok in Hrun as ([] & w4 & Hsave & Hrun).
  assert (sound (fun w w' : world => w_trace w' = w_trace w) io_error
            (save_vectors (replicate_dir D r) vecs)) as Hs.
  { apply save_vectors_sound; [apply _|]. by intros x u u' (_ & T & _). }
  apply Hs in Hsave as [T4 _].
  apply bind_ok in Hrun as ([] & w5 & Hcsv & Hrun).
  apply to_csv_sound in Hcsv as [(_ & T5 & _) _].
  injection Hrun as _ <-.
  exists out. rewrite T5, T4, T3, T2, T1. simpl. by rewrite <- app_assoc.
Qed.

Lemma build_replicates_calls full csv D d tb ls ws sk tk lm rs m v m' v' :
  for_ rs (build_replicate full csv D d tb ls ws sk tk lm) m v = (Ok m', v') ->
  exists outs,
    length outs = length rs /\
    w_trace v' = (w_trace v ++ replicate_calls full d outs)%list.
Proof.
  intros Hrun.
  apply (for_ok_inv (fun pre (_ : DefaultDict.t) u =>
    exists outs, length outs = length pre /\
      w_trace u = (w_trace v ++ replicate_calls full d outs)%list)) in Hrun; [done| |].
  - exists []. by rewrite app_nil_r.
  - clear Hrun. intros pre r post a u a' u' _ (outs & Hl & T) Hbody.
    apply build_replicate_calls in Hbody as (out & T').
    exists (outs ++ [out])%list. split; [rewrite !length_app, Hl; done|].
    rewrite T', T. unfold replicate_calls. rewrite flat_map_app.
    by rewrite <- app_assoc.
Qed.

(** *** Both entry points write below the results directory only *)

#[local] Instance below_preorder R : PreOrder (below R).
Proof.
  split.
  - intros w p _. done.
  - intros x y z H1 H2 p Hp. destruct (H1 p Hp) as [D1 F1].
    destruct (H2 p Hp) as [D2 F2]. split; [by rewrite D2 | by rewrite F2].
Qed.

Lemma is_proper_prefix_joinpath R x : Fs.is_proper_prefix R (Fs.joinpath R x) = true.
Proof.
  unfold Fs.joinpath. induction R as [|a R IH]; [done|].
  simpl. by rewrite String.eqb_refl.
Qed.

Lemma is_proper_prefix_further R p x :
  Fs.is_proper_prefix R p = true -> Fs.is_proper_prefix R (Fs.joinpath p x) = true.
Proof.
  unfold Fs.joinpath. revert p. induction R as [|a R IH]; intros [|b p]; simpl; try done.
  intros [-> H]%andb_true_iff. by rewrite IH.
Qed.

Lemma created_below R p w w' :
  Fs.is_proper_prefix R p = true -> created p w w' -> below R w w'.
Proof.
  intros Hp [->|(_ & _ & D & F & _)]; [reflexivity|].
  intros q Hq. split; [|by rewrite F].
  rewrite D. assert (q <> p) by congruence. set_solver.
Qed.

Lemma written_below R p w w' :
  Fs.is_proper_prefix R p = true -> written p w w' -> below R w w'.
Proof.
  intros Hp (D & _ & F) q Hq. split; [by rewrite D|].
  apply F. congruence.
Qed.

Lemma traced_below R ev w w' : traced ev w w' -> below R w w'.
Proof. intros [E _] q _. by rewrite E. Qed.

(** [shutil.copy] writes its destination, or the file of the same name
    inside it when the destination is a directory. *)
Lemma shutil_copy_written src dst :
  sound (fun w w' => written dst w w' \/ written (Fs.joinpath dst (Fs.name src)) w w')
    io_error (shutil_copy src dst).
Proof.
  intros w r w'. unfold shutil_copy, lift_fs, Fs.copy.
  set (dst' := if Fs.is_dir (w_fs w) dst then Fs.joinpath dst (Fs.name src) else dst).
  assert (forall v v', written dst' v v' ->
            written dst v v' \/ written (Fs.joinpath dst (Fs.name src)) v v') as Hd.
  { unfold dst'. destruct (Fs.is_dir (w_fs w) dst); auto. }
  destruct (_ && _)%bool; simpl.
  { intros [= <- <-]. rewrite world_eta. split; [by left|done]. }
  destruct (Fs.read_file src (w_fs w)) as [c|e] eqn:Er.
  - pose proof (write_file_sound dst' c w) as Hw. unfold lift_fs in Hw.
    destruct (Fs.write_file dst' c (w_fs w)) as [[u|e] fs'] eqn:Ew; intros [= <- <-].
    + destruct (Hw _ _ eq_refl) as [? _]. auto.
    + destruct (Hw _ _ eq_refl) as [? ?]. auto.
  - intros [= <- <-]. rewrite world_eta. split; [by left|]. by eapply read_file_io.
Qed.

Lemma shutil_copy_below R src D x :
  Fs.is_proper_prefix R D = true ->
  sound (below R) io_error (shutil_copy src (Fs.joinpath D x)).
Proof.
  intros HD. sound_prim shutil_copy_written.
  intros w w' [H|H]; (eapply written_below; [|exact H]);
    repeat apply is_proper_prefix_further; done.
Qed.

Lemma import_replicate_below res D d tb ws sk tk lm item acc :
  Fs.is_proper_prefix res D = true ->
  sound (below res) io_error (import_replicate D d tb ws sk tk lm item acc).
Proof.
  intros HD. destruct item as [r csv]. unfold import_replicate.
  assert (Fs.is_proper_prefix res (replicate_dir D r) = true) as HR
    by (by apply is_proper_prefix_further).
  apply sound_bind; [apply _ | sound_prim mkdir_sound; intros ? ?; by apply created_below |].
  intros _. unfold import_into.
  apply sound_bind; [apply _ | by apply shutil_copy_below |]. intros copied.
  apply sound_bind; [apply _ | sound_prim pd_read_csv_sound; by intros ? ? -> |].
  intros t.
  apply sound_bind;
    [apply _ | sound_prim call_spect_vectors_sound; apply traced_below |].
  intros vecs.
  apply sound_bind; [apply _ | | intros _].
  { apply save_vectors_sound; [apply _|]. intros x u u'.
    apply written_below. by apply is_proper_prefix_further. }
  apply sound_bind; [apply _ | | intros _; apply sound_ret; apply _].
  apply sound_for; [apply _|]. intros vn [] _.
  apply sound_bind; [apply _ | by apply shutil_copy_below |]. intros _.
  apply sound_ret; apply _.
Qed.

Lemma build_replicate_below res D full csv d tb ls ws sk tk lm r m :
  Fs.is_proper_prefix res D = true ->
  sound (below res) io_error (build_replicate full csv D d tb ls ws sk tk lm r m).
Proof.
  intros HD. unfold build_replicate.
  assert (Fs.is_proper_prefix res (replicate_dir D r) = true) as HR
    by (by apply is_proper_prefix_further).
  apply sound_bind; [apply _ | sound_prim mkdir_sound; intros ? ?; by apply created_below |].
  intros _. apply build_into_sound; [apply _ | | |].
  - intros x u u'. apply written_below. by apply is_proper_prefix_further.
  - intros u u'. apply traced_below.
  - intros t u u'. apply traced_below.
Qed.

(** X12.  Whatever happens during a run of [from_df] or of [from_dir],
    completed or not, on any file system, nothing changes outside the
    results directory: a path that is not strictly below [results_path] is
    a directory after the run exactly when it was one before, and holds
    the file it held before.  In particular the previous run's directory
    and the dataset file are left as they were when they lie elsewhere. *)
Theorem runs_write_below_results_path_only
    full csv prev durs tb n res ls ws sk tk lm (w : world) (p : path) :
  Fs.is_proper_prefix res p = false ->
  ((p ∈ wdirs (from_df full csv durs tb n res ls ws sk tk lm w).2 <-> p ∈ wdirs w) /\
   wfiles (from_df full csv durs tb n res ls ws sk tk lm w).2 !! p = wfiles w !! p) /\
  ((p ∈ wdirs (from_dir prev durs tb n res ws sk tk lm w).2 <-> p ∈ wdirs w) /\
   wfiles (from_dir prev durs tb n res ws sk tk lm w).2 !! p = wfiles w !! p).
Proof.
  intros Hp. split.
  - destruct (from_df full csv durs tb n res ls ws sk tk lm w) as [r w'] eqn:Hrun.
    simpl. unfold from_df in Hrun.
    match type of Hrun with
    | ?m w = _ => assert (sound (below res) io_error m) as Hs
    end.
    { apply sound_for; [apply _|]. intros d m _.
      apply sound_bind; [apply _ | sound_prim log_or_print_sound; apply traced_below |].
      intros _.
      apply sound_bind; [apply _ | sound_prim mkdir_sound |].
      { intros ? ?. apply created_below, is_proper_prefix_joinpath. }
      intros _. apply sound_for; [apply _|]. intros r0 m' _.
      apply build_replicate_below, is_proper_prefix_joinpath. }
    apply Hs in Hrun as [Hb _]. by apply Hb.
  - destruct (from_dir prev durs tb n res ws sk tk lm w) as [r w'] eqn:Hrun.
    simpl. unfold from_dir in Hrun. rewrite from_dir_listed_unfold in Hrun.
    destruct (group_by_train_dur _ _) as [m0|e]; [|by injection Hrun as <- <-].
    destruct (check_shape m0 durs n) as [[]|e]; [|by injection Hrun as <- <-].
    match type of Hrun with
    | ?m ?u = _ => assert (sound (below res) io_error m) as Hs
    end.
    { unfold copy_subsets. apply sound_for; [apply _|]. intros d m' _.
      apply sound_bind; [apply _ | sound_prim mkdir_sound |].
      { intros ? ?. apply created_below, is_proper_prefix_joinpath. }
      intros _. destruct (DefaultDict.getitem d m') as [csvs m''].
      apply sound_bind; [apply _ | | intros; apply sound_ret; apply _].
      apply sound_for; [apply _|]. intros item acc _.
      apply import_replicate_below, is_proper_prefix_joinpath. }
    apply Hs in Hrun as [Hb _]. by apply Hb.
Qed.


(** *** [from_dir] draws nothing *)

#[local] Instance no_draw_preorder durs : PreOrder (no_draw durs).
Proof.
  split.
  - intros w. split; [done | reflexivity].
  - intros x y z [R1 T1] [R2 T2]. split; [by rewrite R2 | by etrans].
Qed.

Lemma sound_bind_post {A B} (Rel : relation world) (E : exn -> Prop) `{!PreOrder Rel}
    (Q : A -> Prop) (m : M A) (k : A -> M B) :
  (forall w a w1, m w = (Ok a, w1) -> Q a) ->
  sound Rel E m -> (forall a, Q a -> sound Rel E (k a)) -> sound Rel E (bind m k).
Proof.
  intros HQ Hm Hk w r w' Hrun.
  apply bind_inv in Hrun as [(a & w1 & H1 & H2)|(e & H1 & ->)].
  - destruct (Hm _ _ _ H1) as [R1 _].
    destruct (Hk a (HQ _ _ _ H1) _ _ _ H2) as [R2 HE].
    split; [by etrans | done].
  - by destruct (Hm _ _ _ H1).
Qed.

Lemma lift_fs_no_draw durs {A} (op : Fs.filesystem -> result A * Fs.filesystem) :
  sound (no_draw durs) (fun _ => True) (lift_fs op).
Proof.
  intros w r w'. unfold lift_fs. destruct (op (w_fs w)) as [r0 fs'].
  intros [= <- <-]. split; [|by destruct r0]. split; [done|].
  exists []. simpl. by rewrite app_nil_r.
Qed.

Lemma pd_read_csv_no_draw durs p :
  sound (no_draw durs) (fun _ => True) (pd_read_csv p).
Proof.
  intros w r w' H. apply pd_read_csv_sound in H as [-> _].
  split; [reflexivity | by destruct r].
Qed.

Lemma pd_read_csv_returns p w t w1 :
  pd_read_csv p w = (Ok t, w1) -> exists c, read_csv c = Returned t.
Proof.
  unfold pd_read_csv. destruct (Fs.read_file p (w_fs w)) as [c|e]; [|done].
  destruct (read_csv c) as [t0|msg] eqn:E; simpl; intros [= <- <-]. eauto.
Qed.

Lemma call_spect_vectors_no_draw durs t ws sk tk d tb lm :
  d ∈ durs -> (exists c, read_csv c = Returned t) ->
  sound (no_draw durs) (fun _ => True) (call_spect_vectors t ws sk tk d tb lm).
Proof.
  intros Hd Ht w r w'. unfold call_spect_vectors. intros [= <- <-].
  split; [|by destruct (of_outcome _)]. split; [done|].
  exists [SpectVectorsCalled t d]. split; [done|]. by apply Forall_singleton.
Qed.

(** X13.  [from_dir] draws no new subset.  In every run, completed or not,
    the random state is left as it was and the splitter is never called;
    besides log lines, the only calls recorded are those of the
    window-index builder, each on a table just as [pd.read_csv] returned
    it - all its rows, not only those tagged [train] - and with one of the
    requested durations as [crop_dur]. *)
Theorem from_dir_draws_no_subset
    prev durs tb n res ws sk tk lm (w : world) :
  w_rng (from_dir prev durs tb n res ws sk tk lm w).2 = w_rng w /\
  exists new,
    w_trace (from_dir prev durs tb n res ws sk tk lm w).2 = (w_trace w ++ new)%list /\
    Forall (imported_event durs) new.
Proof.
  change (no_draw durs w (from_dir prev durs tb n res ws sk tk lm w).2).
  destruct (from_dir prev durs tb n res ws sk tk lm w) as [r w'] eqn:Hrun.
  simpl. unfold from_dir in Hrun. rewrite from_dir_listed_unfold in Hrun.
  destruct (group_by_train_dur _ _) as [m0|e];
    [|injection Hrun as <- <-; reflexivity].
  destruct (check_shape m0 durs n) as [[]|e] eqn:Hshape;
    [|injection Hrun as <- <-; reflexivity].
  apply check_shape_ok in Hshape as [Hkeys _].
  apply sorted_ints_perm_inv in Hkeys.
  match type of Hrun with
  | ?m ?u = _ => assert (sound (no_draw durs) (fun _ => True) m) as Hs
  end.
  { unfold copy_subsets. apply sound_for; [apply _|]. intros d m' Hd.
    rewrite Hkeys in Hd.
    apply sound_bind; [apply _ | apply lift_fs_no_draw |]. intros _.
    destruct (DefaultDict.getitem d m') as [csvs m''].
    apply sound_bind; [apply _ | | intros; apply sound_ret; apply _].
    apply sound_for; [apply _|]. intros [r0 csv] acc _. unfold import_replicate.
    apply sound_bind; [apply _ | apply lift_fs_no_draw |]. intros _.
    unfold import_into.
    apply sound_bind; [apply _ | apply lift_fs_no_draw |]. intros copied.
    apply (sound_bind_post _ _ (fun t => exists c, read_csv c = Returned t));
      [apply pd_read_csv_returns | apply pd_read_csv_no_draw |].
    intros t Ht.
    apply sound_bind; [apply _ | by apply call_spect_vectors_no_draw |].
    intros [[v1 v2] v3].
    apply sound_bind; [apply _ | | intros _].
    { unfold save_vectors. apply sound_for; [apply _|]. intros [vn v] [] _.
      apply lift_fs_no_draw. }
    apply sound_bind; [apply _ | | intros _; apply sound_ret; apply _].
    apply sound_for; [apply _|]. intros vn [] _.
    apply sound_bind; [apply _ | apply lift_fs_no_draw |]. intros _.
    apply sound_ret; apply _. }
  apply Hs in Hrun as [[Hr (new & T & HF)] _]. split; [done|].
  exists (Logged :: new). split.
  - rewrite T. simpl. by rewrite <- app_assoc.
  - by apply Forall_cons.
Qed.


(** *** Only whole, non-negative numbers of seconds are recovered *)

Lemma digits_value_nonneg acc s z :
  0 <= acc -> Py.digits_value acc s = Some z -> 0 <= z.
Proof.
  revert acc. induction s as [|c s IH]; intros acc Hacc; simpl.
  - by intros [= <-].
  - destruct (Py.is_digit c) eqn:Ec; [|done]. apply IH.
    unfold Py.is_digit in Ec. apply andb_true_iff in Ec as [Ec _].
    apply N.leb_le in Ec. unfold Py.digit_value. lia.
Qed.

Lemma digits_value_digits acc s z :
  Py.digits_value acc s = Some z -> all_chars Py.is_digit s = true.
Proof.
  revert acc. induction s as [|c s IH]; intros acc; simpl; [done|].
  destruct (Py.is_digit c); [|done]. apply IH.
Qed.

(** Line 102 accepts a capture made of digits only, and reads it as a
    number that is not negative. *)
Lemma parse_train_dur_whole_seconds p d :
  parse_train_dur p = Ok d ->
  0 <= d /\ exists s, matches_of p = [s] /\ all_chars Py.is_digit s = true.
Proof.
  unfold parse_train_dur, matches_of.
  destruct (Py.findall TRAIN_DUR_PAT (Fs.name p)) as [|s [|s' l]]; simpl; try done.
  unfold Py.int. destruct s as [|c s]; [done|].
  destruct (Py.digits_value 0 (String c s)) as [z|] eqn:E; [|done].
  intros [= <-]. split; [by eapply digits_value_nonneg; [|exact E]|].
  exists (String c s). split; [done|]. by eapply digits_value_digits.
Qed.

(** X14.  No file name encodes a negative duration: the pattern of
    line 95 captures digits and dots only and line 102 reads digits only.
    A request of [from_dir] that holds a negative duration therefore never
    passes validation: the call raises and leaves everything as it was. *)
Theorem negative_durations_are_never_recovered
    prev durs tb n res ws sk tk lm (w : world) (d : Z) :
  d < 0 ->
  (forall p, parse_train_dur p <> Ok d) /\
  (d ∈ durs -> exists e, from_dir prev durs tb n res ws sk tk lm w = (Err e, w)).
Proof.
  intros Hd.
  assert (forall p, parse_train_dur p <> Ok d) as Hno.
  { intros p Hp. apply parse_train_dur_whole_seconds in Hp as [? _]. lia. }
  split; [exact Hno|]. intros Hin.
  unfold from_dir. rewrite from_dir_listed_unfold.
  destruct (group_by_train_dur _ _) as [m0|e] eqn:Hg; [|eauto].
  destruct (check_shape m0 durs n) as [[]|e] eqn:Hshape; [|eauto].
  exfalso. apply check_shape_ok in Hshape as [Hkeys _].
  apply sorted_ints_perm_inv in Hkeys. rewrite <- Hkeys in Hin.
  apply (group_keys _ _ _ d Hg) in Hin as [Hin|(p & _ & Hp)].
  - by apply elem_of_nil in Hin.
  - by apply (Hno p).
Qed.


(** *** What [from_df] builds, [from_dir] accepts *)

#[local] Instance footprint_preorder E : PreOrder (footprint E).
Proof.
  split.
  - intros w p. auto.
  - intros x y z H1 H2 p. destruct (H1 p) as [D1 F1]. destruct (H2 p) as [D2 F2].
    split.
    + intros H. destruct (D2 H) as [H'|?]; auto.
    + intros H. destruct (F2 H) as [H'|?]; auto.
Qed.

Lemma created_footprint (E : path -> Prop) p w w' :
  E p -> created p w w' -> footprint E w w'.
Proof.
  intros Hp [->|(_ & _ & D & F & _)]; [reflexivity|].
  intros q. rewrite D, F. split; [|auto].
  intros [->%elem_of_singleton|?]%elem_of_union; auto.
Qed.

Lemma written_footprint (E : path -> Prop) p w w' :
  E p -> written p w w' -> footprint E w w'.
Proof.
  intros Hp (D & _ & F) q. rewrite D. split; [auto|].
  destruct (decide (q = p)) as [->|Hne]; [auto|]. rewrite F by done. auto.
Qed.

Lemma traced_footprint (E : path -> Prop) ev w w' : traced ev w w' -> footprint E w w'.
Proof. intros [Hfs _] q. rewrite Hfs. auto. Qed.

Lemma from_df_footprint full csv durs tb n res ls ws sk tk lm :
  sound (footprint (from_df_entry res csv durs n)) io_error
    (from_df full csv durs tb n res ls ws sk tk lm).
Proof.
  unfold from_df. apply sound_for; [apply _|]. intros d m Hd.
  apply sound_bind; [apply _ | sound_prim log_or_print_sound; apply traced_footprint |].
  intros _.
  apply sound_bind; [apply _ | sound_prim mkdir_sound |].
  { intros u u'. apply created_footprint. exists d. auto. }
  intros _. apply sound_for; [apply _|]. intros r m' Hr. unfold build_replicate.
  apply sound_bind; [apply _ | sound_prim mkdir_sound |].
  { intros u u'. apply created_footprint. exists d. split; [done|]. right.
    exists r. auto. }
  intros _. unfold build_into.
  apply sound_bind; [apply _ | sound_prim call_split_sound; apply traced_footprint |].
  intros out.
  apply sound_bind;
    [apply _ | sound_prim call_spect_vectors_sound; apply traced_footprint |].
  intros [[v1 v2] v3].
  apply sound_bind; [apply _ | | intros _].
  { unfold save_vectors. apply sound_for; [apply _|]. intros [vn v] [] Hvn.
    sound_prim np_save_sound. intros u u'. apply written_footprint.
    exists d. split; [done|]. right. exists r. split; [done|]. right. right.
    exists vn. split; [|done].
    apply elem_of_zip_l in Hvn. exact Hvn. }
  apply sound_bind; [apply _ | sound_prim to_csv_sound | intros _; apply sound_ret; apply _].
  intros u u'. apply written_footprint.
  exists d. split; [done|]. right. exists r. auto.
Qed.

Lemma elem_of_glob root pat fs p :
  p ∈ Fs.glob root pat fs <->
  (p ∈ Fs.dirs fs \/ is_Some (Fs.files fs !! p)) /\
  Fs.is_proper_prefix root p = true /\ pat (Fs.name p) = true.
Proof.
  unfold Fs.glob, Fs.entries.
  rewrite list_elem_of_In, filter_In, <- list_elem_of_In, elem_of_elements,
    elem_of_union, elem_of_dom, andb_true_iff.
  done.
Qed.

Lemma NoDup_List_filter {A} (f : A -> bool) (l : list A) :
  NoDup l -> NoDup (List.filter f l).
Proof.
  induction 1 as [|x l Hx Hnd IH]; simpl; [apply NoDup_nil_2|].
  destruct (f x); [|done]. apply NoDup_cons_2; [|done].
  rewrite list_elem_of_In, filter_In, <- list_elem_of_In. by intros [? _].
Qed.

Lemma NoDup_glob root pat fs : NoDup (Fs.glob root pat fs).
Proof. unfold Fs.glob, Fs.entries. apply NoDup_List_filter, NoDup_elements. Qed.

Lemma all_chars_app f a b :
  all_chars f (a +:+ b) = (all_chars f a && all_chars f b)%bool.
Proof.
  induction a as [|c a IH]; [done|].
  rewrite app_cons_string. simpl. by rewrite IH, andb_assoc.
Qed.

Lemma digits_no_p s :
  all_chars Py.is_digit s = true ->
  all_chars (fun c => negb (Ascii.eqb c "p")) s = true.
Proof.
  induction s as [|c s IH]; simpl; [done|].
  intros [Hc Hs]%andb_true_iff. rewrite IH by done.
  destruct (Ascii.eqb_spec c "p") as [->|]; [by vm_compute in Hc | done].
Qed.

Lemma after_first_cons_none needle c s :
  Py.strip_prefix needle (String c s) = None ->
  Py.after_first needle (String c s) = Py.after_first needle s.
Proof. intros H. cbn [Py.after_first]. by rewrite H. Qed.

Lemma after_first_no_p s :
  all_chars (fun c => negb (Ascii.eqb c "p")) s = true ->
  Py.after_first "prep" s = None.
Proof.
  induction s as [|c s IH]; [done|].
  cbn [all_chars]. intros [Hc Hs]%andb_true_iff.
  rewrite after_first_cons_none; [by apply IH|].
  cbn [Py.strip_prefix]. rewrite Ascii.eqb_sym. by destruct (Ascii.eqb c "p").
Qed.

(** The directories [from_df] creates do not match the glob. *)
Lemma train_dur_dir_not_globbed res d :
  0 <= d -> CSV_GLOB (Fs.name (train_dur_dir res d)) = false.
Proof.
  intros Hd. destruct (pretty_nonneg d Hd) as (Hds & _ & _).
  unfold train_dur_dir. rewrite name_joinpath. unfold CSV_GLOB.
  rewrite after_first_no_p; [done|].
  rewrite !all_chars_app, (digits_no_p _ Hds). done.
Qed.

Lemma replicate_dir_not_globbed D r :
  0 <= r -> CSV_GLOB (Fs.name (replicate_dir D r)) = false.
Proof.
  intros Hr. destruct (pretty_nonneg r Hr) as (Hds & _ & _).
  unfold replicate_dir. rewrite name_joinpath. unfold CSV_GLOB.
  change ("replicate_" +:+ pretty r)
    with (String "r" (String "e" (String "p" (String "l" (String "i" (String "c"
            (String "a" (String "t" (String "e" (String "_" (pretty r))))))))))).
  rewrite !after_first_cons_none by reflexivity.
  by rewrite after_first_no_p by (by apply digits_no_p).
Qed.

Lemma is_proper_prefix_subset_csv_path res csv d r :
  Fs.is_proper_prefix res (subset_csv_path res csv d r) = true.
Proof.
  unfold subset_csv_path, replicate_dir, train_dur_dir.
  do 2 apply is_proper_prefix_further. apply is_proper_prefix_joinpath.
Qed.

Lemma subset_csv_path_inj res csv d r r' :
  subset_csv_path res csv d r = subset_csv_path res csv d r' -> r = r'.
Proof.
  unfold subset_csv_path, replicate_dir, Fs.joinpath.
  intros [[_ H]%app_inj_tail _]%app_inj_tail.
  apply (f_equal (Py.strip_prefix "replicate_")) in H.
  rewrite !strip_prefix_app in H. injection H as H. by apply (inj pretty).
Qed.

Lemma NoDup_range a b : NoDup (Py.range a b).
Proof.
  unfold Py.range. change (List.map ?f ?l) with (f <$> l).
  apply NoDup_fmap_2; [|apply NoDup_seq]. intros i j H. lia.
Qed.

(** After a completed run of [from_df] into a results directory where the
    glob found nothing before, the glob finds the tables of the run and
    nothing else. *)
Lemma glob_after_from_df full csv durs tb n res ls ws sk tk lm w m w' :
  from_df full csv durs tb n res ls ws sk tk lm w = (Ok m, w') ->
  (forall d, d ∈ durs -> 0 <= d) ->
  is_Some (Py.after_first "prep" (Fs.stem csv)) ->
  Fs.glob res CSV_GLOB (w_fs w) = [] ->
  forall p,
    p ∈ Fs.glob res CSV_GLOB (w_fs w') <->
    exists d r, d ∈ durs /\ r ∈ Py.range 1 (n + 1) /\ p = subset_csv_path res csv d r.
Proof.
  intros Hrun Hpos Hprep Hempty p. rewrite elem_of_glob. split.
  - intros (Hentry & Hpre & Hpat).
    pose proof (from_df_footprint _ _ _ _ _ _ _ _ _ _ _ _ _ _ Hrun) as [Hfoot _].
    destruct (Hfoot p) as [D F].
    assert (p ∈ wdirs w \/ is_Some (wfiles w !! p) \/ from_df_entry res csv durs n p)
      as [Hold|[Hold|Hnew]].
    { destruct Hentry as [H|H]; [destruct (D H) | destruct (F H)]; auto. }
    + assert (p ∈ Fs.glob res CSV_GLOB (w_fs w)) as Hin by (apply elem_of_glob; auto).
      rewrite Hempty in Hin. by apply elem_of_nil in Hin.
    + assert (p ∈ Fs.glob res CSV_GLOB (w_fs w)) as Hin by (apply elem_of_glob; auto).
      rewrite Hempty in Hin. by apply elem_of_nil in Hin.
    + destruct Hnew as (d & Hd & [->|(r & Hr & [->|[->|(vn & Hvn & ->)]])]).
      * rewrite train_dur_dir_not_globbed in Hpat by auto. done.
      * rewrite replicate_dir_not_globbed in Hpat; [done|].
        apply elem_of_range in Hr. lia.
      * eauto.
      * exfalso. apply (glob_name_not_npy _ vn Hpat Hvn).
        unfold replicate_vec_path. apply name_joinpath.
  - intros (d & r & Hd & Hr & ->).
    apply from_df_ok in Hrun as (_ & B & _).
    destruct (B d Hd) as (_ & _ & Hb). destruct (Hb r Hr) as (_ & _ & t & _ & Ht).
    split; [right; by rewrite Ht|]. split.
    + apply is_proper_prefix_subset_csv_path.
    + by apply subset_csv_path_globbed.
Qed.

Lemma group_total csv_paths acc :
  (forall p, p ∈ csv_paths -> exists d, parse_train_dur p = Ok d) ->
  exists m, group_by_train_dur csv_paths acc = Ok m.
Proof.
  revert acc. induction csv_paths as [|p rest IH]; intros acc H; simpl; [eauto|].
  destruct (H p) as [d ->]; [apply list_elem_of_here|].
  apply IH. intros q Hq. apply H. by apply list_elem_of_further.
Qed.

Lemma dd_values_lookup m v :
  NoDup (DefaultDict.keys m) -> v ∈ DefaultDict.values m ->
  exists k, DefaultDict.lookup k m = Some v.
Proof.
  unfold DefaultDict.keys, DefaultDict.values.
  induction m as [|[k0 v0] m IH]; simpl; [by intros _ ?%elem_of_nil|].
  intros [Hk0 Hnd]%NoDup_cons [->|Hv]%elem_of_cons.
  - exists k0. by rewrite Z.eqb_refl.
  - destruct (IH Hnd Hv) as [k Hk]. exists k.
    destruct (Z.eqb_spec k k0) as [->|]; [|done].
    exfalso. apply Hk0. by eapply dd_lookup_Some_keys.
Qed.

(** X15.  What [from_df] builds, [from_dir] accepts.  Take a completed run
    of [from_df] with at least one replicate and no negative duration, for
    a dataset file whose stem holds [prep] and no [train_dur_], into a
    results directory below which the glob found nothing before.  Then the
    scan of [from_dir] on that results directory groups the tables without
    a naming error, the manifest passes the validation of lines 105-121
    for the same durations and number of replicates, and each duration is
    bound to the tables [from_df] wrote for it - in sorted path order,
    which is replicate order only up to a permutation. *)
Theorem from_dir_accepts_what_from_df_built
    full csv durs tb n res ls ws sk tk lm (w : world) m w' :
  from_df full csv durs tb n res ls ws sk tk lm w = (Ok m, w') ->
  1 <= n ->
  (forall d, d ∈ durs -> 0 <= d) ->
  Py.after_first "train_dur_" (Fs.stem csv) = None ->
  is_Some (Py.after_first "prep" (Fs.stem csv)) ->
  Fs.glob res CSV_GLOB (w_fs w) = [] ->
  exists m0,
    group_by_train_dur (Py.sorted_paths (Fs.glob res CSV_GLOB (w_fs w')))
      DefaultDict.empty = Ok m0 /\
    check_shape m0 durs n = Ok tt /\
    forall d, d ∈ durs ->
      exists csvs, DefaultDict.lookup d m0 = Some csvs /\ csvs ≡ₚ dd_get d m.
Proof.
  intros Hrun Hn Hpos Hstem Hprep Hempty.
  pose proof (glob_after_from_df _ _ _ _ _ _ _ _ _ _ _ _ _ _ Hrun Hpos Hprep Hempty)
    as Hglob.
  pose proof (from_df_nodup _ _ _ _ _ _ _ _ _ _ _ _ _ _ Hrun) as Hnd.
  pose proof (from_df_ok _ _ _ _ _ _ _ _ _ _ _ _ _ _ Hrun) as (_ & _ & _ & Dg & _).
  set (L := Py.sorted_paths (Fs.glob res CSV_GLOB (w_fs w'))).
  assert (L ≡ₚ Fs.glob res CSV_GLOB (w_fs w')) as HLp
    by apply merge_sort_Permutation.
  assert (forall p, p ∈ L <->
            exists d r, d ∈ durs /\ r ∈ Py.range 1 (n + 1) /\
                        p = subset_csv_path res csv d r) as HL.
  { intros p. rewrite HLp. apply Hglob. }
  assert (NoDup L) as HLnd by (rewrite HLp; apply NoDup_glob).
  assert (1 ∈ Py.range 1 (n + 1)) as H1 by (apply elem_of_range; lia).
  destruct (group_total L DefaultDict.empty) as [m0 Hg].
  { intros p (d & r & Hd & _ & ->)%HL. exists d.
    apply subset_csv_path_parses; auto. }
  assert (forall d, d ∈ DefaultDict.keys m0 <-> d ∈ durs) as Hkeys.
  { intros d. rewrite (group_keys _ _ _ d Hg). split.
    - intros [H|(p & (d' & r & Hd' & _ & ->)%HL & Hp)]; [by apply elem_of_nil in H|].
      rewrite subset_csv_path_parses in Hp by auto. by injection Hp as <-.
    - intros Hd. right. exists (subset_csv_path res csv d 1). split.
      + apply HL. eauto.
      + apply subset_csv_path_parses; auto. }
  assert (NoDup (DefaultDict.keys m0)) as Hknd
    by (eapply group_nodup; [|exact Hg]; apply NoDup_nil_2).
  assert (forall d, d ∈ durs ->
            dd_get d m0 ≡ₚ List.map (subset_csv_path res csv d) (Py.range 1 (n + 1)))
    as Hgroup.
  { intros d Hd. rewrite (group_get _ _ _ d Hg). simpl.
    apply NoDup_Permutation.
    - by apply NoDup_List_filter.
    - change (List.map ?f ?l) with (f <$> l).
      apply NoDup_fmap_2; [|apply NoDup_range].
      intros r r'. apply subset_csv_path_inj.
    - intros p. rewrite list_elem_of_In, filter_In, <- list_elem_of_In, HL.
      change (List.map ?f ?l) with (f <$> l). rewrite list_elem_of_fmap.
      unfold encodes. split.
      + intros [(d' & r & Hd' & Hr & ->) He].
        rewrite subset_csv_path_parses in He by auto.
        apply Z.eqb_eq in He as ->. eauto.
      + intros (r & -> & Hr). split; [eauto|].
        rewrite subset_csv_path_parses by auto. apply Z.eqb_refl. }
  exists m0. split; [done|]. split.
  - apply check_shape_ok. split.
    + apply sorted_ints_perm. by apply NoDup_Permutation.
    + apply Forall_forall. intros v Hv.
      destruct (dd_values_lookup _ _ Hknd Hv) as [k Hk].
      assert (k ∈ durs) as Hkd by (by eapply Hkeys, dd_lookup_Some_keys).
      specialize (Hgroup k Hkd). unfold dd_get in Hgroup. rewrite Hk in Hgroup.
      simpl in Hgroup. unfold Py.len. rewrite Hgroup, length_map, length_range. lia.
  - intros d Hd.
    assert (is_Some (DefaultDict.lookup d m0)) as [csvs Hcsvs]
      by (by apply dd_lookup_is_Some, Hkeys).
    exists csvs. split; [done|].
    specialize (Hgroup d Hd). unfold dd_get in Hgroup at 1. rewrite Hcsvs in Hgroup.
    simpl in Hgroup. by rewrite Hgroup, Dg.
Qed.


(** *** The calls of every run of [from_df] *)

Lemma from_df_trace_app full ls g evs1 g1 evs2 g2 :
  from_df_trace full ls g evs1 g1 -> from_df_trace full ls g1 evs2 g2 ->
  from_df_trace full ls g (evs1 ++ evs2)%list g2.
Proof.
  remember (length evs1) as k eqn:Hk. revert evs1 g Hk.
  induction k as [k IH] using lt_wf_ind. intros evs1 g Hk H1 H2.
  destruct evs1 as [|[|t d|t d] rest]; simpl in H1.
  - by subst.
  - simpl. apply (IH (length rest)); [simpl in Hk; lia | done..].
  - destruct H1 as (Ht & fs & o & g' & Hs & Ho).
    change (from_df_trace full ls g (SplitCalled t d :: (rest ++ evs2)%list) g2).
    cbn [from_df_trace]. split; [done|]. exists fs, o, g'. split; [done|].
    destruct o as [out|msg].
    + destruct rest as [|[|t' d'|t' d'] rest']; try done.
      destruct Ho as (Ht' & Hd' & Ho). simpl. split; [done|]. split; [done|].
      apply (IH (length rest')); [simpl in Hk; lia | done..].
    + apply (IH (length rest)); [simpl in Hk; lia | done..].
  - done.
Qed.

Lemma from_df_trace_indexes_train_rows full ls g evs g' :
  from_df_trace full ls g evs g' -> Forall indexes_train_rows evs.
Proof.
  remember (length evs) as k eqn:Hk. revert evs g Hk.
  induction k as [k IH] using lt_wf_ind. intros evs g Hk H.
  destruct evs as [|[|t d|t d] rest]; simpl in H.
  - apply Forall_nil_2.
  - apply Forall_cons. split; [done|].
    apply (IH (length rest)) with g; [simpl in Hk; lia | done..].
  - destruct H as (Ht & fs & o & g1 & Hs & Ho).
    apply Forall_cons. split; [done|]. destruct o as [out|msg].
    + destruct rest as [|[|t' d'|t' d'] rest']; try done.
      destruct Ho as (-> & _ & Ho). apply Forall_cons. split.
      * apply select_split_only.
      * apply (IH (length rest')) with g1; [simpl in Hk; lia | done..].
    + apply (IH (length rest)) with g1; [simpl in Hk; lia | done..].
  - done.
Qed.

#[local] Instance accounted_preorder full ls : PreOrder (accounted full ls).
Proof.
  split.
  - intros w. exists []. by rewrite app_nil_r.
  - intros x y z (e1 & T1 & H1) (e2 & T2 & H2). exists (e1 ++ e2)%list. split.
    + by rewrite T2, T1, <- app_assoc.
    + by eapply from_df_trace_app.
Qed.

#[local] Instance quiet_preorder : PreOrder quiet.
Proof.
  split; [done|]. intros x y z [R1 T1] [R2 T2]. split; congruence.
Qed.

Lemma quiet_accounted full ls w w' : quiet w w' -> accounted full ls w w'.
Proof. intros [R T]. exists []. rewrite app_nil_r. simpl. done. Qed.

Lemma lift_fs_quiet {A} (op : Fs.filesystem -> result A * Fs.filesystem) :
  sound quiet (fun _ => True) (lift_fs op).
Proof.
  intros w r w'. unfold lift_fs. destruct (op (w_fs w)) as [r0 fs'].
  intros [= <- <-]. split; [done | by destruct r0].
Qed.

Lemma build_into_accounted full csv R d tb ls ws sk tk lm r m :
  sound (accounted full ls) (fun _ => True)
    (build_into full csv R d tb ls ws sk tk lm r m).
Proof.
  intros w res w' Hrun. split; [|by destruct res].
  unfold build_into in Hrun.
  apply bind_inv in Hrun as [(out & w1 & Hsp & Hrun)|(e & Hsp & ->)].
  - unfold call_split in Hsp.
    destruct (split_dataframe (w_fs w) (w_rng w) (select_split "train" full) d ls)
      as [o g'] eqn:Es.
    destruct o as [out0|msg]; simpl in Hsp; [|done]. injection Hsp as -> <-.
    assert (exists w2,
              w_rng w2 = g' /\
              w_trace w2 = (w_trace w ++ [SplitCalled (select_split "train" full) d;
                                          SpectVectorsCalled (select_split "train" out) d])%list /\
              quiet w2 w') as (w2 & R2 & T2 & [R3 T3]).
    { apply bind_inv in Hrun as [(vecs & w2 & Hsv & Hrun)|(e & Hsv & ->)].
      - exists w2. unfold call_spect_vectors in Hsv. injection Hsv as _ <-.
        split; [done|]. split; [simpl; by rewrite <- app_assoc|].
        match type of Hrun with
        | ?k ?u = _ => assert (sound quiet (fun _ => True) k) as Hq
        end.
        { apply sound_bind; [apply _ | | intros _].
          { unfold save_vectors. destruct vecs as [[v1 v2] v3].
            apply sound_for; [apply _|]. intros [vn v] [] _. apply lift_fs_quiet. }
          apply sound_bind; [apply _ | apply lift_fs_quiet |].
          intros _. apply sound_ret; apply _. }
        by apply Hq in Hrun as [? _].
      - exists w'. unfold call_spect_vectors in Hsv. injection Hsv as _ <-.
        split; [done|]. split; [simpl; by rewrite <- app_assoc | done]. }
    exists [SplitCalled (select_split "train" full) d;
            SpectVectorsCalled (select_split "train" out) d].
    split; [by rewrite T3|]. cbn [from_df_trace]. split; [done|].
    exists (w_fs w), (Returned out), g'. split; [done|]. split; [done|].
    split; [done|]. by rewrite R3.
  - unfold call_split in Hsp.
    destruct (split_dataframe (w_fs w) (w_rng w) (select_split "train" full) d ls)
      as [o g'] eqn:Es.
    destruct o as [out0|msg]; simpl in Hsp; [done|]. injection Hsp as _ <-.
    exists [SplitCalled (select_split "train" full) d]. split; [done|].
    cbn [from_df_trace]. split; [done|].
    exists (w_fs w), (Raised msg), g'. done.
Qed.

Lemma from_df_accounted full csv durs tb n res ls ws sk tk lm :
  sound (accounted full ls) (fun _ => True)
    (from_df full csv durs tb n res ls ws sk tk lm).
Proof.
  assert (forall p, sound (accounted full ls) (fun _ => True) (mkdir p)) as Hmk.
  { intros p. eapply sound_weaken; [apply quiet_accounted | done | apply lift_fs_quiet]. }
  unfold from_df. apply sound_for; [apply _|]. intros d m _.
  apply sound_bind; [apply _ | | intros _].
  { intros w r w' [= <- <-]. split; [|done]. exists [Logged]. done. }
  apply sound_bind; [apply _ | apply Hmk | intros _].
  apply sound_for; [apply _|]. intros r m' _. unfold build_replicate.
  apply sound_bind; [apply _ | apply Hmk | intros _].
  apply build_into_accounted.
Qed.

(** C3. In every run of [from_df], completed or not, the events recorded
    are accounted for by [from_df_trace]: each call to the splitter
    receives the [train] rows of the full table; the window-index builder
    is called only right after a call of the splitter that returned, and
    the table it receives is what that call returned, filtered back to
    [split == 'train'].  So every table handed to the builder holds [train]
    rows only: no [val], [test] or sentinel row. *)
Theorem from_df_windows_from_train_rows_only
    full csv durs tb n res ls ws sk tk lm (w : world) :
  exists evs,
    w_trace (from_df full csv durs tb n res ls ws sk tk lm w).2
    = (w_trace w ++ evs)%list /\
    from_df_trace full ls (w_rng w) evs
      (w_rng (from_df full csv durs tb n res ls ws sk tk lm w).2) /\
    Forall indexes_train_rows evs.
Proof.
  destruct (from_df full csv durs tb n res ls ws sk tk lm w) as [r w'] eqn:Hrun.
  simpl. apply from_df_accounted in Hrun as [(evs & T & H) _].
  exists evs. split; [done|]. split; [done|].
  by eapply from_df_trace_indexes_train_rows.
Qed.

(** X11.  What a completed run of [from_df] asks of its collaborators, in
    order: for each requested duration, in request order, one log line,
    then for each replicate one call of the splitter on the [train] rows of
    the dataset followed by one call of the window-index builder on the
    [train] rows of the subset just drawn, both with that duration.
    Nothing else is logged or called.  The subsets are those the splitter
    returned, call after call, from the random state the call before had
    left; the run ends in the random state the last call left. *)
Theorem from_df_call_sequence
    full csv durs tb n res ls ws sk tk lm (w : world) m w' :
  from_df full csv durs tb n res ls ws sk tk lm w = (Ok m, w') ->
  exists plan : list (Z * list df),
    plan.*1 = durs /\
    Forall (fun outs => length outs = Z.to_nat n) plan.*2 /\
    w_trace w' = (w_trace w ++ from_df_calls full plan)%list /\
    from_df_trace full ls (w_rng w) (from_df_calls full plan) (w_rng w').
Proof.
  intros Hrun.
  pose proof (from_df_accounted _ _ _ _ _ _ _ _ _ _ _ _ _ _ Hrun) as [(evs & Te & He) _].
  unfold from_df in Hrun.
  apply (for_ok_inv (fun pre (_ : DefaultDict.t) u =>
    exists plan : list (Z * list df),
      plan.*1 = pre /\
      Forall (fun outs => length outs = Z.to_nat n) plan.*2 /\
      w_trace u = (w_trace w ++ from_df_calls full plan)%list)) in Hrun.
  - destruct Hrun as (plan & Hk & Hl & T). exists plan. split_and!; [done..|].
    rewrite T in Te. apply app_inv_head in Te. by rewrite Te.
  - exists []. split; [done|]. split; [apply Forall_nil_2|]. by rewrite app_nil_r.
  - clear Hrun. intros pre d post a u a' u' _ (plan & Hk & Hl & T) Hbody.
    apply bind_ok in Hbody as ([] & u0 & Hlog & Hbody).
    apply log_or_print_sound in Hlog as [[_ T0] _].
    apply bind_ok in Hbody as ([] & u1 & Hm & Hbody).
    apply mkdir_ok in Hm as (_ & _ & _ & _ & T1).
    apply build_replicates_calls in Hbody as (outs & Hlen & T2).
    exists (plan ++ [(d, outs)])%list. split_and!.
    + by rewrite fmap_app, Hk.
    + rewrite fmap_app. apply Forall_app. split; [done|].
      apply Forall_singleton. simpl. rewrite Hlen, length_range. f_equal. lia.
    + rewrite T2, T1, T0, T. unfold from_df_calls. rewrite flat_map_app. simpl.
      rewrite app_nil_r. by rewrite <- !app_assoc.
Qed.


(** *** The tables of every run of [from_df] *)

Lemma app_string_inj_r a b c : a +:+ c = b +:+ c -> a = b.
Proof.
  revert b. induction a as [|x a IH]; intros [|y b] H; [done| | |].
  - apply (f_equal String.length) in H. rewrite app_nil_string, app_cons_string in H.
    simpl in H. rewrite length_app_string in H. lia.
  - apply (f_equal String.length) in H. rewrite app_nil_string, app_cons_string in H.
    simpl in H. rewrite length_app_string in H. lia.
  - rewrite !app_cons_string in H. injection H as -> H. f_equal. by apply IH.
Qed.

Lemma subset_csv_path_inj_both res csv d r d' r' :
  subset_csv_path res csv d r = subset_csv_path res csv d' r' -> d = d' /\ r = r'.
Proof.
  unfold subset_csv_path, replicate_dir, train_dur_dir, Fs.joinpath.
  intros [[[_ Hd]%app_inj_tail Hr]%app_inj_tail _]%app_inj_tail. split.
  - apply (f_equal (Py.strip_prefix "train_dur_")) in Hd.
    rewrite !strip_prefix_app in Hd. injection Hd as Hd.
    apply app_string_inj_r in Hd. by apply (inj pretty).
  - apply (f_equal (Py.strip_prefix "replicate_")) in Hr.
    rewrite !strip_prefix_app in Hr. injection Hr as Hr. by apply (inj pretty).
Qed.

#[local] Instance tables_drawn_preorder full ls res csv :
  PreOrder (tables_drawn full ls res csv).
Proof.
  split.
  - intros w p c H. by left.
  - intros x y z H1 H2 p c H. destruct (H2 p c H) as [H'|H']; [|by right].
    by apply H1.
Qed.

Lemma created_tables_drawn full ls res csv p w w' :
  created p w w' -> tables_drawn full ls res csv w w'.
Proof. intros [->|(_ & _ & _ & F & _)]; [reflexivity|]. intros q c. rewrite F. auto. Qed.

Lemma traced_tables_drawn full ls res csv ev w w' :
  traced ev w w' -> tables_drawn full ls res csv w w'.
Proof. intros [Hfs _] q c. rewrite Hfs. auto. Qed.

Lemma npy_written_tables_drawn full ls res csv D vn w w' :
  vn ∈ vec_names -> written (Fs.joinpath D (vn +:+ ".npy")) w w' ->
  tables_drawn full ls res csv w w'.
Proof.
  intros Hvn (_ & _ & F) q c Hq.
  destruct (decide (q = Fs.joinpath D (vn +:+ ".npy"))) as [->|Hne].
  - right. left. eauto.
  - left. by rewrite <- F.
Qed.

(** [to_csv] leaves every other file alone, and the table it was given in
    the file it writes. *)
Lemma to_csv_content t p :
  sound (fun w w' => forall q c, wfiles w' !! q = Some c ->
                       wfiles w !! q = Some c \/ (q = p /\ c = Fs.Csv t))
    io_error (to_csv t p).
Proof.
  intros w r w'. unfold to_csv, lift_fs, Fs.write_file.
  destruct (Fs.is_dir (w_fs w) p) eqn:Ed; simpl.
  { intros [= <- <-]. simpl. split; [auto | done]. }
  destruct (Fs.is_dir (w_fs w) (Fs.parent p)) eqn:Ep; simpl.
  - intros [= <- <-]. simpl. split; [|done]. intros q c.
    destruct (decide (q = p)) as [->|Hne].
    + rewrite lookup_insert_eq. intros [= <-]. auto.
    + rewrite lookup_insert_ne by done. auto.
  - intros [= <- <-]. simpl. split; [auto | done].
Qed.

Lemma call_split_returns t d ls w out w' :
  call_split t d ls w = (Ok out, w') ->
  exists fs g g', split_dataframe fs g t d ls = (Returned out, g').
Proof. intros H. apply call_split_ok in H as (_ & g' & H). eauto. Qed.

Lemma from_df_tables_drawn full csv durs tb n res ls ws sk tk lm :
  sound (tables_drawn full ls res csv) io_error
    (from_df full csv durs tb n res ls ws sk tk lm).
Proof.
  unfold from_df. apply sound_for; [apply _|]. intros d m _.
  apply sound_bind;
    [apply _ | sound_prim log_or_print_sound; apply traced_tables_drawn |].
  intros _.
  apply sound_bind; [apply _ | sound_prim mkdir_sound; apply created_tables_drawn |].
  intros _. apply sound_for; [apply _|]. intros r m' _. unfold build_replicate.
  apply sound_bind; [apply _ | sound_prim mkdir_sound; apply created_tables_drawn |].
  intros _. unfold build_into.
  apply (sound_bind_post _ _
           (fun out => exists fs g g',
              split_dataframe fs g (select_split "train" full) d ls = (Returned out, g')));
    [intros u out u1; apply call_split_returns
    | sound_prim call_split_sound; apply traced_tables_drawn |].
  intros out (fs & g & g' & Hsplit).
  apply sound_bind;
    [apply _ | sound_prim call_spect_vectors_sound; apply traced_tables_drawn |].
  intros [[v1 v2] v3].
  apply sound_bind; [apply _ | | intros _].
  { unfold save_vectors. apply sound_for; [apply _|]. intros [vn v] [] Hvn.
    sound_prim np_save_sound. intros u u'. apply npy_written_tables_drawn.
    by apply elem_of_zip_l in Hvn. }
  apply sound_bind; [apply _ | sound_prim to_csv_content | intros _; apply sound_ret; apply _].
  intros u u' H q c Hq. destruct (H q c Hq) as [?|[-> ->]]; [by left|].
  right. right. exists d, r. split; [done|]. exists fs, g, out, g'. done.
Qed.

(** A drawn table has the [val] and the [test] rows of the full table, and
    its other rows are tagged [train]. *)
Lemma drawn_table_rows full ls d c :
  drawn_table full ls d c ->
  exists subset t,
    c = Fs.Csv t /\
    t = concat [subset; select_split "val" full; select_split "test" full] /\
    only_train subset /\
    select_split "val" t = select_split "val" full /\
    select_split "test" t = select_split "test" full.
Proof.
  intros (fs & g & out & g' & _ & ->).
  eexists (select_split "train" out), _. split; [done|]. split; [done|].
  split; [apply select_split_only|].
  apply recombined_eval_rows. exists (select_split "train" out).
  split; [apply select_split_only | done].
Qed.

(** C2. The table of a replicate is made of the subset drawn for it.  In
    every run of [from_df], completed or not, when the table file of the
    pair [(d, r)] is not what it was before the run, it holds the [train]
    rows of a subset that the splitter returned for the [train] rows of the
    full table and the duration [d], then all [val] rows, then all [test]
    rows of the full table.  After a completed run, for every requested
    duration [d] and every replicate [r] from 1 to [num_replicates], that
    file is there, holds such a table, and is listed in the result.  The
    [val] and the [test] rows of such a table are those of the full table,
    whatever the duration. *)
Theorem from_df_tables_recombined
    full csv durs tb n res ls ws sk tk lm (w : world) (d r : Z) :
  (forall c,
     wfiles (from_df full csv durs tb n res ls ws sk tk lm w).2
       !! subset_csv_path res csv d r = Some c ->
     wfiles w !! subset_csv_path res csv d r <> Some c ->
     drawn_table full ls d c) /\
  (forall m,
     (from_df full csv durs tb n res ls ws sk tk lm w).1 = Ok m ->
     d ∈ durs -> 1 <= r <= n ->
     subset_csv_path res csv d r ∈ dd_get d m /\
     exists c,
       wfiles (from_df full csv durs tb n res ls ws sk tk lm w).2
         !! subset_csv_path res csv d r = Some c /\
       drawn_table full ls d c) /\
  (forall c,
     drawn_table full ls d c ->
     exists subset t,
       c = Fs.Csv t /\
       t = concat [subset; select_split "val" full; select_split "test" full] /\
       only_train subset /\
       select_split "val" t = select_split "val" full /\
       select_split "test" t = select_split "test" full).
Proof.
  destruct (from_df full csv durs tb n res ls ws sk tk lm w) as [res0 w'] eqn:Hrun.
  simpl. split_and!.
  - intros c Hc Hnew.
    pose proof (from_df_tables_drawn _ _ _ _ _ _ _ _ _ _ _ _ _ _ Hrun) as [Hd _].
    destruct (Hd _ _ Hc) as [Hold|[(D & vn & Hvn & Hp)|(d' & r' & Hp & Ht)]].
    + done.
    + exfalso. apply (f_equal Fs.name) in Hp.
      rewrite name_subset_csv_path, name_joinpath in Hp.
      by apply (subset_csv_name_not_npy csv d r vn).
    + apply subset_csv_path_inj_both in Hp as [<- <-]. done.
  - intros m -> Hd Hr. split.
    + apply from_df_ok in Hrun as (_ & _ & _ & Dg & _). rewrite (Dg d Hd).
      apply list_elem_of_In, in_map, list_elem_of_In, elem_of_range. lia.
    + destruct (from_df_replicate_step _ _ _ _ _ _ _ _ _ _ _ _ _ _ _ _ Hrun Hd Hr)
        as (a & v & a' & v' & _ & Hbody & [_ F]).
      apply build_replicate_files in Hbody
        as (fs1 & g & g' & out & fs2 & v1 & v2 & v3 & Hsp & _ & _ & _ & _ & H4 & HR).
      eexists. split.
      * rewrite F; [exact H4|]. unfold subset_csv_path. by rewrite parent_joinpath.
      * exists fs1, g, out, g'. done.
  - apply drawn_table_rows.
Qed.


(** *** Names that hold one whole number of seconds *)

(** [train_dur_] has no border: an occurrence of it cannot begin in a text
    that does not hold it and end in a copy of [train_dur_] that follows. *)
Lemma strip_prefix_straddle u Y :
  u <> "" -> Py.strip_prefix "train_dur_" u = None ->
  Py.strip_prefix "train_dur_" (u +:+ "train_dur_" +:+ Y) = None.
Proof.
  intros Hu. destruct u as [|c1 u]; [done|]. clear Hu.
  rewrite app_cons_string. cbn [Py.strip_prefix].
  destruct (Ascii.eqb "t" c1); [|done].
  destruct u as [|c2 u]; [done|]. rewrite app_cons_string. cbn [Py.strip_prefix].
  destruct (Ascii.eqb "r" c2); [|done].
  destruct u as [|c3 u]; [done|]. rewrite app_cons_string. cbn [Py.strip_prefix].
  destruct (Ascii.eqb "a" c3); [|done].
  destruct u as [|c4 u]; [done|]. rewrite app_cons_string. cbn [Py.strip_prefix].
  destruct (Ascii.eqb "i" c4); [|done].
  destruct u as [|c5 u]; [done|]. rewrite app_cons_string. cbn [Py.strip_prefix].
  destruct (Ascii.eqb "n" c5); [|done].
  destruct u as [|c6 u]; [done|]. rewrite app_cons_string. cbn [Py.strip_prefix].
  destruct (Ascii.eqb "_" c6); [|done].
  destruct u as [|c7 u]; [done|]. rewrite app_cons_string. cbn [Py.strip_prefix].
  destruct (Ascii.eqb "d" c7); [|done].
  destruct u as [|c8 u]; [done|]. rewrite app_cons_string. cbn [Py.strip_prefix].
  destruct (Ascii.eqb "u" c8); [|done].
  destruct u as [|c9 u]; [done|]. rewrite app_cons_string. cbn [Py.strip_prefix].
  destruct (Ascii.eqb "r" c9); [|done].
  destruct u as [|c10 u]; [done|]. rewrite app_cons_string. cbn [Py.strip_prefix].
  by destruct (Ascii.eqb "_" c10).
Qed.

Lemma findall_skip_prefix pre Y :
  Py.after_first "train_dur_" pre = None ->
  Py.findall_from TRAIN_DUR_PAT 0 (pre +:+ "train_dur_" +:+ Y)
  = Py.findall_from TRAIN_DUR_PAT 0 ("train_dur_" +:+ Y).
Proof.
  induction pre as [|c t IH]; [done|].
  intros H.
  assert (Py.strip_prefix "train_dur_" (String c t) = None /\
          Py.after_first "train_dur_" t = None) as [H1 H2].
  { revert H. cbn [Py.after_first].
    by destruct (Py.strip_prefix "train_dur_" (String c t)). }
  pose proof (strip_prefix_straddle (String c t) Y ltac:(done) H1) as Hm.
  rewrite app_cons_string in Hm |- *.
  rewrite findall_from_nomatch by done. by apply IH.
Qed.

Lemma findall_no_occurrence post :
  Py.after_first "train_dur_" post = None ->
  Py.findall_from TRAIN_DUR_PAT 0 post = [].
Proof.
  induction post as [|c t IH]; [done|].
  cbn [Py.after_first].
  destruct (Py.strip_prefix "train_dur_" (String c t)) eqn:E; [done|].
  intros H. rewrite findall_from_nomatch by done. by apply IH.
Qed.

(** A name that holds [train_dur_<digits>s] once, and [train_dur_] nowhere
    else, holds one duration: the digits. *)
Lemma matches_of_named dir pre ds post :
  Py.after_first "train_dur_" pre = None ->
  Py.after_first "train_dur_" post = None ->
  all_chars Py.is_digit ds = true -> ds <> "" ->
  matches_of (Fs.joinpath dir (pre +:+ "train_dur_" +:+ ds +:+ "s" +:+ post)) = [ds].
Proof.
  intros Hpre Hpost Hds Hne. unfold matches_of, Py.findall. rewrite name_joinpath.
  rewrite findall_skip_prefix by done.
  change ("train_dur_" +:+ ds +:+ "s" +:+ post)
    with (String "t" ("rain_dur_" +:+ ds +:+ String "s" post)).
  rewrite findall_from_cons.
  change (String "t" ("rain_dur_" +:+ ds +:+ String "s" post))
    with ("train_dur_" +:+ ds +:+ String "s" post).
  rewrite match_at_train_dur by done. cbn [List.hd]. f_equal.
  replace (Nat.pred (11 + String.length ds))
    with (String.length "rain_dur_" + (String.length ds + 1))%nat by (simpl; lia).
  rewrite findall_from_skip, findall_from_skip. cbn [Py.findall_from].
  by apply findall_no_occurrence.
Qed.

(** Such a name is read as the number its digits write in base ten. *)
Lemma parse_train_dur_named dir pre post d :
  0 <= d ->
  Py.after_first "train_dur_" pre = None ->
  Py.after_first "train_dur_" post = None ->
  parse_train_dur (Fs.joinpath dir (pre +:+ "train_dur_" +:+ pretty d +:+ "s" +:+ post))
  = Ok d.
Proof.
  intros Hd Hpre Hpost. destruct (pretty_nonneg d Hd) as (Hds & Hne & Hint).
  rewrite (parse_train_dur_single _ (pretty d)); [done|].
  by apply matches_of_named.
Qed.

End Reasoning.

(** * The claims on the concrete world *)

Lemma completed_eq (x : result DefaultDict.t * @world Example.toy) :
  Example.completed x = true -> x = (Ok (Example.mapping_of x), x.2).
Proof. destruct x as [[m|e] w]; [reflexivity | discriminate]. Qed.


(** C9, on two listings of the same two files. *)
Lemma from_dir_numbering_independent_of_listing_order_witness :
  [["prev"; "a"; "foo_prep_train_dur_5s_r2.csv"];
   ["prev"; "a"; "foo_prep_train_dur_5s_r1.csv"]]
  ≡ₚ [["prev"; "a"; "foo_prep_train_dur_5s_r1.csv"];
      ["prev"; "a"; "foo_prep_train_dur_5s_r2.csv"]] /\
  replicate_numbering
    [["prev"; "a"; "foo_prep_train_dur_5s_r2.csv"];
     ["prev"; "a"; "foo_prep_train_dur_5s_r1.csv"]]
  = replicate_numbering
      [["prev"; "a"; "foo_prep_train_dur_5s_r1.csv"];
       ["prev"; "a"; "foo_prep_train_dur_5s_r2.csv"]] /\
  @from_dir_listed Example.toy
    [["prev"; "a"; "foo_prep_train_dur_5s_r2.csv"];
     ["prev"; "a"; "foo_prep_train_dur_5s_r1.csv"]]
    [5] tt 2 ["res"] 88 "s" "t" tt (Example.world_of Example.prev_run)
  = @from_dir_listed Example.toy
      [["prev"; "a"; "foo_prep_train_dur_5s_r1.csv"];
       ["prev"; "a"; "foo_prep_train_dur_5s_r2.csv"]]
      [5] tt 2 ["res"] 88 "s" "t" tt (Example.world_of Example.prev_run).
Proof.
  split; [apply perm_swap|].
  apply (from_dir_numbering_independent_of_listing_order (C := Example.toy)
           _ _ [5] tt 2 ["res"] 88 "s" "t" tt (Example.world_of Example.prev_run)).
  apply perm_swap.
Defined.

(** C6, when a third duration is requested. *)
Lemma from_dir_validates_before_writing_witness :
  exists e,
    @from_dir Example.toy ["prev"] [5; 10; 15] tt 2 ["res"] 88 "s" "t" tt
      (Example.world_of Example.prev_run)
    = (Err e, Example.world_of Example.prev_run).
Proof.
  destruct (from_dir_validates_before_writing (C := Example.toy)
              ["prev"] [5; 10; 15] tt 2 ["res"] 88 "s" "t" tt
              (Example.world_of Example.prev_run)
              [(10, [["prev"; "a"; "foo_prep_train_dur_10s_r1.csv"];
                     ["prev"; "a"; "foo_prep_train_dur_10s_r2.csv"]]);
               (5, [["prev"; "a"; "foo_prep_train_dur_5s_r1.csv"];
                    ["prev"; "a"; "foo_prep_train_dur_5s_r2.csv"]])])
    as (e & He & _).
  - vm_compute. reflexivity.
  - left. vm_compute. discriminate.
  - exists e. exact He.
Defined.

(** C1 as stated fails: with [num_replicates = 0] the call of [from_df]
    completes and returns the empty mapping, whose key set is not the set
    of requested durations. *)
Lemma from_df_without_replicates_returns_no_key :
  exists m w',
    @from_df Example.toy Example.table ["data"; "foo_prep.csv"] [5] tt 0 ["res"] tt
      88 "s" "t" tt (Example.world_of Example.fresh) = (Ok m, w') /\
    list_to_set (C := gset Z) (DefaultDict.keys m) <> list_to_set [5].
Proof.
  eexists _, _. split; [vm_compute; reflexivity|]. vm_compute. discriminate.
Defined.

(** C1 (amended), on the recovered and on the freshly built run. *)
Lemma result_mapping_shape_witness :
  (list_to_set (C := gset Z) (DefaultDict.keys (Example.mapping_of Example.imported_run))
   = list_to_set [5; 10] /\
   forall d ps,
     DefaultDict.lookup d (Example.mapping_of Example.imported_run) = Some ps ->
     Py.len ps = 2) /\
  (list_to_set (C := gset Z) (DefaultDict.keys (Example.mapping_of Example.built_run))
   = list_to_set [5; 10] /\
   forall d ps,
     DefaultDict.lookup d (Example.mapping_of Example.built_run) = Some ps ->
     Py.len ps = 2).
Proof.
  destruct (result_mapping_shape (C := Example.toy)) as [Hdir Hdf]. split.
  - apply (Hdir ["prev"] [5; 10] tt 2 ["res"] 88 "s" "t" tt
             (Example.world_of Example.prev_run) (Example.imported_run.2)).
    apply (completed_eq Example.imported_run). vm_compute. reflexivity.
  - apply (Hdf Example.table ["data"; "foo_prep.csv"] [5; 10] tt 2 ["res"] tt
             88 "s" "t" tt (Example.world_of Example.fresh) (Example.built_run.2)).
    + lia.
    + apply (completed_eq Example.built_run). vm_compute. reflexivity.
Defined.

(** C10, for the duration 7, which was not requested. *)
Lemma unrequested_duration_yields_empty_list_witness :
  DefaultDict.getitem 7 (Example.mapping_of Example.imported_run)
  = ([], (Example.mapping_of Example.imported_run ++ [(7, [])])%list) /\
  DefaultDict.getitem 7 (Example.mapping_of Example.built_run)
  = ([], (Example.mapping_of Example.built_run ++ [(7, [])])%list).
Proof.
  destruct (unrequested_duration_yields_empty_list (C := Example.toy)) as [Hdir Hdf].
  split.
  - apply (Hdir ["prev"] [5; 10] tt 2 ["res"] 88 "s" "t" tt
             (Example.world_of Example.prev_run) (Example.imported_run.2)).
    + intros H. apply list_elem_of_In in H. simpl in H. lia.
    + apply (completed_eq Example.imported_run). vm_compute. reflexivity.
  - apply (Hdf Example.table ["data"; "foo_prep.csv"] [5; 10] tt 2 ["res"] tt
             88 "s" "t" tt (Example.world_of Example.fresh) (Example.built_run.2)).
    + intros H. apply list_elem_of_In in H. simpl in H. lia.
    + apply (completed_eq Example.built_run). vm_compute. reflexivity.
Defined.

(** C2, for the first replicate of duration 5. *)
Lemma from_df_tables_recombined_witness :
  5 ∈ [5; 10] /\ 1 <= 1 <= 2 /\
  exists c,
    Fs.files (w_fs Example.built_run.2)
      !! subset_csv_path ["res"] ["data"; "foo_prep.csv"] 5 1 = Some c /\
    @drawn_table Example.toy Example.table tt 5 c.
Proof.
  split; [apply list_elem_of_here|]. split; [lia|].
  destruct (from_df_tables_recombined (C := Example.toy)
              Example.table ["data"; "foo_prep.csv"] [5; 10] tt 2 ["res"] tt
              88 "s" "t" tt (Example.world_of Example.fresh) 5 1)
    as (_ & Hdone & _).
  destruct (Hdone (Example.mapping_of Example.built_run)) as [_ Hfile].
  - assert (Example.completed Example.built_run = true) as Hc
      by (vm_compute; reflexivity).
    exact (f_equal fst (completed_eq Example.built_run Hc)).
  - apply list_elem_of_here.
  - lia.
  - exact Hfile.
Defined.

(** C8, when [train_dur_5s] is already in the results directory. *)
Lemma existing_directory_is_fatal_witness :
  (["res"; "train_dur_5s"] ∈ Fs.dirs Example.used) /\
  (exists e,
     (@from_df Example.toy Example.table ["data"; "foo_prep.csv"] [5; 10] tt 2 ["res"]
        tt 88 "s" "t" tt (Example.world_of Example.used)).1 = Err e).
Proof.
  assert (["res"; "train_dur_5s"] ∈ Fs.dirs Example.used) as Hin.
  { apply (bool_decide_unpack (["res"; "train_dur_5s"] ∈ Fs.dirs Example.used)).
    vm_compute. exact I. }
  split; [exact Hin|].
  destruct (existing_directory_is_fatal (C := Example.toy)
              Example.table ["data"; "foo_prep.csv"] ["prev"] [5; 10] tt 2 ["res"] tt
              88 "s" "t" tt (Example.world_of Example.used) ["res"; "train_dur_5s"] 5)
    as (_ & He & _).
  - exact Hin.
  - apply list_elem_of_here.
  - left. vm_compute. reflexivity.
  - exact He.
Defined.

(** C4 as stated fails: the files of the specification's example do not
    match [CSV_GLOB], so none is discovered and the requested durations are
    reported missing. *)
Lemma from_dir_example_of_spec_not_discovered :
  Fs.glob ["prev"] CSV_GLOB Example.prev_run_spec = [] /\
  (@from_dir Example.toy ["prev"] [5; 10] tt 2 ["res"] 88 "s" "t" tt
     (Example.world_of Example.prev_run_spec)).1
  = Err (ValueError_durations_mismatch [5; 10] []).
Proof. split; vm_compute; reflexivity. Qed.

(** C4 (amended). A file name that holds [train_dur_<N>s] once, with [N]
    the decimal numeral of an integer [d >= 0], and [train_dur_] nowhere
    else, is read as the duration [d].  With the table files
    [foo_prep_train_dur_5s_r1.csv], [foo_prep_train_dur_5s_r2.csv],
    [foo_prep_train_dur_10s_r1.csv] and [foo_prep_train_dur_10s_r2.csv] in
    the directory [a] of the previous run, their array files beside them,
    an empty results directory and collaborators that do not raise,
    [from_dir] with durations [5, 10] and two replicates completes and
    returns two entries of two paths each. *)
Theorem from_dir_recovers_integer_durations
    (rd : Fs.content -> df) (sp : df -> Z -> df) (sv1 sv2 sv3 : df -> Z -> Z -> vec)
    (window_size : Z) (spect_key timebins_key : string) :
  (forall (dir : path) (pre post : string) (d : Z),
     0 <= d ->
     Py.after_first "train_dur_" pre = None ->
     Py.after_first "train_dur_" post = None ->
     parse_train_dur
       (Fs.joinpath dir (pre +:+ "train_dur_" +:+ pretty d +:+ "s" +:+ post))
     = Ok d) /\
  (@from_dir (Example.obliging rd sp sv1 sv2 sv3) ["prev"] [5; 10] tt 2 ["res"]
     window_size spect_key timebins_key tt
     (@Build_world (Example.obliging rd sp sv1 sv2 sv3) Example.prev_run tt [])).1
  = Ok [(10, [["res"; "train_dur_10s"; "replicate_1"; "foo_prep_train_dur_10s_r1.csv"];
              ["res"; "train_dur_10s"; "replicate_2"; "foo_prep_train_dur_10s_r2.csv"]]);
        (5, [["res"; "train_dur_5s"; "replicate_1"; "foo_prep_train_dur_5s_r1.csv"];
             ["res"; "train_dur_5s"; "replicate_2"; "foo_prep_train_dur_5s_r2.csv"]])].
Proof.
  split.
  - intros dir pre post d Hd Hpre Hpost. by apply parse_train_dur_named.
  - vm_compute. reflexivity.
Qed.

(** C4 (amended), for the first table of the previous run. *)
Lemma from_dir_recovers_integer_durations_witness :
  parse_train_dur ["prev"; "a"; "foo_prep_train_dur_5s_r1.csv"] = Ok 5.
Proof.
  destruct (from_dir_recovers_integer_durations
              (fun _ => []) (fun t _ => t) (fun _ _ _ => []) (fun _ _ _ => [])
              (fun _ _ _ => []) 88 "s" "t") as [Hname _].
  apply (Hname ["prev"; "a"] "foo_prep_" "_r1.csv" 5).
  - lia.
  - vm_compute. reflexivity.
  - vm_compute. reflexivity.
Defined.

(** The decimal durations that [TRAIN_DUR_PAT] accepts are rejected by
    [int] at line 102: a discovered file named with [5.0] makes [from_dir]
    raise, also when a later file has no duration in its name. *)
Lemma from_dir_decimal_duration_raises :
  matches_of ["prev"; "a"; "foo_prep_train_dur_5.0s_r1.csv"] = ["5.0"] /\
  (@from_dir Example.toy ["prev"] [5; 10] tt 2 ["res"] 88 "s" "t" tt
     (Example.world_of Example.prev_run_decimal)).1
  = Err (ValueError_invalid_literal "5.0") /\
  matches_of ["prev"; "a"; "b_prep.csv"] = [] /\
  (@from_dir Example.toy ["prev"] [5] tt 1 ["res"] 88 "s" "t" tt
     (Example.world_of Example.prev_run_mixed)).1
  = Err (ValueError_invalid_literal "5.0").
Proof. split_and!; vm_compute; reflexivity. Qed.

(** C7 as stated fails: the file [weird_train_dur_5s_train_dur_10s.csv]
    holds two durations but does not match [CSV_GLOB]; it is not
    discovered and the error raised is not the naming error. *)
Lemma from_dir_weird_name_not_discovered :
  matches_of ["prev"; "a"; "weird_train_dur_5s_train_dur_10s.csv"] = ["5"; "10"] /\
  Fs.glob ["prev"] CSV_GLOB Example.prev_run_weird = [] /\
  (@from_dir Example.toy ["prev"] [5; 10] tt 2 ["res"] 88 "s" "t" tt
     (Example.world_of Example.prev_run_weird)).1
  = Err (ValueError_durations_mismatch [5; 10] []).
Proof. split_and!; vm_compute; reflexivity. Qed.

(** C7 (amended), for [weird_prep_train_dur_5s_train_dur_10s.csv]. *)
Lemma from_dir_naming_error_witness :
  exists p found,
    (@from_dir Example.toy ["prev"] [5; 10] tt 2 ["res"] 88 "s" "t" tt
       (Example.world_of Example.prev_run_weird_prep)).1
    = Err (ValueError_not_single_duration p found).
Proof.
  assert (Fs.glob ["prev"] CSV_GLOB Example.prev_run_weird_prep
          = [["prev"; "a"; "weird_prep_train_dur_5s_train_dur_10s.csv"]]) as Hglob
    by (vm_compute; reflexivity).
  destruct (from_dir_naming_error (C := Example.toy)
              ["prev"] [5; 10] tt 2 ["res"] 88 "s" "t" tt
              (Example.world_of Example.prev_run_weird_prep)) as [[_ Hif] _].
  - simpl. rewrite Hglob. intros q s Hq Hm.
    apply list_elem_of_singleton in Hq. subst q. vm_compute in Hm. discriminate.
  - apply Hif. exists ["prev"; "a"; "weird_prep_train_dur_5s_train_dur_10s.csv"].
    simpl. rewrite Hglob. split; [apply list_elem_of_here|].
    vm_compute. discriminate.
Defined.

(** C5 as stated fails: in the first replicate of duration 5 the
    recomputed [spect_id_vector] is [0, 1, 2, 3, 4], and the file left on
    disk holds the array of the previous run, [7]. *)
Lemma from_dir_recomputed_arrays_overwritten :
  @spect_vectors_from_df Example.toy Example.prev_run Example.table 88 "s" "t" 5 tt tt
  = Returned ([0; 1; 2; 3; 4], [88], [5]) /\
  Fs.files Example.prev_run !! legacy_vec_path
    ["prev"; "a"; "foo_prep_train_dur_5s_r1.csv"] "spect_id_vector" = Some (Fs.Npy [7]) /\
  Fs.files (w_fs Example.imported_run.2) !! replicate_vec_path ["res"] 5 1 "spect_id_vector"
  = Some (Fs.Npy [7]) /\
  Fs.files (w_fs Example.imported_run.2) !! replicate_vec_path ["res"] 5 1 "spect_id_vector"
  <> Some (Fs.Npy [0; 1; 2; 3; 4]).
Proof. split_and!; vm_compute; (reflexivity || discriminate). Qed.

(** C5 (amended), for the first replicate of duration 5. *)
Lemma from_dir_keeps_previous_arrays_witness :
  exists c,
    Fs.files Example.prev_run
      !! legacy_vec_path ["prev"; "a"; "foo_prep_train_dur_5s_r1.csv"] "x_inds" = Some c /\
    Fs.files (w_fs Example.imported_run.2) !! replicate_vec_path ["res"] 5 1 "x_inds"
    = Some c.
Proof.
  apply (from_dir_keeps_previous_arrays (C := Example.toy)
           ["prev"] [5; 10] tt 2 ["res"] 88 "s" "t" tt
           (Example.world_of Example.prev_run)
           (Example.mapping_of Example.imported_run) (Example.imported_run.2)
           [(10, [["prev"; "a"; "foo_prep_train_dur_10s_r1.csv"];
                  ["prev"; "a"; "foo_prep_train_dur_10s_r2.csv"]]);
            (5, [["prev"; "a"; "foo_prep_train_dur_5s_r1.csv"];
                 ["prev"; "a"; "foo_prep_train_dur_5s_r2.csv"]])]
           5
           [["prev"; "a"; "foo_prep_train_dur_5s_r1.csv"];
            ["prev"; "a"; "foo_prep_train_dur_5s_r2.csv"]]
           1 ["prev"; "a"; "foo_prep_train_dur_5s_r1.csv"] "x_inds").
  - apply (bool_decide_unpack (Fs.wf Example.prev_run)). vm_compute. exact I.
  - apply (completed_eq Example.imported_run). vm_compute. reflexivity.
  - vm_compute. reflexivity.
  - vm_compute. reflexivity.
  - lia.
  - vm_compute. reflexivity.
  - apply list_elem_of_In. simpl. auto.
Defined.

(** * The further properties on the concrete world *)

(** X1, on the four tables of the previous run, listed out of order. *)
Lemma manifest_groups_sorted_files_witness :
  NoDup [10; 5] /\
  (forall d, d ∈ [10; 5] <->
     exists p,
       p ∈ [["prev"; "a"; "foo_prep_train_dur_5s_r2.csv"];
            ["prev"; "a"; "foo_prep_train_dur_10s_r2.csv"];
            ["prev"; "a"; "foo_prep_train_dur_5s_r1.csv"];
            ["prev"; "a"; "foo_prep_train_dur_10s_r1.csv"]] /\
       parse_train_dur p = Ok d).
Proof.
  destruct (manifest_groups_sorted_files
              [["prev"; "a"; "foo_prep_train_dur_5s_r2.csv"];
               ["prev"; "a"; "foo_prep_train_dur_10s_r2.csv"];
               ["prev"; "a"; "foo_prep_train_dur_5s_r1.csv"];
               ["prev"; "a"; "foo_prep_train_dur_10s_r1.csv"]]
              [(10, [["prev"; "a"; "foo_prep_train_dur_10s_r1.csv"];
                     ["prev"; "a"; "foo_prep_train_dur_10s_r2.csv"]]);
               (5, [["prev"; "a"; "foo_prep_train_dur_5s_r1.csv"];
                    ["prev"; "a"; "foo_prep_train_dur_5s_r2.csv"]])])
    as (Hnd & Hkeys & _).
  - vm_compute. reflexivity.
  - split; [exact Hnd | exact Hkeys].
Defined.

(** X2, on the recovered run. *)
Lemma from_dir_completes_only_on_exact_shape_witness :
  NoDup [5; 10] /\
  (forall p, p ∈ Fs.glob ["prev"] CSV_GLOB Example.prev_run ->
             exists d, d ∈ [5; 10] /\ parse_train_dur p = Ok d) /\
  (forall d, d ∈ [5; 10] ->
     Py.len (List.filter (encodes d)
               (Py.sorted_paths (Fs.glob ["prev"] CSV_GLOB Example.prev_run))) = 2).
Proof.
  apply (from_dir_completes_only_on_exact_shape (C := Example.toy)
           ["prev"] [5; 10] tt 2 ["res"] 88 "s" "t" tt
           (Example.world_of Example.prev_run)
           (Example.mapping_of Example.imported_run) (Example.imported_run.2)).
  apply (completed_eq Example.imported_run). vm_compute. reflexivity.
Defined.

(** X3, when the duration 5 is requested twice. *)
Lemma duplicate_durations_are_fatal_witness :
  (exists e,
     @from_dir Example.toy ["prev"] [5; 5] tt 2 ["res"] 88 "s" "t" tt
       (Example.world_of Example.prev_run)
     = (Err e, Example.world_of Example.prev_run)) /\
  (exists e,
     (@from_df Example.toy Example.table ["data"; "foo_prep.csv"] [5; 5] tt 2 ["res"]
        tt 88 "s" "t" tt (Example.world_of Example.prev_run)).1 = Err e).
Proof.
  apply (duplicate_durations_are_fatal (C := Example.toy)
           Example.table ["data"; "foo_prep.csv"] ["prev"] [5; 5] tt 2 ["res"] tt
           88 "s" "t" tt (Example.world_of Example.prev_run)).
  intros H. apply NoDup_cons in H as [H _]. apply H. apply list_elem_of_here.
Defined.

(** X4, on a tree without any table. *)
Lemma from_dir_empty_scan_witness :
  ([5] = [] ->
   @from_dir Example.toy ["res"] [5] tt 2 ["out"] 88 "s" "t" tt
     (Example.world_of Example.fresh)
   = (Ok [], {| w_fs := w_fs (Example.world_of Example.fresh);
                w_rng := w_rng (Example.world_of Example.fresh);
                w_trace := (w_trace (Example.world_of Example.fresh) ++ [Logged])%list |})) /\
  ([5] <> [] ->
   @from_dir Example.toy ["res"] [5] tt 2 ["out"] 88 "s" "t" tt
     (Example.world_of Example.fresh)
   = (Err (ValueError_durations_mismatch (Py.sorted_ints [5]) []),
      Example.world_of Example.fresh)).
Proof.
  apply (from_dir_empty_scan (C := Example.toy)
           ["res"] [5] tt 2 ["out"] 88 "s" "t" tt (Example.world_of Example.fresh)).
  vm_compute. reflexivity.
Defined.

(** X5, with no replicate asked for. *)
Lemma zero_replicates_build_only_directories_witness :
  Fs.files
    (w_fs (@from_df Example.toy Example.table ["data"; "foo_prep.csv"] [5; 10] tt 0
             ["res"] tt 88 "s" "t" tt (Example.world_of Example.fresh)).2)
  = Fs.files (w_fs (Example.world_of Example.fresh)).
Proof.
  destruct (zero_replicates_build_only_directories (C := Example.toy)
              Example.table ["data"; "foo_prep.csv"] [5; 10] tt 0 ["res"] tt
              88 "s" "t" tt (Example.world_of Example.fresh)
              (@from_df Example.toy Example.table ["data"; "foo_prep.csv"] [5; 10] tt 0
                 ["res"] tt 88 "s" "t" tt (Example.world_of Example.fresh)).1
              (@from_df Example.toy Example.table ["data"; "foo_prep.csv"] [5; 10] tt 0
                 ["res"] tt 88 "s" "t" tt (Example.world_of Example.fresh)).2)
    as (Hfiles & _).
  - lia.
  - apply surjective_pairing.
  - exact Hfiles.
Defined.

(** X6, on the previous run's tree. *)
Lemma runs_leave_existing_files_untouched_witness :
  Fs.wf Example.prev_run /\
  forall p c,
    Fs.files Example.prev_run !! p = Some c ->
    Fs.files
      (w_fs (@from_dir Example.toy ["prev"] [5; 10] tt 2 ["res"] 88 "s" "t" tt
               (Example.world_of Example.prev_run)).2) !! p = Some c.
Proof.
  assert (Fs.wf Example.prev_run) as Hwf.
  { apply (bool_decide_unpack (Fs.wf Example.prev_run)). vm_compute. exact I. }
  split; [exact Hwf|].
  destruct (runs_leave_existing_files_untouched (C := Example.toy)
              Example.table ["data"; "foo_prep.csv"] ["prev"] [5; 10] tt 2 ["res"] tt
              88 "s" "t" tt (Example.world_of Example.prev_run) Hwf)
    as (_ & _ & Hfiles).
  exact Hfiles.
Defined.

(** X7, for the first replicate of duration 5 of the freshly built run. *)
Lemma from_df_arrays_index_the_table_witness :
  exists out v1 v2 v3,
    Fs.files (w_fs Example.built_run.2) !! replicate_vec_path ["res"] 5 1 "spect_id_vector"
    = Some (Fs.Npy v1) /\
    Fs.files (w_fs Example.built_run.2) !! replicate_vec_path ["res"] 5 1 "spect_inds_vector"
    = Some (Fs.Npy v2) /\
    Fs.files (w_fs Example.built_run.2) !! replicate_vec_path ["res"] 5 1 "x_inds"
    = Some (Fs.Npy v3) /\
    Fs.files (w_fs Example.built_run.2)
      !! subset_csv_path ["res"] ["data"; "foo_prep.csv"] 5 1
    = Some (Fs.Csv (concat [select_split "train" out;
                            select_split "val" Example.table;
                            select_split "test" Example.table])).
Proof.
  destruct (from_df_arrays_index_the_table (C := Example.toy)
              Example.table ["data"; "foo_prep.csv"] [5; 10] tt 2 ["res"] tt
              88 "s" "t" tt (Example.world_of Example.fresh)
              (Example.mapping_of Example.built_run) (Example.built_run.2) 5 1)
    as (fs1 & g & g' & out & fs2 & v1 & v2 & v3 & _ & _ & H1 & H2 & H3 & H4).
  - apply (completed_eq Example.built_run). vm_compute. reflexivity.
  - apply list_elem_of_here.
  - lia.
  - exists out, v1, v2, v3. split; [exact H1|]. split; [exact H2|].
    split; [exact H3 | exact H4].
Defined.

(** X8, for the first table of duration 5 of the recovered run. *)
Lemma from_dir_returns_copies_of_tables_witness :
  dd_get 5 (Example.mapping_of Example.imported_run) !! Z.to_nat (1 - 1)
  = Some (Fs.joinpath (replicate_dir (train_dur_dir ["res"] 5) 1)
            (Fs.name ["prev"; "a"; "foo_prep_train_dur_5s_r1.csv"])) /\
  exists c,
    Fs.files Example.prev_run !! ["prev"; "a"; "foo_prep_train_dur_5s_r1.csv"] = Some c /\
    Fs.files (w_fs Example.imported_run.2)
      !! Fs.joinpath (replicate_dir (train_dur_dir ["res"] 5) 1)
           (Fs.name ["prev"; "a"; "foo_prep_train_dur_5s_r1.csv"])
    = Some c.
Proof.
  apply (from_dir_returns_copies_of_tables (C := Example.toy)
           ["prev"] [5; 10] tt 2 ["res"] 88 "s" "t" tt
           (Example.world_of Example.prev_run)
           (Example.mapping_of Example.imported_run) (Example.imported_run.2)
           [(10, [["prev"; "a"; "foo_prep_train_dur_10s_r1.csv"];
                  ["prev"; "a"; "foo_prep_train_dur_10s_r2.csv"]]);
            (5, [["prev"; "a"; "foo_prep_train_dur_5s_r1.csv"];
                 ["prev"; "a"; "foo_prep_train_dur_5s_r2.csv"]])]
           5
           [["prev"; "a"; "foo_prep_train_dur_5s_r1.csv"];
            ["prev"; "a"; "foo_prep_train_dur_5s_r2.csv"]]
           1 ["prev"; "a"; "foo_prep_train_dur_5s_r1.csv"]).
  - apply (bool_decide_unpack (Fs.wf Example.prev_run)). vm_compute. exact I.
  - apply (completed_eq Example.imported_run). vm_compute. reflexivity.
  - vm_compute. reflexivity.
  - vm_compute. reflexivity.
  - lia.
  - vm_compute. reflexivity.
Defined.

(** X9, for the first replicate of duration 5 of the dataset [foo_prep.csv]. *)
Lemma from_df_names_read_back_by_from_dir_witness :
  parse_train_dur (subset_csv_path ["res"] ["data"; "foo_prep.csv"] 5 1) = Ok 5 /\
  (is_Some (Py.after_first "prep" (Fs.stem ["data"; "foo_prep.csv"])) ->
   CSV_GLOB (Fs.name (subset_csv_path ["res"] ["data"; "foo_prep.csv"] 5 1)) = true).
Proof.
  apply (from_df_names_read_back_by_from_dir ["res"] ["data"; "foo_prep.csv"] 5 1).
  - lia.
  - vm_compute. reflexivity.
Defined.

(** X10, on the freshly built run. *)
Lemma from_df_returns_written_paths_witness :
  Example.mapping_of Example.built_run
  = List.map
      (fun d => (d, List.map (subset_csv_path ["res"] ["data"; "foo_prep.csv"] d)
                      (Py.range 1 (2 + 1))))
      [5; 10].
Proof.
  apply (from_df_returns_written_paths (C := Example.toy)
           Example.table ["data"; "foo_prep.csv"] [5; 10] tt 2 ["res"] tt
           88 "s" "t" tt (Example.world_of Example.fresh)
           (Example.mapping_of Example.built_run) (Example.built_run.2)).
  - lia.
  - apply (completed_eq Example.built_run). vm_compute. reflexivity.
Defined.

(** X11, on the freshly built run. *)
Lemma from_df_call_sequence_witness :
  exists plan : list (Z * list df),
    plan.*1 = [5; 10] /\
    Forall (fun outs => length outs = Z.to_nat 2) plan.*2 /\
    w_trace Example.built_run.2
    = (w_trace (Example.world_of Example.fresh)
       ++ from_df_calls Example.table plan)%list /\
    @from_df_trace Example.toy Example.table tt
      (w_rng (Example.world_of Example.fresh))
      (from_df_calls Example.table plan) (w_rng Example.built_run.2).
Proof.
  apply (from_df_call_sequence (C := Example.toy)
           Example.table ["data"; "foo_prep.csv"] [5; 10] tt 2 ["res"] tt
           88 "s" "t" tt (Example.world_of Example.fresh)
           (Example.mapping_of Example.built_run) (Example.built_run.2)).
  apply (completed_eq Example.built_run). vm_compute. reflexivity.
Defined.

(** X12, for an array file of the previous run. *)
Lemma runs_write_below_results_path_only_witness :
  Fs.is_proper_prefix ["res"] ["prev"; "a"; "x_inds.npy"] = false /\
  Fs.files
    (w_fs (@from_dir Example.toy ["prev"] [5; 10] tt 2 ["res"] 88 "s" "t" tt
             (Example.world_of Example.prev_run)).2) !! ["prev"; "a"; "x_inds.npy"]
  = Fs.files Example.prev_run !! ["prev"; "a"; "x_inds.npy"].
Proof.
  split; [reflexivity|].
  destruct (runs_write_below_results_path_only (C := Example.toy)
              Example.table ["data"; "foo_prep.csv"] ["prev"] [5; 10] tt 2 ["res"] tt
              88 "s" "t" tt (Example.world_of Example.prev_run)
              ["prev"; "a"; "x_inds.npy"])
    as (_ & _ & Hfile).
  - reflexivity.
  - exact Hfile.
Defined.

(** X14, when the durations -5 and 10 are requested. *)
Lemma negative_durations_are_never_recovered_witness :
  (forall p, parse_train_dur p <> Ok (-5)) /\
  (-5 ∈ [-5; 10] ->
   exists e,
     @from_dir Example.toy ["prev"] [-5; 10] tt 2 ["res"] 88 "s" "t" tt
       (Example.world_of Example.prev_run)
     = (Err e, Example.world_of Example.prev_run)).
Proof.
  apply (negative_durations_are_never_recovered (C := Example.toy)
           ["prev"] [-5; 10] tt 2 ["res"] 88 "s" "t" tt
           (Example.world_of Example.prev_run) (-5)).
  lia.
Defined.

(** X15, on the freshly built run. *)
Lemma from_dir_accepts_what_from_df_built_witness :
  exists m0,
    group_by_train_dur
      (Py.sorted_paths (Fs.glob ["res"] CSV_GLOB (w_fs Example.built_run.2)))
      DefaultDict.empty = Ok m0 /\
    check_shape m0 [5; 10] 2 = Ok tt /\
    forall d, d ∈ [5; 10] ->
      exists csvs,
        DefaultDict.lookup d m0 = Some csvs /\
        csvs ≡ₚ dd_get d (Example.mapping_of Example.built_run).
Proof.
  apply (from_dir_accepts_what_from_df_built (C := Example.toy)
           Example.table ["data"; "foo_prep.csv"] [5; 10] tt 2 ["res"] tt
           88 "s" "t" tt (Example.world_of Example.fresh)
           (Example.mapping_of Example.built_run) (Example.built_run.2)).
  - apply (completed_eq Example.built_run). vm_compute. reflexivity.
  - lia.
  - intros d Hd. apply list_elem_of_In in Hd. simpl in Hd. lia.
  - vm_compute. reflexivity.
  - eexists. vm_compute. reflexivity.
  - vm_compute. reflexivity.
Defined.
